(** * HireIQ job-feed core: a shallow embedding in Rocq

    This development embeds the job-feed engine of the HireIQ API
    (internal/service/feed.go, remotive.go, adzuna.go, the JSearch client,
    and the feed repository) and proves properties of it.

    Modelling conventions.
    - A Go [string] is a byte string; we use Stdlib [string], whose
      characters are bytes ([ascii]).
    - [strings.ToLower] and [strings.EqualFold] are modelled on the ASCII
      range (bytes outside 'A'..'Z' are left unchanged); [unicode.IsSpace]
      on the ASCII white-space bytes.
    - Go [float64] quotients in the scorer ([float64(m)/float64(n)], the
      product with 25 and the [int(...)] truncation of a non-negative
      value) are modelled exactly over [Q] with [Qfloor].
    - Go [int] values are modelled as [Z]; no value in the code paths below
      comes close to the 64-bit range. *)

From Stdlib Require Import String Ascii List ZArith QArith Qround Bool Lia.
From Stdlib Require Import Sorting.Sorted Sorting.Permutation.
Import ListNotations.
Open Scope string_scope.

(* ------------------------------------------------------------------ *)
(** ** Go's [strings] package, on byte strings *)
Module GoStrings.

Definition lower_byte (c : ascii) : ascii :=
  let n := nat_of_ascii c in
  if Nat.leb 65 n && Nat.leb n 90 then ascii_of_nat (n + 32) else c.

(** [strings.ToLower] *)
Fixpoint ToLower (s : string) : string :=
  match s with
  | EmptyString => EmptyString
  | String c s' => String (lower_byte c) (ToLower s')
  end.

Definition upper_byte (c : ascii) : ascii :=
  let n := nat_of_ascii c in
  if Nat.leb 97 n && Nat.leb n 122 then ascii_of_nat (n - 32) else c.

(** [strings.ToUpper] *)
Fixpoint ToUpper (s : string) : string :=
  match s with
  | EmptyString => EmptyString
  | String c s' => String (upper_byte c) (ToUpper s')
  end.

(** [strings.HasPrefix s p] *)
Fixpoint HasPrefix (s p : string) : bool :=
  match p, s with
  | EmptyString, _ => true
  | String _ _, EmptyString => false
  | String c p', String d s' => Ascii.eqb c d && HasPrefix s' p'
  end.

(** [strings.Contains s sub]: [sub] occurs at some position of [s]
    (the empty string occurs in every string). *)
Fixpoint Contains (s sub : string) : bool :=
  HasPrefix s sub ||
  match s with
  | EmptyString => false
  | String _ s' => Contains s' sub
  end.

(** [unicode.IsSpace] on single bytes: '\t', '\n', '\v', '\f', '\r', ' '. *)
Definition is_space (c : ascii) : bool :=
  let n := nat_of_ascii c in
  (Nat.leb 9 n && Nat.leb n 13) || Nat.eqb n 32.

Fixpoint trim_left (s : string) : string :=
  match s with
  | EmptyString => EmptyString
  | String c s' => if is_space c then trim_left s' else s
  end.

Fixpoint rev_string (s : string) (acc : string) : string :=
  match s with
  | EmptyString => acc
  | String c s' => rev_string s' (String c acc)
  end.

(** [strings.TrimSpace] *)
Definition TrimSpace (s : string) : string :=
  rev_string (trim_left (rev_string (trim_left s) EmptyString)) EmptyString.

(** [strings.Fields]: the maximal runs of non-space bytes. *)
Fixpoint fields_acc (s : string) (cur : string) : list string :=
  match s with
  | EmptyString => if String.eqb cur "" then [] else [rev_string cur ""]
  | String c s' =>
      if is_space c then
        (if String.eqb cur "" then [] else [rev_string cur ""]) ++ fields_acc s' ""
      else fields_acc s' (String c cur)
  end.

Definition Fields (s : string) : list string := fields_acc s "".

(** [strings.Join] *)
Fixpoint Join (l : list string) (sep : string) : string :=
  match l with
  | [] => ""
  | [x] => x
  | x :: l' => x ++ sep ++ Join l' sep
  end.

(** [strings.EqualFold], ASCII case folding. *)
Definition EqualFold (a b : string) : bool := String.eqb (ToLower a) (ToLower b).

(** Decimal rendering of a non-negative integer, as [fmt]'s [%d]. *)
Fixpoint digits_acc (fuel : nat) (n : Z) (acc : string) : string :=
  match fuel with
  | O => acc
  | S f =>
      let d := ascii_of_nat (48 + Z.to_nat (n mod 10)) in
      if (n <? 10)%Z then String d acc else digits_acc f (n / 10)%Z (String d acc)
  end.

Definition Itoa (n : Z) : string :=
  if (n <? 0)%Z then "-" ++ digits_acc 64 (- n) "" else digits_acc 64 n "".

End GoStrings.
Import GoStrings.

(* ------------------------------------------------------------------ *)
(** ** Data model (internal/model) *)

(** [model.Experience]; only the title is read by the feed engine. *)
Record Experience := mkExperience { exp_Title : string }.

(** [model.User], the fields read by the feed engine. *)
Record User := mkUser {
  u_Location : string;
  u_WorkStyle : string;
  u_SalaryMin : Z;
  u_Skills : list string;
  u_TargetRoles : list string;
  u_Experience : list Experience
}.

(** [model.FeedJob]; [fj_ID] is the row id ([uuid.UUID]) assigned by the
    store, [PostedAt]/[FetchedAt] timestamps are left out. *)
Record FeedJob := mkFeedJob {
  fj_ID : nat;
  fj_ExternalID : string;
  fj_Source : string;
  fj_Title : string;
  fj_Company : string;
  fj_Location : string;
  fj_SalaryMin : Z;
  fj_SalaryMax : Z;
  fj_SalaryText : string;
  fj_JobType : string;
  fj_Description : string;
  fj_RequiredSkills : list string;
  fj_ApplyURL : string;
  fj_CompanyLogo : string
}.

(* ------------------------------------------------------------------ *)
(** ** Match scorer: [calculateMatchScore] (feed.go) *)
Module Score.
Local Open Scope Z_scope.

Definition qlt (x y : Q) : bool := negb (Qle_bool y x).

Definition count_true {A} (p : A -> bool) (l : list A) : nat :=
  length (filter p l).

(** The loop over [user.TargetRoles] computing [bestRoleMatch]; the
    exact-title case is the loop's [break]. *)
Fixpoint role_loop (jobTitleLower jobTextLower : string) (roles : list string)
    (best : Q) : Q :=
  match roles with
  | [] => best
  | role :: rest =>
      let roleLower := ToLower (TrimSpace role) in
      if String.eqb roleLower "" then role_loop jobTitleLower jobTextLower rest best
      else if Contains jobTitleLower roleLower then 1%Q
      else
        let roleWords := Fields roleLower in
        let matchedWords := count_true (fun w => Contains jobTitleLower w) roleWords in
        let best1 :=
          if Nat.ltb 0 (length roleWords) then
            let ratio := (inject_Z (Z.of_nat matchedWords) / inject_Z (Z.of_nat (length roleWords)))%Q in
            if qlt best ratio then ratio else best
          else best in
        let best2 :=
          if qlt best1 (1 # 2)%Q && Contains jobTextLower roleLower then (1 # 2)%Q else best1 in
        role_loop jobTitleLower jobTextLower rest best2
  end.

Definition role_points (user : User) (jobTitleLower jobTextLower : string) : Z :=
  match u_TargetRoles user with
  | [] => 0
  | roles => Qfloor (role_loop jobTitleLower jobTextLower roles 0%Q * inject_Z 25)%Q
  end.

(** [userSkillSet[strings.ToLower(jobSkill)]] *)
Definition in_skill_set (userSkills : list string) (jobSkill : string) : bool :=
  existsb (fun s => String.eqb (ToLower s) (ToLower jobSkill)) userSkills.

Definition overlap_points (userSkills requiredSkills : list string) : Z :=
  match requiredSkills with
  | [] => 0
  | _ =>
      let matches := count_true (in_skill_set userSkills) requiredSkills in
      Qfloor (inject_Z (Z.of_nat matches) / inject_Z (Z.of_nat (length requiredSkills))
              * inject_Z 25)%Q
  end.

Definition mention_points (userSkills : list string) (jobTextLower : string) : Z :=
  let skillMentions := Z.of_nat (count_true (fun s => Contains jobTextLower (ToLower s)) userSkills) in
  if (0 <? skillMentions)%Z then Z.min (skillMentions * 3) 10 else 0.

Definition skill_points (user : User) (job : FeedJob) (jobTextLower : string) : Z :=
  match u_Skills user with
  | [] => 0
  | skills => overlap_points skills (fj_RequiredSkills job) + mention_points skills jobTextLower
  end.

Definition location_points (user : User) (job : FeedJob) : Z :=
  if negb (String.eqb (u_WorkStyle user) "") && negb (String.eqb (fj_Location job) "") then
    if EqualFold (u_WorkStyle user) "remote" && Contains (ToLower (fj_Location job)) "remote" then 5
    else if negb (String.eqb (u_Location user) "") &&
            Contains (ToLower (fj_Location job)) (ToLower (u_Location user)) then 5
    else 0
  else 0.

Definition salary_points (user : User) (job : FeedJob) : Z :=
  if (0 <? u_SalaryMin user)%Z && (0 <? fj_SalaryMax job)%Z then
    if (u_SalaryMin user <=? fj_SalaryMax job)%Z then 5 else 0
  else 0.

Definition calculateMatchScore (user : User) (job : FeedJob) : Z :=
  let jobTitleLower := ToLower (fj_Title job) in
  let jobTextLower := ToLower (fj_Title job ++ " " ++ fj_Description job) in
  let score := 30 + role_points user jobTitleLower jobTextLower
                  + skill_points user job jobTextLower
                  + location_points user job + salary_points user job in
  if (100 <? score)%Z then 100 else score.

(** The profile [u] with its skill list replaced by [sk], every other field
    kept. *)
Definition with_skills (u : User) (sk : list string) : User :=
  mkUser (u_Location u) (u_WorkStyle u) (u_SalaryMin u) sk (u_TargetRoles u) (u_Experience u).

End Score.

(* ------------------------------------------------------------------ *)
(** ** UTF-8 characters of a byte string *)
Module UTF8.

Definition is_cont (b : ascii) : bool :=
  let n := nat_of_ascii b in Nat.leb 128 n && Nat.ltb n 192.

(** Length announced by a leading byte; 1 for ASCII and for bytes that
    cannot start a sequence. *)
Definition lead_len (b : ascii) : nat :=
  let n := nat_of_ascii b in
  if Nat.ltb n 192 then 1
  else if Nat.ltb n 224 then 2
  else if Nat.ltb n 240 then 3
  else if Nat.ltb n 248 then 4
  else 1.

(** Take [k] continuation bytes from the front of [s]. *)
Fixpoint take_cont (k : nat) (s : string) : option (string * string) :=
  match k with
  | O => Some (EmptyString, s)
  | S k' =>
      match s with
      | EmptyString => None
      | String c s' =>
          if is_cont c then
            match take_cont k' s' with
            | Some (a, r) => Some (String c a, r)
            | None => None
            end
          else None
      end
  end.

(** Decode one character starting with byte [c]: a complete sequence, or
    the single byte [c] when the sequence is incomplete or malformed. *)
Definition next_char (c : ascii) (s : string) : string * string :=
  match take_cont (lead_len c - 1) s with
  | Some (a, r) => (String c a, r)
  | None => (String c EmptyString, s)
  end.

Fixpoint chars_fuel (fuel : nat) (s : string) : list string :=
  match fuel, s with
  | O, _ => []
  | _, EmptyString => []
  | S f, String c s' => let (ch, r) := next_char c s' in ch :: chars_fuel f r
  end.

(** The characters of [s], in order. *)
Definition chars (s : string) : list string := chars_fuel (String.length s) s.

Fixpoint concat_str (l : list string) : string :=
  match l with
  | [] => EmptyString
  | x :: l' => x ++ concat_str l'
  end.

(** A character is valid when it is an ASCII byte or a complete
    multi-byte sequence. *)
Definition valid_char (ch : string) : bool :=
  match ch with
  | String c EmptyString => Nat.ltb (nat_of_ascii c) 128
  | _ => true
  end.

(** Modelled from the spec: [truncateUTF8] (called by every converter, its
    body is not in the repository sources).  "truncate to a fixed character
    budget (UTF-8-safe -- never split a multi-byte character)": keep the
    first [maxChars] characters. *)
Definition truncateUTF8 (s : string) (maxChars : nat) : string :=
  let cs := chars s in
  if Nat.leb (length cs) maxChars then s else concat_str (firstn maxChars cs).

(** Modelled from the spec: the string sanitizer used by [sanitizeFeedJob]
    (its body is not in the repository sources).  "invalid byte sequences
    are replaced or stripped": invalid bytes are stripped. *)
Definition sanitizeString (s : string) : string :=
  concat_str (filter valid_char (chars s)).

End UTF8.
Import UTF8.

(* ------------------------------------------------------------------ *)
(** ** [stripHTML] (claude.go) *)
Module Html.

Fixpoint drop_str (i : nat) (s : string) : string :=
  match i, s with
  | O, _ => s
  | _, EmptyString => EmptyString
  | S i', String _ s' => drop_str i' s'
  end.

Definition byte_at (i : nat) (s : string) : ascii :=
  match drop_str i s with String c _ => c | EmptyString => Ascii.zero end.

(** [i < len(html)-k && lower[i:i+k] == pat], with [k = length pat]. *)
Definition at_pat (lower : string) (i : nat) (pat : string) : bool :=
  Nat.ltb (i + String.length pat) (String.length lower) && HasPrefix (drop_str i lower) pat.

Definition block_tags : list string :=
  ["<br"; "<p"; "<div"; "<h1"; "<h2"; "<h3"; "<h4"; "<li"; "<tr"].

(** The byte loop of [stripHTML]; [acc] is the builder, reversed. *)
Fixpoint strip_loop (fuel : nat) (html lower : string) (i : nat)
    (inTag inScript inStyle : bool) (acc : string) : string :=
  match fuel with
  | O => acc
  | S f =>
      if Nat.leb (String.length html) i then acc else
      let inScript1 := if at_pat lower i "<script" then true else inScript in
      if at_pat lower i "</script>" then
        strip_loop f html lower (i + 9) inTag false inStyle acc
      else
      let inStyle1 := if at_pat lower i "<style" then true else inStyle in
      if at_pat lower i "</style>" then
        strip_loop f html lower (i + 8) inTag inScript1 false acc
      else if inScript1 || inStyle1 then
        strip_loop f html lower (i + 1) inTag inScript1 inStyle1 acc
      else
      let c := byte_at i html in
      if Ascii.eqb c "<"%char then
        let acc1 :=
          if Nat.ltb (i + 3) (String.length html) &&
             existsb (HasPrefix (ToLower (drop_str i html))) block_tags
          then String (ascii_of_nat 10) acc else acc in
        strip_loop f html lower (i + 1) true inScript1 inStyle1 acc1
      else if Ascii.eqb c ">"%char then
        strip_loop f html lower (i + 1) false inScript1 inStyle1 acc
      else if negb inTag then
        strip_loop f html lower (i + 1) inTag inScript1 inStyle1 (String c acc)
      else strip_loop f html lower (i + 1) inTag inScript1 inStyle1 acc
  end.

Fixpoint replace_fuel (fuel : nat) (s old new : string) : string :=
  match fuel with
  | O => s
  | S f =>
      match s with
      | EmptyString => EmptyString
      | String c s' =>
          if HasPrefix s old then new ++ replace_fuel f (drop_str (String.length old) s) old new
          else String c (replace_fuel f s' old new)
      end
  end.

(** [strings.ReplaceAll] for a non-empty [old]. *)
Definition ReplaceAll (s old new : string) : string := replace_fuel (String.length s) s old new.

(** [stripHTML], with [strings.ToLower] taken byte by byte (the ASCII case
    mapping).  On ASCII text this is Go's [stripHTML]
    ([HtmlUnicodeFacts.stripHTML_ascii]).  On other text Go's
    [strings.ToLower] may change the byte length, and the slices
    [lower[i:i+k]], guarded by [len(html)] only, may then panic: that case
    is modelled by [HtmlUnicode.stripHTML_go]. *)
Definition stripHTML (html : string) : string :=
  let text := rev_string (strip_loop (String.length html) html (ToLower html) 0 false false false "") "" in
  let text := ReplaceAll text "&amp;" "&" in
  let text := ReplaceAll text "&lt;" "<" in
  let text := ReplaceAll text "&gt;" ">" in
  let text := ReplaceAll text "&quot;" (String (ascii_of_nat 34) "") in
  let text := ReplaceAll text "&#39;" "'" in
  let text := ReplaceAll text "&apos;" "'" in
  let text := ReplaceAll text "&nbsp;" " " in
  let text := ReplaceAll text "&#x27;" "'" in
  ReplaceAll text "&#x2F;" "/".

End Html.

(* ------------------------------------------------------------------ *)
(** ** Go's [strings.ToLower] on UTF-8 text (unicode, unicode/utf8) *)
Module GoToLower.
Local Open Scope Z_scope.

Definition RuneError : Z := 65533.

Definition byte (c : ascii) : Z := Z.of_nat (nat_of_ascii c).

Definition in_range (lo hi : Z) (c : ascii) : bool := (lo <=? byte c) && (byte c <=? hi).

(** The size and the accepted range of the second byte of a sequence with
    leading byte [b0] ([utf8]'s [first] and [acceptRanges] tables); size 0
    for a byte that cannot start a sequence. *)
Definition lead_info (b0 : Z) : nat * Z * Z :=
  if (194 <=? b0) && (b0 <=? 223) then (2%nat, 128, 191)
  else if b0 =? 224 then (3%nat, 160, 191)
  else if (225 <=? b0) && (b0 <=? 236) then (3%nat, 128, 191)
  else if b0 =? 237 then (3%nat, 128, 159)
  else if (238 <=? b0) && (b0 <=? 239) then (3%nat, 128, 191)
  else if b0 =? 240 then (4%nat, 144, 191)
  else if (241 <=? b0) && (b0 <=? 243) then (4%nat, 128, 191)
  else if b0 =? 244 then (4%nat, 128, 143)
  else (0%nat, 0, 0).

(** [utf8.DecodeRuneInString]: the first rune of [s] and its width;
    [(RuneError, 1)] for an invalid or incomplete sequence. *)
Definition DecodeRune (s : string) : Z * nat :=
  match s with
  | EmptyString => (RuneError, 0%nat)
  | String c0 s1 =>
      let b0 := byte c0 in
      if b0 <? 128 then (b0, 1%nat) else
      let '(sz, lo, hi) := lead_info b0 in
      if Nat.eqb sz 0 then (RuneError, 1%nat) else
      if Nat.ltb (String.length s) sz then (RuneError, 1%nat) else
      match s1 with
      | EmptyString => (RuneError, 1%nat)
      | String c1 s2 =>
          if negb (in_range lo hi c1) then (RuneError, 1%nat) else
          if Nat.leb sz 2 then (Z.lor (Z.shiftl (Z.land b0 31) 6) (Z.land (byte c1) 63), 2%nat) else
          match s2 with
          | EmptyString => (RuneError, 1%nat)
          | String c2 s3 =>
              if negb (in_range 128 191 c2) then (RuneError, 1%nat) else
              if Nat.leb sz 3 then
                (Z.lor (Z.lor (Z.shiftl (Z.land b0 15) 12) (Z.shiftl (Z.land (byte c1) 63) 6))
                       (Z.land (byte c2) 63), 3%nat) else
              match s3 with
              | EmptyString => (RuneError, 1%nat)
              | String c3 _ =>
                  if negb (in_range 128 191 c3) then (RuneError, 1%nat) else
                  (Z.lor (Z.lor (Z.lor (Z.shiftl (Z.land b0 7) 18) (Z.shiftl (Z.land (byte c1) 63) 12))
                                (Z.shiftl (Z.land (byte c2) 63) 6))
                         (Z.land (byte c3) 63), 4%nat)
              end
          end
      end
  end.

Definition mk_byte (n : Z) : ascii := ascii_of_nat (Z.to_nat n).

(** [utf8.EncodeRune] (as used by [strings.Builder.WriteRune]): a negative
    rune, a surrogate or a rune above [MaxRune] is written as [RuneError]. *)
Definition EncodeRune (r : Z) : string :=
  let r := if (r <? 0) || (1114111 <? r) || ((55296 <=? r) && (r <=? 57343)) then RuneError else r in
  if r <? 128 then String (mk_byte r) EmptyString
  else if r <? 2048 then
    String (mk_byte (Z.lor 192 (Z.shiftr r 6)))
      (String (mk_byte (Z.lor 128 (Z.land r 63))) EmptyString)
  else if r <? 65536 then
    String (mk_byte (Z.lor 224 (Z.shiftr r 12)))
      (String (mk_byte (Z.lor 128 (Z.land (Z.shiftr r 6) 63)))
        (String (mk_byte (Z.lor 128 (Z.land r 63))) EmptyString))
  else
    String (mk_byte (Z.lor 240 (Z.shiftr r 18)))
      (String (mk_byte (Z.lor 128 (Z.land (Z.shiftr r 12) 63)))
        (String (mk_byte (Z.lor 128 (Z.land (Z.shiftr r 6) 63)))
          (String (mk_byte (Z.lor 128 (Z.land r 63))) EmptyString))).

(** The runes of [for _, c := range s], an invalid byte giving [RuneError]. *)
Fixpoint runes_fuel (fuel : nat) (s : string) : list Z :=
  match fuel with
  | O => []
  | S f =>
      match s with
      | EmptyString => []
      | String _ _ => let '(r, w) := DecodeRune s in r :: runes_fuel f (Html.drop_str w s)
      end
  end.

Definition runes (s : string) : list Z := runes_fuel (String.length s) s.

(** [unicode.ToLower]: an ASCII rune directly; any other rune through the
    [CaseRanges] table of package [unicode].  The table is data of the Go
    distribution, not code of this repository, and is a parameter here:
    [case_lower r] is the simple lower-case mapping the table gives [r]. *)
Definition unicode_ToLower (case_lower : Z -> Z) (r : Z) : Z :=
  if r <=? 127 then (if (65 <=? r) && (r <=? 90) then r + 32 else r)
  else case_lower r.

Definition is_ascii_str (s : string) : bool :=
  forallb (fun c => Nat.ltb (nat_of_ascii c) 128) (list_ascii_of_string s).

(** [strings.ToLower]: an all-ASCII string byte by byte; any other string
    through [strings.Map(unicode.ToLower, s)], which writes the encoding of
    the lower-case of every rune (of [RuneError] for an invalid byte). *)
Definition ToLowerGo (case_lower : Z -> Z) (s : string) : string :=
  if is_ascii_str s then ToLower s
  else concat_str (map (fun r => EncodeRune (unicode_ToLower case_lower r)) (runes s)).

End GoToLower.

(* ------------------------------------------------------------------ *)
(** ** [stripHTML] (claude.go) with Go's [strings.ToLower] and its panics *)
Module HtmlUnicode.
Import Html GoToLower.

(** [i < len(html)-k && lower[i:i+k] == pat], with [k = len(pat)]; [None]
    for the panic of the slice expression when [i+k > len(lower)]. *)
Definition slice_is (html lower : string) (i : nat) (pat : string) : option bool :=
  let k := String.length pat in
  if Nat.ltb (i + k) (String.length html) then
    if Nat.leb (i + k) (String.length lower) then Some (String.eqb (substring i k lower) pat)
    else None
  else Some false.

(** The byte loop of [stripHTML]; [acc] is the builder, reversed; [None]
    for a panic. *)
Fixpoint strip_loop_go (case_lower : Z -> Z) (fuel : nat) (html lower : string) (i : nat)
    (inTag inScript inStyle : bool) (acc : string) : option string :=
  match fuel with
  | O => Some acc
  | S f =>
      if Nat.leb (String.length html) i then Some acc else
      match slice_is html lower i "<script" with
      | None => None
      | Some m1 =>
      let inScript1 := if m1 then true else inScript in
      match slice_is html lower i "</script>" with
      | None => None
      | Some true => strip_loop_go case_lower f html lower (i + 9) inTag false inStyle acc
      | Some false =>
      match slice_is html lower i "<style" with
      | None => None
      | Some m3 =>
      let inStyle1 := if m3 then true else inStyle in
      match slice_is html lower i "</style>" with
      | None => None
      | Some true => strip_loop_go case_lower f html lower (i + 8) inTag inScript1 false acc
      | Some false =>
      if inScript1 || inStyle1 then
        strip_loop_go case_lower f html lower (i + 1) inTag inScript1 inStyle1 acc
      else
      let c := byte_at i html in
      if Ascii.eqb c "<"%char then
        let acc1 :=
          if Nat.ltb (i + 3) (String.length html) &&
             existsb (HasPrefix (ToLowerGo case_lower (drop_str i html))) block_tags
          then String (ascii_of_nat 10) acc else acc in
        strip_loop_go case_lower f html lower (i + 1) true inScript1 inStyle1 acc1
      else if Ascii.eqb c ">"%char then
        strip_loop_go case_lower f html lower (i + 1) false inScript1 inStyle1 acc
      else if negb inTag then
        strip_loop_go case_lower f html lower (i + 1) inTag inScript1 inStyle1 (String c acc)
      else strip_loop_go case_lower f html lower (i + 1) inTag inScript1 inStyle1 acc
      end
      end
      end
      end
  end.

(** The entity decoding at the end of [stripHTML]. *)
Definition decode_entities (text : string) : string :=
  let text := ReplaceAll text "&amp;" "&" in
  let text := ReplaceAll text "&lt;" "<" in
  let text := ReplaceAll text "&gt;" ">" in
  let text := ReplaceAll text "&quot;" (String (ascii_of_nat 34) "") in
  let text := ReplaceAll text "&#39;" "'" in
  let text := ReplaceAll text "&apos;" "'" in
  let text := ReplaceAll text "&nbsp;" " " in
  let text := ReplaceAll text "&#x27;" "'" in
  ReplaceAll text "&#x2F;" "/".

(** [stripHTML]; [None] when it panics. *)
Definition stripHTML_go (case_lower : Z -> Z) (html : string) : option string :=
  match strip_loop_go case_lower (String.length html) html (ToLowerGo case_lower html)
          0 false false false "" with
  | None => None
  | Some acc => Some (decode_entities (rev_string acc ""))
  end.

End HtmlUnicode.

(* ------------------------------------------------------------------ *)
(** ** Normalizer: the per-provider converters *)
Module Normalize.
Local Open Scope Z_scope.

(** [int(f)] for a [float64] [f]: truncation toward zero. *)
Definition go_int (f : Q) : Z :=
  if Qle_bool 0 f then Qfloor f else - Qfloor (- f).

(** [JSearchJob] (the JSearch client); a JSON [null] is [None]. *)
Record JSearchJob := mkJSearchJob {
  JobID : string;
  JobTitle : string;
  EmployerName : string;
  EmployerLogo : string;
  JobCity : string;
  JobState : string;
  JobIsRemote : bool;
  JobDescription : string;
  JobEmploymentType : string;
  JobApplyLink : string;
  JobMinSalary : option Q;
  JobMaxSalary : option Q;
  JobSalaryPeriod : string;
  JobRequiredSkills : option (list string)
}.

(** [convertJSearchJob] (feed.go); [PostedAt] is not modelled. *)
Definition convertJSearchJob (js : JSearchJob) : FeedJob :=
  let location0 := if JobIsRemote js then "Remote" else "" in
  let location :=
    if String.eqb (JobCity js) "" then location0
    else
      let l1 := if String.eqb location0 "" then location0 else location0 ++ " / " in
      let l2 := l1 ++ JobCity js in
      if String.eqb (JobState js) "" then l2 else l2 ++ ", " ++ JobState js in
  let salaryMin := match JobMinSalary js with Some f => go_int f | None => 0 end in
  let salaryMax := match JobMaxSalary js with Some f => go_int f | None => 0 end in
  let salaryText :=
    if (0 <? salaryMin) || (0 <? salaryMax) then
      if String.eqb (JobSalaryPeriod js) "YEAR" then
        "$" ++ Itoa (Z.quot salaryMin 1000) ++ "k - $" ++ Itoa (Z.quot salaryMax 1000) ++ "k/yr"
      else if String.eqb (JobSalaryPeriod js) "HOUR" then
        "$" ++ Itoa salaryMin ++ " - $" ++ Itoa salaryMax ++ "/hr"
      else ""
    else "" in
  let up := ToUpper (JobEmploymentType js) in
  let jobType :=
    if String.eqb up "PARTTIME" then "part-time"
    else if String.eqb up "CONTRACTOR" then "contract"
    else if String.eqb up "INTERN" then "internship"
    else "full-time" in
  let desc := truncateUTF8 (JobDescription js) 2000 in
  let skills := match JobRequiredSkills js with Some l => l | None => [] end in
  mkFeedJob 0 (JobID js) "jsearch" (JobTitle js) (EmployerName js) location
    salaryMin salaryMax salaryText jobType desc skills (JobApplyLink js) (EmployerLogo js).

(** [RemotiveJob] (remotive.go). *)
Record RemotiveJob := mkRemotiveJob {
  rj_ID : Z;
  rj_Title : string;
  rj_CompanyName : string;
  rj_CompanyLogo : string;
  rj_Tags : option (list string);
  rj_JobType : string;
  rj_CandidateRequiredLocation : string;
  rj_Salary : string;
  rj_URL : string;
  rj_Description : string
}.

(** [convertRemotiveJob] (remotive.go); [PostedAt] is not modelled.  The
    description goes through [Html.stripHTML], so this describes the calls
    in which [stripHTML] returns (see [HtmlUnicode.stripHTML_go] for its
    panic). *)
Definition convertRemotiveJob (rj : RemotiveJob) : FeedJob :=
  let salaryText := rj_Salary rj in
  let jt := ToLower (rj_JobType rj) in
  let jobType :=
    if String.eqb jt "part_time" then "part-time"
    else if String.eqb jt "contract" then "contract"
    else if String.eqb jt "freelance" then "contract"
    else if String.eqb jt "internship" then "internship"
    else "full-time" in
  let loc := TrimSpace (rj_CandidateRequiredLocation rj) in
  let location :=
    if negb (String.eqb loc "") && negb (EqualFold loc "Anywhere") && negb (EqualFold loc "Worldwide")
    then "Remote / " ++ loc else "Remote" in
  let desc := truncateUTF8 (Html.stripHTML (rj_Description rj)) 2000 in
  let skills := match rj_Tags rj with Some l => l | None => [] end in
  mkFeedJob 0 ("remotive-" ++ Itoa (rj_ID rj)) "remotive" (rj_Title rj) (rj_CompanyName rj)
    location 0 0 salaryText jobType desc skills (rj_URL rj) (rj_CompanyLogo rj).

(** [AdzunaJob] (adzuna.go), with the nested company and location
    objects flattened. *)
Record AdzunaJob := mkAdzunaJob {
  aj_ID : string;
  aj_Title : string;
  aj_Description : string;
  aj_CompanyDisplayName : string;
  aj_LocationDisplayName : string;
  aj_LocationArea : list string;
  aj_SalaryMin : Q;
  aj_SalaryMax : Q;
  aj_RedirectURL : string;
  aj_ContractType : string;
  aj_ContractTime : string
}.

(** [convertAdzunaJob] (adzuna.go); [PostedAt] is not modelled. *)
Definition convertAdzunaJob (aj : AdzunaJob) : FeedJob :=
  let salaryMin := go_int (aj_SalaryMin aj) in
  let salaryMax := go_int (aj_SalaryMax aj) in
  let salaryText :=
    if (0 <? salaryMin) || (0 <? salaryMax) then
      "$" ++ Itoa (Z.quot salaryMin 1000) ++ "k - $" ++ Itoa (Z.quot salaryMax 1000) ++ "k/yr"
    else "" in
  let jobType0 := if String.eqb (ToLower (aj_ContractTime aj)) "part_time" then "part-time" else "full-time" in
  let jobType := if String.eqb (ToLower (aj_ContractType aj)) "contract" then "contract" else jobType0 in
  let location :=
    if String.eqb (aj_LocationDisplayName aj) "" && negb (Nat.eqb (List.length (aj_LocationArea aj)) 0)
    then Join (aj_LocationArea aj) ", " else aj_LocationDisplayName aj in
  let desc := truncateUTF8 (aj_Description aj) 2000 in
  mkFeedJob 0 ("adzuna-" ++ aj_ID aj) "adzuna" (aj_Title aj) (aj_CompanyDisplayName aj)
    location salaryMin salaryMax salaryText jobType desc [] (aj_RedirectURL aj) "".

(** Modelled from the spec: [sanitizeFeedJob] (called by [upsertAndLink];
    its body is not in the repository sources).  "All ... provider-supplied
    text must additionally be sanitized to valid encoding before
    persistence": every string field goes through [sanitizeString]. *)
Definition sanitizeFeedJob (j : FeedJob) : FeedJob :=
  mkFeedJob (fj_ID j) (sanitizeString (fj_ExternalID j)) (sanitizeString (fj_Source j))
    (sanitizeString (fj_Title j)) (sanitizeString (fj_Company j))
    (sanitizeString (fj_Location j)) (fj_SalaryMin j) (fj_SalaryMax j)
    (sanitizeString (fj_SalaryText j)) (sanitizeString (fj_JobType j))
    (sanitizeString (fj_Description j)) (map sanitizeString (fj_RequiredSkills j))
    (sanitizeString (fj_ApplyURL j)) (sanitizeString (fj_CompanyLogo j)).

(** A provider payload, tagged by its provider. *)
Inductive RawListing :=
| RJSearch (js : JSearchJob)
| RRemotive (rj : RemotiveJob)
| RAdzuna (aj : AdzunaJob).

(** The converter the service applies to each payload. *)
Definition normalize (r : RawListing) : FeedJob :=
  match r with
  | RJSearch js => convertJSearchJob js
  | RRemotive rj => convertRemotiveJob rj
  | RAdzuna aj => convertAdzunaJob aj
  end.

Definition provider_name (r : RawListing) : string :=
  match r with
  | RJSearch _ => "jsearch"
  | RRemotive _ => "remotive"
  | RAdzuna _ => "adzuna"
  end.

(** The free text each converter truncates into the description. *)
Definition description_text (r : RawListing) : string :=
  match r with
  | RJSearch js => JobDescription js
  | RRemotive rj => Html.stripHTML (rj_Description rj)
  | RAdzuna aj => aj_Description aj
  end.

End Normalize.

(* ------------------------------------------------------------------ *)
(** ** Query planners *)
Module Planner.
Local Open Scope Z_scope.

Definition mem (k : string) (seen : list string) : bool := existsb (String.eqb k) seen.

(** [JSearchQuery] *)
Record JSearchQuery := mkJSearchQuery {
  jq_Query : string;
  jq_Location : string;
  jq_RemoteOnly : bool;
  jq_NumPages : Z
}.

(** The [add] closure of [BuildQueriesFromProfile]; the pair holds the
    query slice and the [seen] set. *)
Definition js_add (location : string) (remoteOnly : bool)
    (st : list JSearchQuery * list string) (query : string) (pages : Z)
    : list JSearchQuery * list string :=
  let (queries, seen) := st in
  let q := TrimSpace query in
  let key := ToLower q in
  if String.eqb q "" || mem key seen then (queries, seen)
  else (app queries [mkJSearchQuery q location remoteOnly pages], key :: seen).

Fixpoint js_roles (location : string) (remoteOnly : bool) (roles : list string)
    (st : list JSearchQuery * list string) : list JSearchQuery * list string :=
  match roles with
  | [] => st
  | role :: rest =>
      let role := TrimSpace role in
      let st := if negb (String.eqb role "") then js_add location remoteOnly st role 3 else st in
      js_roles location remoteOnly rest st
  end.

(** [for i := 0; i < len(user.Experience) && i < 2 && len(queries) < 6; i++]
    run over the first two entries. *)
Fixpoint js_exp (location : string) (remoteOnly : bool) (exps : list Experience)
    (st : list JSearchQuery * list string) : list JSearchQuery * list string :=
  match exps with
  | [] => st
  | e :: rest =>
      if Nat.ltb (List.length (fst st)) 6 then
        let title := TrimSpace (exp_Title e) in
        let st := if negb (String.eqb title "") then js_add location remoteOnly st title 2 else st in
        js_exp location remoteOnly rest st
      else st
  end.

(** [BuildQueriesFromProfile] (the JSearch client, called by
    [refreshFromJSearch]). *)
Definition BuildQueriesFromProfile (user : User) : list JSearchQuery :=
  let remoteOnly := EqualFold (u_WorkStyle user) "remote" in
  let location := u_Location user in
  let skills := u_Skills user in
  let st := js_roles location remoteOnly (u_TargetRoles user) ([], []) in
  let st :=
    if Nat.ltb 0 (List.length skills) && Nat.ltb (List.length (fst st)) 4 then
      js_add location remoteOnly st (Join (firstn 3 skills) " " ++ " developer") 2
    else st in
  let st :=
    if Nat.ltb 3 (List.length skills) && Nat.ltb (List.length (fst st)) 5 then
      js_add location remoteOnly st (Join (firstn 3 (skipn 3 skills)) " " ++ " engineer") 2
    else st in
  let st := js_exp location remoteOnly (firstn 2 (u_Experience user)) st in
  let queries := fst st in
  match queries with
  | [] => [mkJSearchQuery "software engineer" location remoteOnly 2]
  | _ => firstn 8 queries
  end.

(** [AdzunaQuery] (adzuna.go). *)
Record AdzunaQuery := mkAdzunaQuery {
  aq_Keywords : string;
  aq_Location : string;
  aq_Country : string;
  aq_ResultsPerPage : Z;
  aq_MaxDaysOld : Z;
  aq_FullTime : bool;
  aq_SalaryMin : Z
}.

(** The [add] closure of [BuildAdzunaQueries]. *)
Definition az_add (user : User) (st : list AdzunaQuery * list string) (keywords : string)
    : list AdzunaQuery * list string :=
  let (queries, seen) := st in
  let isRemote := EqualFold (u_WorkStyle user) "remote" in
  let location := u_Location user in
  let k := ToLower (TrimSpace keywords) in
  if String.eqb k "" || mem k seen then (queries, seen)
  else
    let kw := if isRemote then keywords ++ " remote" else keywords in
    let loc := if isRemote then "" else location in
    (app queries [mkAdzunaQuery kw loc "us" 50 30 true (u_SalaryMin user)], k :: seen).

Fixpoint az_roles (user : User) (roles : list string) (st : list AdzunaQuery * list string)
    : list AdzunaQuery * list string :=
  match roles with
  | [] => st
  | role :: rest =>
      let role := TrimSpace role in
      az_roles user rest (if negb (String.eqb role "") then az_add user st role else st)
  end.

(** [BuildAdzunaQueries] (adzuna.go). *)
Definition BuildAdzunaQueries (user : User) : list AdzunaQuery :=
  let skills := u_Skills user in
  let st := az_roles user (u_TargetRoles user) ([], []) in
  let st :=
    if Nat.ltb 0 (List.length skills) && Nat.ltb (List.length (fst st)) 4 then
      az_add user st (Join (firstn 3 skills) " ")
    else st in
  let st :=
    match u_Experience user with
    | e :: _ =>
        if Nat.ltb (List.length (fst st)) 5 then
          let title := TrimSpace (exp_Title e) in
          if negb (String.eqb title "") then az_add user st title else st
        else st
    | [] => st
    end in
  let st :=
    match fst st with
    | [] => az_add user (az_add user st "software engineer") "developer"
    | _ => st
    end in
  firstn 6 (fst st).

(** [RemotiveQuery] (remotive.go). *)
Record RemotiveQuery := mkRemotiveQuery {
  rq_Search : string;
  rq_Category : string;
  rq_Limit : Z
}.

(** [remotiveCategoryMap] (remotive.go). *)
Definition remotiveCategoryMap : list (string * string) :=
  [("react", "software-dev"); ("javascript", "software-dev"); ("python", "software-dev");
   ("go", "software-dev"); ("golang", "software-dev"); ("java", "software-dev");
   ("typescript", "software-dev"); ("rust", "software-dev"); ("node", "software-dev");
   ("node.js", "software-dev"); ("ruby", "software-dev"); ("swift", "software-dev");
   ("kotlin", "software-dev"); ("c++", "software-dev"); ("c#", "software-dev");
   (".net", "software-dev"); ("php", "software-dev"); ("vue", "software-dev");
   ("angular", "software-dev"); ("figma", "design"); ("ui/ux", "design");
   ("design", "design"); ("devops", "devops-sysadmin"); ("kubernetes", "devops-sysadmin");
   ("docker", "devops-sysadmin"); ("terraform", "devops-sysadmin"); ("aws", "devops-sysadmin");
   ("azure", "devops-sysadmin"); ("gcp", "devops-sysadmin"); ("data science", "data");
   ("machine learning", "data"); ("sql", "data"); ("analytics", "data");
   ("product", "product"); ("qa", "qa"); ("testing", "qa")].

Fixpoint lookup_cat (k : string) (m : list (string * string)) : option string :=
  match m with
  | [] => None
  | (k', v) :: m' => if String.eqb k k' then Some v else lookup_cat k m'
  end.

Fixpoint rm_roles (roles : list string) (st : list RemotiveQuery * list string)
    : list RemotiveQuery * list string :=
  match roles with
  | [] => st
  | role :: rest =>
      let (queries, seen) := st in
      let role := TrimSpace role in
      let key := ToLower role in
      if negb (String.eqb role "") && negb (mem key seen) then
        rm_roles rest (app queries [mkRemotiveQuery role "" 50], key :: seen)
      else rm_roles rest st
  end.

(** The category loop, with its [break] once five queries exist. *)
Fixpoint rm_categories (skills : list string) (queries : list RemotiveQuery)
    (categoryUsed : list string) : list RemotiveQuery :=
  match skills with
  | [] => queries
  | skill :: rest =>
      if Nat.leb 5 (List.length queries) then queries
      else
        match lookup_cat (ToLower skill) remotiveCategoryMap with
        | Some cat =>
            if negb (mem cat categoryUsed) then
              rm_categories rest (app queries [mkRemotiveQuery "" cat 50]) (cat :: categoryUsed)
            else rm_categories rest queries categoryUsed
        | None => rm_categories rest queries categoryUsed
        end
  end.

(** [BuildRemotiveQueries] (remotive.go). *)
Definition BuildRemotiveQueries (user : User) : list RemotiveQuery :=
  if EqualFold (u_WorkStyle user) "onsite" then [] else
  let skills := u_Skills user in
  let '(queries, seen) := rm_roles (u_TargetRoles user) ([], []) in
  let '(queries, seen) :=
    if Nat.ltb 0 (List.length skills) && Nat.ltb (List.length queries) 3 then
      let q := Join (firstn 3 skills) " " in
      let key := ToLower q in
      if negb (mem key seen) then (app queries [mkRemotiveQuery q "" 50], key :: seen)
      else (queries, seen)
    else (queries, seen) in
  let queries := rm_categories skills queries [] in
  let queries :=
    match u_Experience user with
    | e :: _ =>
        if Nat.ltb (List.length queries) 6 then
          let title := TrimSpace (exp_Title e) in
          let key := ToLower title in
          if negb (String.eqb title "") && negb (mem key seen)
          then app queries [mkRemotiveQuery title "" 30] else queries
        else queries
    | [] => queries
    end in
  firstn 6 queries.

End Planner.

(* ------------------------------------------------------------------ *)
(** ** The JSearch client's [Search] method *)
Module JSearchClient.
Import Normalize Planner.
Local Open Scope Z_scope.

(** A [JSearchClient]: its API key and the outcome of [fetchPage] for the
    request built from a query string, the [remote_jobs_only] flag and a
    page number ([None] when the request errors). *)
Record Client := mkClient {
  apiKey : string;
  fetchPage : string -> bool -> Z -> option (list JSearchJob)
}.

(** The query string of [Search]. *)
Definition search_query (q : JSearchQuery) : string :=
  let query := jq_Query q in
  let query :=
    if negb (String.eqb (jq_Location q) "") && negb (jq_RemoteOnly q)
    then query ++ " in " ++ jq_Location q else query in
  if jq_RemoteOnly q then query ++ " remote" else query.

(** [numPages], clamped to 1 when out of [1, 5]. *)
Definition num_pages (q : JSearchQuery) : Z :=
  let n := jq_NumPages q in
  if (n <=? 0) || (5 <? n) then 1 else n.

(** The paging loop from [page] on, with [fuel] iterations left: the
    collected listings and the pages requested, in order.  A failed page
    ends the loop ([break]); so does a page of fewer than 10 results. *)
Fixpoint page_loop (fetch : Z -> option (list JSearchJob)) (fuel : nat) (page : Z)
    : list JSearchJob * list Z :=
  match fuel with
  | O => ([], [])
  | S f =>
      match fetch page with
      | None => ([], [page])
      | Some results =>
          if Nat.ltb (List.length results) 10 then (results, [page])
          else let '(rest, pages) := page_loop fetch f (page + 1) in
               (app results rest, page :: pages)
      end
  end.

(** [Search]: the listings ([None] for the returned error) and the pages
    requested. *)
Definition Search (c : Client) (q : JSearchQuery) : option (list JSearchJob) * list Z :=
  if String.eqb (apiKey c) "" then (None, []) else
  let query := search_query q in
  let '(results, pages) :=
    page_loop (fetchPage c query (jq_RemoteOnly q)) (Z.to_nat (num_pages q)) 1 in
  (Some results, pages).

End JSearchClient.

(* ------------------------------------------------------------------ *)
(** ** Feed store ([repository.FeedRepo]) *)
Module Store.
Local Open Scope Z_scope.

(** A row of [user_feed]. *)
Record Link := mkLink {
  uf_UserID : nat;
  uf_FeedJobID : nat;
  uf_MatchScore : Z;
  uf_Dismissed : bool;
  uf_Saved : bool
}.

(** A row of [feed_refresh_log]. *)
Record LogEntry := mkLogEntry {
  rl_UserID : nat;
  rl_QueryUsed : string;
  rl_JobsFetched : Z;
  rl_JobsNew : Z;
  rl_RefreshedAt : Z
}.

(** The database: the two tables of the feed, the refresh log, the next
    fresh row id and the clock ([now()], in seconds). *)
Record DB := mkDB {
  feed_jobs : list FeedJob;
  user_feed : list Link;
  refresh_log : list LogEntry;
  next_id : nat;
  clock : Z
}.

(** Which statements the database rejects (connection loss, constraint
    violation, ...); a rejected statement changes nothing. *)
Record Faults := mkFaults {
  upsert_fails : FeedJob -> bool;
  link_fails : nat -> nat -> bool;
  last_refresh_fails : nat -> bool;
  log_fails : bool;
  rescore_load_fails : nat -> bool;
  batch_fails : nat -> bool
}.

Definition NoFaults : Faults :=
  mkFaults (fun _ => false) (fun _ _ => false) (fun _ => false) false
           (fun _ => false) (fun _ => false).

Definition same_key (j r : FeedJob) : bool :=
  String.eqb (fj_ExternalID r) (fj_ExternalID j) && String.eqb (fj_Source r) (fj_Source j).

Definition with_id (j : FeedJob) (id : nat) : FeedJob :=
  mkFeedJob id (fj_ExternalID j) (fj_Source j) (fj_Title j) (fj_Company j) (fj_Location j)
    (fj_SalaryMin j) (fj_SalaryMax j) (fj_SalaryText j) (fj_JobType j) (fj_Description j)
    (fj_RequiredSkills j) (fj_ApplyURL j) (fj_CompanyLogo j).

Definition with_title (r : FeedJob) (title : string) : FeedJob :=
  mkFeedJob (fj_ID r) (fj_ExternalID r) (fj_Source r) title (fj_Company r) (fj_Location r)
    (fj_SalaryMin r) (fj_SalaryMax r) (fj_SalaryText r) (fj_JobType r) (fj_Description r)
    (fj_RequiredSkills r) (fj_ApplyURL r) (fj_CompanyLogo r).

Definition set_feed_jobs (db : DB) (rows : list FeedJob) (nid : nat) : DB :=
  mkDB rows (user_feed db) (refresh_log db) nid (clock db).

Definition set_user_feed (db : DB) (links : list Link) : DB :=
  mkDB (feed_jobs db) links (refresh_log db) (next_id db) (clock db).

(** [UpsertFeedJob]: [INSERT ... ON CONFLICT (external_id, source) DO UPDATE
    SET title = EXCLUDED.title, fetched_at = now() RETURNING ...].  A row
    ([FeedJob]) carries no timestamp columns, so of the update only the new
    title is modelled: its [fetched_at = now()], like the [posted_at] and
    [expires_at] of the insert, is outside the model. *)
Definition UpsertFeedJob (fl : Faults) (db : DB) (job : FeedJob) : option FeedJob * DB :=
  if upsert_fails fl job then (None, db) else
  match find (same_key job) (feed_jobs db) with
  | Some r =>
      let r' := with_title r (fj_Title job) in
      (Some r',
       set_feed_jobs db (map (fun x => if same_key job x then r' else x) (feed_jobs db)) (next_id db))
  | None =>
      let r := with_id job (next_id db) in
      (Some r, set_feed_jobs db (app (feed_jobs db) [r]) (S (next_id db)))
  end.

Definition link_key (uid fid : nat) (l : Link) : bool :=
  Nat.eqb (uf_UserID l) uid && Nat.eqb (uf_FeedJobID l) fid.

Definition with_score (l : Link) (score : Z) : Link :=
  mkLink (uf_UserID l) (uf_FeedJobID l) score (uf_Dismissed l) (uf_Saved l).

(** [LinkJobToUser]: [INSERT INTO user_feed ... ON CONFLICT (user_id,
    feed_job_id) DO UPDATE SET match_score = EXCLUDED.match_score]; the
    columns [dismissed] and [saved] default to false. *)
Definition LinkJobToUser (fl : Faults) (db : DB) (uid fid : nat) (score : Z) : bool * DB :=
  if link_fails fl uid fid then (false, db) else
  if existsb (link_key uid fid) (user_feed db) then
    (true, set_user_feed db
             (map (fun l => if link_key uid fid l then with_score l score else l) (user_feed db)))
  else (true, set_user_feed db (app (user_feed db) [mkLink uid fid score false false])).

(** [DismissFeedJob]: [UPDATE user_feed SET dismissed = true WHERE user_id
    = $1 AND feed_job_id = $2]. *)
Definition DismissFeedJob (db : DB) (uid fid : nat) : DB :=
  set_user_feed db
    (map (fun l => if link_key uid fid l
                   then mkLink (uf_UserID l) (uf_FeedJobID l) (uf_MatchScore l) true (uf_Saved l)
                   else l) (user_feed db)).

(** [GetLastRefresh]: the latest [refreshed_at] of the user, [None] when
    the user has no entry; [inr tt] when the query fails. *)
Definition GetLastRefresh (fl : Faults) (db : DB) (uid : nat) : option Z + unit :=
  if last_refresh_fails fl uid then inr tt else
  inl (fold_left (fun acc e =>
          if Nat.eqb (rl_UserID e) uid then
            match acc with
            | Some t => Some (Z.max t (rl_RefreshedAt e))
            | None => Some (rl_RefreshedAt e)
            end
          else acc) (refresh_log db) None).

(** [LogRefresh] *)
Definition LogRefresh (fl : Faults) (db : DB) (uid : nat) (query : string) (fetched new : Z) : DB :=
  if log_fails fl then db else
  mkDB (feed_jobs db) (user_feed db)
       (app (refresh_log db) [mkLogEntry uid query fetched new (clock db)])
       (next_id db) (clock db).

Definition find_row (db : DB) (fid : nat) : option FeedJob :=
  find (fun r => Nat.eqb (fj_ID r) fid) (feed_jobs db).

(** Modelled from the spec: [GetUserFeedForRescore] (called by
    [RescoreUserFeed]; its body is not in the repository sources).
    "loads all of the user's existing non-dismissed UserFeedLinks with
    their joined FeedJob data". *)
Definition GetUserFeedForRescore (fl : Faults) (db : DB) (uid : nat) : option (list FeedJob) :=
  if rescore_load_fails fl uid then None else
  Some (flat_map (fun l =>
          if Nat.eqb (uf_UserID l) uid && negb (uf_Dismissed l) then
            match find_row db (uf_FeedJobID l) with Some r => [r] | None => [] end
          else []) (user_feed db)).

Fixpoint lookup_score (scores : list (nat * Z)) (fid : nat) : option Z :=
  match scores with
  | [] => None
  | (k, v) :: rest => match lookup_score rest fid with
                      | Some w => Some w
                      | None => if Nat.eqb k fid then Some v else None
                      end
  end.

(** Modelled from the spec: [BatchUpdateMatchScores] (called by
    [RescoreUserFeed]; its body is not in the repository sources).
    "batchUpdateScores(userId, map<feedJobId, score>)": the score of each
    of the user's links whose feed job is a key of the map becomes the
    mapped score.  The map is an association list in insertion order; a
    later binding of a key overrides an earlier one, as a Go map
    assignment does. *)
Definition BatchUpdateMatchScores (fl : Faults) (db : DB) (uid : nat) (scores : list (nat * Z))
    : bool * DB :=
  if batch_fails fl uid then (false, db) else
  (true, set_user_feed db
           (map (fun l =>
                   if Nat.eqb (uf_UserID l) uid then
                     match lookup_score scores (uf_FeedJobID l) with
                     | Some sc => with_score l sc
                     | None => l
                     end
                   else l) (user_feed db))).

End Store.

(* ------------------------------------------------------------------ *)
(** ** Refresh orchestrator and rescore coordinator (feed.go) *)
Module Feed.
Import Store Normalize Planner Score.
Local Open Scope Z_scope.

(** Observable actions: calls to the providers' [Search] methods and the
    [LogRefresh] write of the refresh-log entry. *)
Inductive Event :=
| CallJSearch (q : JSearchQuery)
| CallRemotive (q : RemotiveQuery)
| CallAdzuna (q : AdzunaQuery)
| WriteRefreshLog (fetched new : Z).

(** The computations of the service: they thread the database and emit
    provider calls. *)
Definition M (A : Type) : Type := DB -> A * DB * list Event.

Definition ret {A} (a : A) : M A := fun db => (a, db, []).

Definition bind {A B} (m : M A) (k : A -> M B) : M B :=
  fun db => let '(a, db1, e1) := m db in
            let '(b, db2, e2) := k a db1 in (b, db2, app e1 e2).

Notation "x <- m ;; k" := (bind m (fun x => k))
  (at level 61, m at next level, right associativity).

Definition emit (e : Event) : M unit := fun db => (tt, db, [e]).

Definition lift {A} (f : DB -> A * DB) : M A :=
  fun db => let '(a, db1) := f db in (a, db1, []).

(** A provider's [Search] method, as seen by the service: the listings, or
    [None] when the call errors (network, timeout, non-2xx, bad JSON). *)
Definition Search (Q R : Type) := Q -> option (list R).

(** The service's collaborators: the user store, the feed store's faults,
    and the three clients ([None] for a nil client; for Adzuna also when
    [Enabled()] is false). *)
Record Env := mkEnv {
  FindByID : nat -> option User;
  faults : Faults;
  jsearch : option (Search JSearchQuery JSearchJob);
  remotive : option (Search RemotiveQuery RemotiveJob);
  adzuna : option (Search AdzunaQuery AdzunaJob)
}.

(** [upsertAndLink] *)
Definition upsertAndLink (fl : Faults) (userID : nat) (user : User) (feedJob : FeedJob) : M bool :=
  let feedJob := sanitizeFeedJob feedJob in
  stored <- lift (fun db => UpsertFeedJob fl db feedJob) ;;
  match stored with
  | None => ret false
  | Some stored =>
      let score := calculateMatchScore user stored in
      lift (fun db => LinkJobToUser fl db userID (fj_ID stored) score)
  end.

(** [for _, job := range results { if s.upsertAndLink(...) { queryNew++ } }] *)
Fixpoint link_results {R} (convert : R -> FeedJob) (fl : Faults) (userID : nat) (user : User)
    (results : list R) : M Z :=
  match results with
  | [] => ret 0
  | r :: rest =>
      ok <- upsertAndLink fl userID user (convert r) ;;
      n <- link_results convert fl userID user rest ;;
      ret ((if ok then 1 else 0) + n)
  end.

(** The query loop shared by the three [refreshFrom*] helpers: a failed
    query is logged and skipped ([continue]). *)
Fixpoint query_loop {Q R} (call : Q -> Event) (search : Search Q R) (convert : R -> FeedJob)
    (fl : Faults) (userID : nat) (user : User) (queries : list Q) : M (Z * Z) :=
  match queries with
  | [] => ret (0, 0)
  | q :: rest =>
      u <- emit (call q) ;;
      match search q with
      | None => query_loop call search convert fl userID user rest
      | Some results =>
          queryNew <- link_results convert fl userID user results ;;
          fn <- query_loop call search convert fl userID user rest ;;
          let '(f, n) := fn in
          ret (Z.of_nat (List.length results) + f, queryNew + n)
      end
  end.

(** [refreshFromJSearch] *)
Definition refreshFromJSearch (search : Search JSearchQuery JSearchJob) (fl : Faults)
    (user : User) (userID : nat) : M (Z * Z) :=
  query_loop CallJSearch search convertJSearchJob fl userID user (BuildQueriesFromProfile user).

(** [refreshFromRemotive] *)
Definition refreshFromRemotive (search : Search RemotiveQuery RemotiveJob) (fl : Faults)
    (user : User) (userID : nat) : M (Z * Z) :=
  match BuildRemotiveQueries user with
  | [] => ret (0, 0)
  | queries => query_loop CallRemotive search convertRemotiveJob fl userID user queries
  end.

(** [refreshFromAdzuna] *)
Definition refreshFromAdzuna (search : Search AdzunaQuery AdzunaJob) (fl : Faults)
    (user : User) (userID : nat) : M (Z * Z) :=
  query_loop CallAdzuna search convertAdzunaJob fl userID user (BuildAdzunaQueries user).

Inductive Result :=
| ErrUserNotFound
| Counts (fetched new : Z).

(** The throttle check of [RefreshUserFeed]; a failed lookup is logged and
    the refresh continues. *)
Definition recently_refreshed (fl : Faults) (userID : nat) : M bool :=
  fun db =>
    match GetLastRefresh fl db userID with
    | inl (Some t) => (clock db - t <? 2 * 3600, db, [])
    | _ => (false, db, [])
    end.

(** The three [if s.<client> != nil { go func() { ... }() }] blocks of
    [RefreshUserFeed]: a nil client contributes nothing. *)
Definition runJSearch (env : Env) (user : User) (userID : nat) : M (Z * Z) :=
  match jsearch env with
  | Some c => refreshFromJSearch c (faults env) user userID
  | None => ret (0, 0)
  end.

Definition runRemotive (env : Env) (user : User) (userID : nat) : M (Z * Z) :=
  match remotive env with
  | Some c => refreshFromRemotive c (faults env) user userID
  | None => ret (0, 0)
  end.

Definition runAdzuna (env : Env) (user : User) (userID : nat) : M (Z * Z) :=
  match adzuna env with
  | Some c => refreshFromAdzuna c (faults env) user userID
  | None => ret (0, 0)
  end.

(** [RefreshUserFeed].  The three provider units run as goroutines whose
    counts are summed under a mutex and joined by a [WaitGroup]; they are
    modelled in the order of the source, which does not change the sums.
    The error of [LogRefresh] is only logged.  No goroutine recovers from
    a panic, which ends the process (such as the one of [stripHTML] on some
    non-ASCII Remotive descriptions, [HtmlUnicode]); the model describes
    the runs without one. *)
Definition RefreshUserFeed (env : Env) (userID : nat) (force : bool) : M Result :=
  match FindByID env userID with
  | None => ret ErrUserNotFound
  | Some user =>
      let fl := faults env in
      throttled <- (if force then ret false else recently_refreshed fl userID) ;;
      if throttled then ret (Counts 0 0) else
      fn1 <- runJSearch env user userID ;;
      let '(f1, n1) := fn1 in
      fn2 <- runRemotive env user userID ;;
      let '(f2, n2) := fn2 in
      fn3 <- runAdzuna env user userID ;;
      let '(f3, n3) := fn3 in
      let totalFetched := f1 + f2 + f3 in
      let totalNew := n1 + n2 + n3 in
      u <- emit (WriteRefreshLog totalFetched totalNew) ;;
      u <- lift (fun db => (tt, LogRefresh fl db userID "multi-source" totalFetched totalNew)) ;;
      ret (Counts totalFetched totalNew)
  end.

Definition drop_jsearch (env : Env) : Env :=
  mkEnv (FindByID env) (faults env) None (remotive env) (adzuna env).
Definition drop_remotive (env : Env) : Env :=
  mkEnv (FindByID env) (faults env) (jsearch env) None (adzuna env).
Definition drop_adzuna (env : Env) : Env :=
  mkEnv (FindByID env) (faults env) (jsearch env) (remotive env) None.

(** Observers of a computation run on a database. *)
Definition res {A} (m : M A) (db : DB) : A := fst (fst (m db)).
Definition st {A} (m : M A) (db : DB) : DB := snd (fst (m db)).
Definition evs {A} (m : M A) (db : DB) : list Event := snd (m db).

Inductive RescoreResult :=
| RescoreErr
| Rescored (n : Z).

(** [RescoreUserFeed]; [len(scores)] is the number of distinct keys. *)
Definition RescoreUserFeed (env : Env) (userID : nat) : M RescoreResult :=
  match FindByID env userID with
  | None => ret RescoreErr
  | Some user =>
      let fl := faults env in
      fun db =>
        match GetUserFeedForRescore fl db userID with
        | None => (RescoreErr, db, [])
        | Some [] => (Rescored 0, db, [])
        | Some jobs =>
            let scores := map (fun j => (fj_ID j, calculateMatchScore user j)) jobs in
            let '(ok, db1) := BatchUpdateMatchScores fl db userID scores in
            if ok then (Rescored (Z.of_nat (List.length (nodup Nat.eq_dec (map fst scores)))), db1, [])
            else (RescoreErr, db1, [])
        end
  end.

(** How a link may differ after a rescore: only its score, and only to the
    score of its feed job under the user's current profile. *)
Definition rescored_link (env : Env) (db : DB) (uid : nat) (l l' : Link) : Prop :=
  uf_UserID l' = uf_UserID l /\ uf_FeedJobID l' = uf_FeedJobID l /\
  uf_Dismissed l' = uf_Dismissed l /\ uf_Saved l' = uf_Saved l /\
  (l' = l \/
   (uf_UserID l = uid /\
    exists user j, FindByID env uid = Some user /\ find_row db (uf_FeedJobID l) = Some j /\
                   uf_MatchScore l' = calculateMatchScore user j)).

End Feed.

(* ------------------------------------------------------------------ *)
(** ** Relations between a database and the database after a refresh *)
Module Invariants.
Import Store.

(** Two rows of [user_feed] for the same user and feed job with the same
    [dismissed] and [saved] flags. *)
Definition same_link_flags (l l' : Link) : Prop :=
  uf_UserID l' = uf_UserID l /\ uf_FeedJobID l' = uf_FeedJobID l /\
  uf_Dismissed l' = uf_Dismissed l /\ uf_Saved l' = uf_Saved l.

(** Every link of [db] is still in [db'], in order and with its flags, and
    [db'] only adds links after them. *)
Definition links_kept (db db' : DB) : Prop :=
  exists kept added, user_feed db' = app kept added /\ Forall2 same_link_flags (user_feed db) kept.

(** Every row of [db] is still in [db'], with at most its title changed
    among the columns a [FeedJob] carries (the timestamp columns, such as
    [fetched_at], are not modelled). *)
Definition rows_kept (db db' : DB) : Prop :=
  forall r, In r (feed_jobs db) -> exists t, In (with_title r t) (feed_jobs db').

(** The key [(external_id, source)] of [feed_jobs] is unique. *)
Definition feed_keys_unique (db : DB) : Prop :=
  NoDup (map (fun r => (fj_ExternalID r, fj_Source r)) (feed_jobs db)).

(** The key [(user_id, feed_job_id)] of [user_feed] is unique. *)
Definition link_keys_unique (db : DB) : Prop :=
  NoDup (map (fun l => (uf_UserID l, uf_FeedJobID l)) (user_feed db)).

(** The user [uid] has a link to feed job [fid], and every such link is
    dismissed. *)
Definition dismissed (uid fid : nat) (db : DB) : Prop :=
  (exists l, In l (user_feed db) /\ link_key uid fid l = true) /\
  (forall l, In l (user_feed db) -> link_key uid fid l = true -> uf_Dismissed l = true).

End Invariants.

(* ------------------------------------------------------------------ *)
(** ** The tracked-jobs repository ([repository.JobRepo]) *)
Module JobStore.
Local Open Scope Z_scope.

(** A row of [jobs], with the columns the statements below filter on,
    order by or set; the columns left out (external id, salary, description,
    skills, ...) are carried unchanged by them.  [created_at] and
    [updated_at] default to [now()] on insert; timestamps are seconds. *)
Record Job := mkJob {
  j_ID : nat;
  j_UserID : nat;
  j_Title : string;
  j_Company : string;
  j_Location : string;
  j_MatchScore : Z;
  j_Bookmarked : bool;
  j_Status : string;
  j_CreatedAt : Z;
  j_UpdatedAt : Z
}.

(** [JobFilter] *)
Record JobFilter := mkJobFilter {
  jf_Search : string;
  jf_LocationType : string;
  jf_BookmarkedOnly : bool
}.

Definition backslash : ascii := ascii_of_nat 92.

(** SQL [s LIKE p] with the default escape character: [%] matches any
    sequence, [_] any single byte, and a backslash makes the next pattern
    byte literal.  (A pattern ending in the escape character is an SQL
    error; the patterns built below all end in [%].) *)
Fixpoint like (p s : string) {struct p} : bool :=
  match p with
  | EmptyString => match s with EmptyString => true | String _ _ => false end
  | String c p' =>
      if Ascii.eqb c "%"%char then
        (fix go (s : string) : bool :=
           like p' s || match s with EmptyString => false | String _ s' => go s' end) s
      else if Ascii.eqb c "_"%char then
        match s with EmptyString => false | String _ s' => like p' s' end
      else if Ascii.eqb c backslash then
        match p' with
        | EmptyString => false
        | String e p'' =>
            match s with EmptyString => false | String d s' => Ascii.eqb e d && like p'' s' end
        end
      else match s with EmptyString => false | String d s' => Ascii.eqb c d && like p' s' end
  end.

(** The column list of [List]'s and of [FindByID]'s [SELECT], and the
    destinations their [Scan] calls pass. *)
Definition list_columns : list string :=
  ["id"; "user_id"; "external_id"; "source"; "title"; "company"; "location";
   "salary_range"; "job_type"; "description"; "tags"; "required_skills";
   "preferred_skills"; "apply_url"; "hiring_email"; "company_logo";
   "company_color"; "match_score"; "bookmarked"; "status"; "created_at"; "updated_at"].

Definition findByID_columns : list string :=
  ["id"; "user_id"; "external_id"; "source"; "title"; "company"; "location";
   "salary_range"; "job_type"; "description"; "tags"; "required_skills";
   "preferred_skills"; "apply_url"; "hiring_email"; "company_logo";
   "company_color"; "match_score"; "bookmarked"; "created_at"; "updated_at"].

Definition scan_dests : list string :=
  ["ID"; "UserID"; "ExternalID"; "Source"; "Title"; "Company"; "Location";
   "SalaryRange"; "JobType"; "Description"; "Tags"; "RequiredSkills";
   "PreferredSkills"; "ApplyURL"; "HiringEmail"; "CompanyLogo"; "CompanyColor";
   "MatchScore"; "Bookmarked"; "Status"; "CreatedAt"; "UpdatedAt"].

(** pgx's [Rows.Scan] fails unless there are as many destinations as
    result columns. *)
Definition scan_ok (cols dests : list string) : bool :=
  Nat.eqb (List.length cols) (List.length dests).

(** The [WHERE] clause of [List]. *)
Definition list_where (uid : nat) (f : JobFilter) (j : Job) : bool :=
  Nat.eqb (j_UserID j) uid &&
  (if jf_BookmarkedOnly f then j_Bookmarked j else true) &&
  (if String.eqb (jf_Search f) "" then true
   else let pat := "%" ++ jf_Search f ++ "%" in
        like pat (ToLower (j_Title j)) || like pat (ToLower (j_Company j))) &&
  (if String.eqb (jf_LocationType f) "remote" then like "%remote%" (ToLower (j_Location j))
   else if String.eqb (jf_LocationType f) "onsite" then negb (like "%remote%" (ToLower (j_Location j)))
   else true).

(** [ORDER BY match_score DESC, created_at DESC]: [a] may come before [b]. *)
Definition ranks_before (a b : Job) : bool :=
  (j_MatchScore b <? j_MatchScore a) ||
  ((j_MatchScore a =? j_MatchScore b) && (j_CreatedAt b <=? j_CreatedAt a)).

Fixpoint insert_job (x : Job) (l : list Job) : list Job :=
  match l with
  | [] => [x]
  | y :: l' => if ranks_before y x then y :: insert_job x l' else x :: l
  end.

Definition order_jobs (l : list Job) : list Job := fold_right insert_job [] l.

(** [List]: [None] for the returned error. *)
Definition List (rows : list Job) (uid : nat) (f : JobFilter) : option (list Job) :=
  if scan_ok list_columns scan_dests then Some (order_jobs (filter (list_where uid f) rows))
  else None.

Definition owned (id uid : nat) (j : Job) : bool :=
  Nat.eqb (j_ID j) id && Nat.eqb (j_UserID j) uid.

(** [FindByID]: [inl None] for [(nil, nil)], [inl (Some j)] for a job,
    [inr tt] for an error. *)
Definition FindByID (rows : list Job) (id uid : nat) : option Job + unit :=
  match find (owned id uid) rows with
  | None => inl None
  | Some j => if scan_ok findByID_columns scan_dests then inl (Some j) else inr tt
  end.

(** The target columns of [Create]'s [INSERT] and the number of
    placeholders ([$1] .. [$18]) of its [VALUES] list. *)
Definition create_columns : list string :=
  ["user_id"; "external_id"; "source"; "title"; "company"; "location";
   "salary_range"; "job_type"; "description"; "tags"; "required_skills";
   "preferred_skills"; "apply_url"; "hiring_email"; "company_logo";
   "company_color"; "match_score"; "bookmarked"; "status"].

Definition create_values : nat := 18.

(** [Create]: an [INSERT] with more target columns than expressions is
    rejected by the database.  Otherwise the row gets the fresh id [nid]
    and the creation time [now].  [None] for the returned error. *)
Definition Create (rows : list Job) (nid : nat) (now : Z) (j : Job) : option Job * list Job :=
  if Nat.eqb (List.length create_columns) create_values then
    let r := mkJob nid (j_UserID j) (j_Title j) (j_Company j) (j_Location j)
               (j_MatchScore j) (j_Bookmarked j) (j_Status j) now now in
    (Some r, app rows [r])
  else (None, rows).

(** [Delete]: [false] for the "job not found" error. *)
Definition Delete (rows : list Job) (id uid : nat) : bool * list Job :=
  if existsb (owned id uid) rows then (true, filter (fun r => negb (owned id uid r)) rows)
  else (false, rows).

Definition flip_bookmark (r : Job) (now : Z) : Job :=
  mkJob (j_ID r) (j_UserID r) (j_Title r) (j_Company r) (j_Location r) (j_MatchScore r)
    (negb (j_Bookmarked r)) (j_Status r) (j_CreatedAt r) now.

Definition with_updated_at (r : Job) (now : Z) : Job :=
  mkJob (j_ID r) (j_UserID r) (j_Title r) (j_Company r) (j_Location r) (j_MatchScore r)
    (j_Bookmarked r) (j_Status r) (j_CreatedAt r) now.

(** [ToggleBookmark]: [UPDATE jobs SET bookmarked = NOT bookmarked,
    updated_at = now() ... RETURNING bookmarked], at time [now]; [None] for
    the error of a missing row. *)
Definition ToggleBookmark (rows : list Job) (id uid : nat) (now : Z) : option bool * list Job :=
  match find (owned id uid) rows with
  | None => (None, rows)
  | Some j =>
      (Some (negb (j_Bookmarked j)),
       map (fun r => if owned id uid r then flip_bookmark r now else r) rows)
  end.

(** [UpdateStatus]: [UPDATE jobs SET status = $1, updated_at = now() ...],
    at time [now]; [false] for the "job not found" error. *)
Definition UpdateStatus (rows : list Job) (id uid : nat) (status : string) (now : Z) : bool * list Job :=
  if existsb (owned id uid) rows then
    (true, map (fun r => if owned id uid r
                         then mkJob (j_ID r) (j_UserID r) (j_Title r) (j_Company r) (j_Location r)
                                (j_MatchScore r) (j_Bookmarked r) status (j_CreatedAt r) now
                         else r) rows)
  else (false, rows).

End JobStore.

(* ------------------------------------------------------------------ *)
(** ** Stripe helpers (remotive.go) *)
Module Stripe.
Local Open Scope Z_scope.

(** The price ids of the configuration. *)
Record Config := mkConfig {
  StripePriceProMo : string;
  StripePriceProAn : string;
  StripePriceProPlusMo : string;
  StripePriceProPlusAn : string
}.

Definition PlanFree := "free".
Definition PlanPro := "pro".
Definition PlanProPlus := "pro_plus".

(** [ResolvePriceID]: [None] for the "unknown plan/interval" error. *)
Definition ResolvePriceID (cfg : Config) (plan interval : string) : option string :=
  if String.eqb plan PlanPro && String.eqb interval "month" then Some (StripePriceProMo cfg)
  else if String.eqb plan PlanPro && String.eqb interval "year" then Some (StripePriceProAn cfg)
  else if String.eqb plan PlanProPlus && String.eqb interval "month" then Some (StripePriceProPlusMo cfg)
  else if String.eqb plan PlanProPlus && String.eqb interval "year" then Some (StripePriceProPlusAn cfg)
  else None.

(** [planFromPriceID]: the cases of the [switch] are tried in order. *)
Definition planFromPriceID (cfg : Config) (priceID : string) : string :=
  if String.eqb priceID (StripePriceProMo cfg) || String.eqb priceID (StripePriceProAn cfg)
  then PlanPro
  else if String.eqb priceID (StripePriceProPlusMo cfg) || String.eqb priceID (StripePriceProPlusAn cfg)
  then PlanProPlus
  else PlanFree.

(** [truncate]: [None] for the panic of [s[:n]] with [n < 0]. *)
Definition truncate (s : string) (n : Z) : option string :=
  if Z.of_nat (String.length s) <=? n then Some s
  else if n <? 0 then None
  else Some (substring 0 (Z.to_nat n) s ++ "...").

End Stripe.

(* ------------------------------------------------------------------ *)
(** ** The feed repository's reads and the save into the CRM (repository code) *)
Module FeedRead.
Import Store JobStore.
Local Open Scope Z_scope.

(** [fj.expires_at IS NULL OR fj.expires_at > now()] *)
Definition not_expired (expires_at : nat -> option Z) (now : Z) (r : FeedJob) : bool :=
  match expires_at (fj_ID r) with None => true | Some t => now <? t end.

(** [ORDER BY uf.match_score DESC, fj.posted_at DESC NULLS LAST]: [a] may
    come before [b]. *)
Definition feed_ranks_before (posted_at : nat -> option Z) (a b : Link * FeedJob) : bool :=
  let sa := uf_MatchScore (fst a) in
  let sb := uf_MatchScore (fst b) in
  (sb <? sa) ||
  ((sa =? sb) &&
   match posted_at (fj_ID (snd a)), posted_at (fj_ID (snd b)) with
   | _, None => true
   | None, Some _ => false
   | Some pa, Some pb => pb <=? pa
   end).

Fixpoint insert_feed_row (posted_at : nat -> option Z) (x : Link * FeedJob) (l : list (Link * FeedJob)) :=
  match l with
  | [] => [x]
  | y :: l' => if feed_ranks_before posted_at y x then y :: insert_feed_row posted_at x l' else x :: l
  end.

Definition order_feed_rows (posted_at : nat -> option Z) (l : list (Link * FeedJob)) :=
  fold_right (insert_feed_row posted_at) [] l.

(** [GetUserFeed]: [posted_at] and [expires_at] are the columns of
    [feed_jobs] the record leaves out, by row id; [None] for the error of
    a negative [LIMIT]. *)
Definition GetUserFeed (posted_at expires_at : nat -> option Z) (db : DB) (uid : nat) (limit : Z)
    : option (list (Link * FeedJob)) :=
  let limit := if limit =? 0 then 30 else limit in
  if limit <? 0 then None else
  let rows := flat_map (fun l =>
      if Nat.eqb (uf_UserID l) uid && negb (uf_Dismissed l) then
        map (fun r => (l, r))
          (filter (fun r => Nat.eqb (fj_ID r) (uf_FeedJobID l) && not_expired expires_at (clock db) r)
             (feed_jobs db))
      else []) (user_feed db) in
  Some (firstn (Z.to_nat limit) (order_feed_rows posted_at rows)).

(** [SaveFeedJobToCRM], one transaction: the feed job ([None] for "feed
    job not found"), the user's match score for it (the error of the
    lookup is ignored and the score stays 0), the new row of [jobs] with
    the fresh id [nid] and creation time [now] ([created_at] and
    [updated_at] default to [now()]), and [saved] set on the
    user's link. *)
Definition SaveFeedJobToCRM (db : DB) (rows : list Job) (nid : nat) (now : Z) (uid fid : nat)
    : option Job * DB * list Job :=
  match find_row db fid with
  | None => (None, db, rows)
  | Some fj =>
      let score := match find (link_key uid fid) (user_feed db) with
                   | Some l => uf_MatchScore l
                   | None => 0
                   end in
      let job := mkJob nid uid (fj_Title fj) (fj_Company fj) (fj_Location fj) score false "saved" now now in
      (Some job,
       set_user_feed db (map (fun l => if link_key uid fid l
                                       then mkLink (uf_UserID l) (uf_FeedJobID l) (uf_MatchScore l)
                                              (uf_Dismissed l) true
                                       else l) (user_feed db)),
       app rows [job])
  end.

(** The order of [GetUserFeed] as a relation. *)
Definition frb pa (a b : Link * FeedJob) : Prop := feed_ranks_before pa a b = true.

End FeedRead.

(* ------------------------------------------------------------------ *)
(** ** Shapes of the planners' queries, and the invariants of their [add] loops *)
Module PlannerShapes.
Import Planner.
Local Open Scope Z_scope.

Definition js_shape (loc : string) (ro : bool) (q : JSearchQuery) : Prop :=
  jq_Location q = loc /\ jq_RemoteOnly q = ro /\ (jq_NumPages q = 2 \/ jq_NumPages q = 3).

Definition js_inv (loc : string) (ro : bool) (st : list JSearchQuery * list string) : Prop :=
  Forall (js_shape loc ro) (fst st) /\
  (forall k, In k (map (fun q => ToLower (jq_Query q)) (fst st)) <-> In k (snd st)) /\
  NoDup (map (fun q => ToLower (jq_Query q)) (fst st)).

Definition az_shape (user : User) (q : AdzunaQuery) : Prop :=
  aq_Country q = "us" /\ aq_ResultsPerPage q = 50 /\ aq_MaxDaysOld q = 30 /\
  aq_FullTime q = true /\ aq_SalaryMin q = u_SalaryMin user /\
  (if EqualFold (u_WorkStyle user) "remote"
   then aq_Location q = "" /\ exists k, aq_Keywords q = k ++ " remote"
   else aq_Location q = u_Location user).

Definition az_inv (user : User) (st : list AdzunaQuery * list string) : Prop :=
  Forall (az_shape user) (fst st) /\ length (fst st) = length (snd st).

Definition rm_cats (qs : list RemotiveQuery) : list string :=
  map rq_Category (filter (fun q => negb (String.eqb (rq_Category q) "")) qs).

Definition rm_shape (q : RemotiveQuery) : Prop :=
  rq_Category q = "" \/
  (rq_Search q = "" /\ rq_Limit q = 50 /\ In (rq_Category q) (map snd remotiveCategoryMap)).

End PlannerShapes.

(* ------------------------------------------------------------------ *)
(** ** Decimal digits, as written by [strconv.Itoa] *)
Module DigitStrings.
Import Normalize.
Local Open Scope Z_scope.

Definition dchar (n : Z) : ascii := ascii_of_nat (48 + Z.to_nat (n mod 10)).

Fixpoint all_digits (s : string) : bool :=
  match s with
  | EmptyString => true
  | String c s' => Nat.leb 48 (nat_of_ascii c) && Nat.leb (nat_of_ascii c) 57 && all_digits s'
  end.

End DigitStrings.

(* ------------------------------------------------------------------ *)
(** ** Relations between the database before and after a refresh step *)
Module RefreshRelations.
Import Store Feed Invariants.
Local Open Scope Z_scope.

Definition keys_rows (db db' : DB) : Prop :=
  feed_keys_unique db -> feed_keys_unique db' /\ rows_kept db db'.

Definition link_keys_kept (db db' : DB) : Prop := link_keys_unique db -> link_keys_unique db'.

Definition dismissals_kept (db db' : DB) : Prop :=
  forall uid fid, dismissed uid fid db -> dismissed uid fid db'.

Definition counts_ok (p : Z * Z) : Prop := 0 <= snd p <= fst p.

Definition log_clock_kept (db db' : DB) : Prop :=
  refresh_log db' = refresh_log db /\ clock db' = clock db.

End RefreshRelations.

(* ------------------------------------------------------------------ *)
(** ** Upper-case bytes, and the order of [List] as a relation *)
Module JobSearchCase.
Import JobStore.
Local Open Scope Z_scope.

Definition is_upper (c : ascii) : bool :=
  let n := nat_of_ascii c in Nat.leb 65 n && Nat.leb n 90.

Fixpoint has_upper (s : string) : bool :=
  match s with
  | EmptyString => false
  | String c s' => is_upper c || has_upper s'
  end.

Definition rb (a b : Job) : Prop := ranks_before a b = true.

End JobSearchCase.

(* ------------------------------------------------------------------ *)
(** ** Text without markup *)
Module HtmlText.
Import Html.
Local Open Scope Z_scope.

Definition plain_text (s : string) : Prop :=
  forall c, In c (list_ascii_of_string s) -> c <> "<"%char /\ c <> ">"%char /\ c <> "&"%char.

End HtmlText.

(* ------------------------------------------------------------------ *)
(** ** Concrete inputs used by the witnesses and counterexamples *)
Module Samples.
Import Store Normalize Planner Feed.
Local Open Scope Z_scope.

Definition backend_user : User :=
  mkUser "Austin" "remote" 100000 ["Go"] ["Backend Engineer"] [].

Definition acme_listing : JSearchJob :=
  mkJSearchJob "abc" "Backend Engineer" "Acme" "" "Austin" "TX" true "Build services in Go."
    "FULLTIME" "https://acme.example/apply" (Some 100000%Q) (Some 150000%Q) "YEAR" None.

(** JSearch answers every query with the same listing; Remotive is down;
    Adzuna is not configured. *)
Definition env_one_listing : Env :=
  mkEnv (fun n => if Nat.eqb n 1 then Some backend_user else None) NoFaults
    (Some (fun _ => Some [acme_listing])) (Some (fun _ => None)) None.

(** The database after that listing was stored once, before any refresh. *)
Definition db_seeded : DB :=
  mkDB [with_id (sanitizeFeedJob (convertJSearchJob acme_listing)) 0] [] [] 1 100000.

(** A database whose user 1 refreshed one minute ago. *)
Definition db_recent : DB :=
  mkDB [] [] [mkLogEntry 1 "multi-source" 0 0 99940] 0 100000.

(** The same service when the last-refresh lookup fails. *)
Definition env_lookup_fails : Env :=
  mkEnv (FindByID env_one_listing)
    (mkFaults (fun _ => false) (fun _ _ => false) (fun _ => true) false
              (fun _ => false) (fun _ => false))
    (jsearch env_one_listing) (remotive env_one_listing) (adzuna env_one_listing).

(** A JSearch payload whose native id looks like a Remotive one, and the
    Remotive payload with id 7. *)
Definition jsearch_listing_r7 : JSearchJob :=
  mkJSearchJob "remotive-7" "Go Engineer" "Initech" "" "" "" true "" "" "" None None "" None.

Definition remotive_listing_7 : RemotiveJob :=
  mkRemotiveJob 7 "Go Engineer" "Globex" "" None "full_time" "Worldwide" "" "" "".

(** A profile with no target roles, no skills and no experience. *)
Definition empty_remote_user : User := mkUser "" "remote" 0 [] [] [].

End Samples.

(* ------------------------------------------------------------------ *)
(** ** More concrete inputs: stored rows, jobs and a price configuration *)
Module StoreSamples.
Import Store Normalize Feed JobStore Stripe Samples.
Local Open Scope Z_scope.

(** The Remotive payload with id 8. *)
Definition remotive_listing_8 : RemotiveJob :=
  mkRemotiveJob 8 "Go Engineer" "Globex" "" None "full_time" "Worldwide" "" "" "".

(** The stored row of the Acme listing. *)
Definition acme_row : FeedJob := with_id (sanitizeFeedJob (convertJSearchJob acme_listing)) 0.

(** User 1 has two feed jobs: the Acme listing (row 0) and a Remotive one (row 1). *)
Definition db_linked : DB :=
  mkDB [acme_row; with_id (convertRemotiveJob remotive_listing_7) 1]
       [mkLink 1 0 50 false false; mkLink 1 1 40 false false] [] 2 100000.

(** Two rows of [jobs] with id 1, of users 1 and 2. *)
Definition backend_job : Job := mkJob 1 1 "backend engineer" "acme" "remote" 70 false "saved" 100 100.
Definition other_user_job : Job := mkJob 1 2 "go developer" "globex" "austin" 60 true "applied" 200 250.

(** A configuration with four distinct price ids. *)
Definition sample_config : Config :=
  mkConfig "price_pro_mo" "price_pro_an" "price_plus_mo" "price_plus_an".

End StoreSamples.

(** A description with U+0130 (capital I with dot above, two bytes in
    UTF-8), whose lower-case [i] takes one byte, and a lower-case mapping
    that agrees with Go's [unicode] tables on it. *)
Module UnicodeSamples.
Import GoToLower.
Local Open Scope Z_scope.
Definition dotted_I : string := String (ascii_of_nat 196) (String (ascii_of_nat 176) EmptyString).
Definition turkish_text : string := dotted_I ++ "stanbul ve " ++ dotted_I ++ "zmir".
Definition sample_case_lower (r : Z) : Z := if r =? 304 then 105 else r.
End UnicodeSamples.

(* ================================================================== *)
(** * Properties *)

(* ------------------------------------------------------------------ *)
(** ** Match scorer *)
Module ScoreFacts.
Import Score.
Local Open Scope Z_scope.

Lemma count_true_le_length {A} (p : A -> bool) (l : list A) :
  (count_true p l <= length l)%nat.
Proof.
  unfold count_true; induction l as [|x l IH]; simpl; [lia|].
  destruct (p x); simpl; lia.
Qed.

Lemma count_true_mono {A} (p q : A -> bool) (l : list A) :
  (forall x, p x = true -> q x = true) ->
  (count_true p l <= count_true q l)%nat.
Proof.
  intros Hpq; unfold count_true; induction l as [|x l IH]; simpl; [lia|].
  destruct (p x) eqn:Hp.
  - rewrite (Hpq x Hp); simpl; lia.
  - destruct (q x); simpl; lia.
Qed.

Lemma count_true_insert {A} (p : A -> bool) (l1 l2 : list A) (s : A) :
  (count_true p (l1 ++ l2) <= count_true p (l1 ++ s :: l2))%nat.
Proof.
  unfold count_true; rewrite !filter_app; simpl.
  destruct (p s); simpl; rewrite ?length_app; simpl; lia.
Qed.

(** A quotient of counts [m / n] with [m <= n] lies in [[0, 1]]. *)
Lemma ratio_range (m n : nat) :
  (m <= n)%nat -> (0 < n)%nat ->
  (0 <= inject_Z (Z.of_nat m) / inject_Z (Z.of_nat n) <= 1)%Q.
Proof.
  intros Hmn Hn.
  assert (Hpos : (0 < inject_Z (Z.of_nat n))%Q).
  { change (inject_Z 0 < inject_Z (Z.of_nat n))%Q; rewrite <- Zlt_Qlt; lia. }
  split.
  - apply Qle_shift_div_l; [exact Hpos|].
    rewrite Qmult_0_l; change (inject_Z 0 <= inject_Z (Z.of_nat m))%Q.
    rewrite <- Zle_Qle; lia.
  - apply Qle_shift_div_r; [exact Hpos|].
    rewrite Qmult_1_l; rewrite <- Zle_Qle; lia.
Qed.

Lemma ratio_mono (m1 m2 n : nat) :
  (m1 <= m2)%nat -> (0 < n)%nat ->
  (inject_Z (Z.of_nat m1) / inject_Z (Z.of_nat n) <=
   inject_Z (Z.of_nat m2) / inject_Z (Z.of_nat n))%Q.
Proof.
  intros Hm Hn.
  assert (Hpos : (0 < inject_Z (Z.of_nat n))%Q).
  { change (inject_Z 0 < inject_Z (Z.of_nat n))%Q; rewrite <- Zlt_Qlt; lia. }
  unfold Qdiv; apply Qmult_le_compat_r.
  - rewrite <- Zle_Qle; lia.
  - apply Qlt_le_weak, Qinv_lt_0_compat; exact Hpos.
Qed.

(** [int(r * 25)] for [r] in [[0, 1]] lies in [[0, 25]]. *)
Lemma floor25_range (q : Q) :
  (0 <= q <= 1)%Q -> 0 <= Qfloor (q * inject_Z 25) <= 25.
Proof.
  intros [H0 H1].
  assert (A : Qfloor (0 * inject_Z 25) <= Qfloor (q * inject_Z 25)).
  { apply Qfloor_resp_le, Qmult_le_compat_r; [exact H0|discriminate]. }
  assert (B : Qfloor (q * inject_Z 25) <= Qfloor (1 * inject_Z 25)).
  { apply Qfloor_resp_le, Qmult_le_compat_r; [exact H1|discriminate]. }
  change (Qfloor (0 * inject_Z 25)) with 0 in A.
  change (Qfloor (1 * inject_Z 25)) with 25 in B; lia.
Qed.

Lemma floor25_mono (q1 q2 : Q) :
  (q1 <= q2)%Q -> Qfloor (q1 * inject_Z 25) <= Qfloor (q2 * inject_Z 25).
Proof.
  intros H; apply Qfloor_resp_le, Qmult_le_compat_r; [exact H|discriminate].
Qed.

Lemma qlt_true (x y : Q) : qlt x y = true -> (x < y)%Q.
Proof.
  unfold qlt; intros H; apply negb_true_iff in H.
  apply Qnot_le_lt; intros Hle; apply Qle_bool_iff in Hle; congruence.
Qed.

(** [bestRoleMatch] stays in [[0, 1]] through the loop. *)
Lemma role_loop_range (t x : string) (roles : list string) (best : Q) :
  (0 <= best <= 1)%Q -> (0 <= role_loop t x roles best <= 1)%Q.
Proof.
  revert best; induction roles as [|r rs IH]; intros best Hb; simpl; [exact Hb|].
  destruct (String.eqb _ _); [apply IH; exact Hb|].
  destruct (Contains t _); [split; discriminate|].
  apply IH.
  set (ws := Fields _).
  set (b1 := if Nat.ltb 0 (length ws) then _ else best).
  assert (Hb1 : (0 <= b1 <= 1)%Q).
  { subst b1; destruct (Nat.ltb 0 (length ws)) eqn:Hl; [|exact Hb].
    apply Nat.ltb_lt in Hl.
    destruct (qlt _ _); [|exact Hb].
    apply ratio_range; [apply count_true_le_length|exact Hl]. }
  destruct (qlt b1 (1 # 2) && _); [split; discriminate|exact Hb1].
Qed.

Lemma role_points_range (u : User) (t x : string) :
  0 <= role_points u t x <= 25.
Proof.
  unfold role_points; destruct (u_TargetRoles u) as [|r rs]; [lia|].
  apply floor25_range, role_loop_range; split; discriminate.
Qed.

Lemma overlap_points_range (sk req : list string) :
  0 <= overlap_points sk req <= 25.
Proof.
  unfold overlap_points; destruct req as [|r rs]; [lia|].
  apply floor25_range, ratio_range; [apply count_true_le_length|simpl; lia].
Qed.

Lemma mention_points_range (sk : list string) (x : string) :
  0 <= mention_points sk x <= 10.
Proof.
  unfold mention_points; destruct (0 <? _) eqn:H; [|lia].
  apply Z.ltb_lt in H; lia.
Qed.

Lemma skill_points_range (u : User) (j : FeedJob) (x : string) :
  0 <= skill_points u j x <= 35.
Proof.
  unfold skill_points; destruct (u_Skills u) as [|s ss]; [lia|].
  pose proof (overlap_points_range (s :: ss) (fj_RequiredSkills j)).
  pose proof (mention_points_range (s :: ss) x); lia.
Qed.

Lemma location_points_range (u : User) (j : FeedJob) :
  0 <= location_points u j <= 5.
Proof.
  unfold location_points.
  destruct (_ && _); [|lia].
  destruct (_ && _); [lia|].
  destruct (_ && _); lia.
Qed.

Lemma salary_points_range (u : User) (j : FeedJob) :
  0 <= salary_points u j <= 5.
Proof.
  unfold salary_points.
  destruct (_ && _); [|lia].
  destruct (_ <=? _); lia.
Qed.

Lemma in_skill_set_insert (l1 l2 : list string) (s x : string) :
  in_skill_set (l1 ++ l2) x = true -> in_skill_set (l1 ++ s :: l2) x = true.
Proof.
  unfold in_skill_set; rewrite !existsb_app; simpl.
  intros H; apply orb_true_iff in H as [H|H]; rewrite H;
    [reflexivity | rewrite !orb_true_r; reflexivity].
Qed.

Lemma overlap_points_insert (l1 l2 req : list string) (s : string) :
  overlap_points (l1 ++ l2) req <= overlap_points (l1 ++ s :: l2) req.
Proof.
  unfold overlap_points; destruct req as [|r rs]; [lia|].
  apply floor25_mono, ratio_mono; [|simpl; lia].
  apply count_true_mono, in_skill_set_insert.
Qed.

Lemma mention_points_insert (l1 l2 : list string) (s x : string) :
  mention_points (l1 ++ l2) x <= mention_points (l1 ++ s :: l2) x.
Proof.
  unfold mention_points.
  pose proof (count_true_insert (fun k => Contains x (ToLower k)) l1 l2 s) as H.
  destruct (0 <? Z.of_nat (count_true _ (l1 ++ l2))) eqn:E1;
  destruct (0 <? Z.of_nat (count_true _ (l1 ++ s :: l2))) eqn:E2;
  rewrite ?Z.ltb_lt, ?Z.ltb_nlt in E1, E2; lia.
Qed.

Lemma skill_points_insert (u : User) (j : FeedJob) (x : string) (l1 l2 : list string) (s : string) :
  skill_points (with_skills u (l1 ++ l2)) j x <= skill_points (with_skills u (l1 ++ s :: l2)) j x.
Proof.
  pose proof (skill_points_range (with_skills u (l1 ++ s :: l2)) j x) as Hr.
  unfold skill_points in *; simpl in *.
  destruct (l1 ++ l2)%list as [|a l] eqn:E; [lia|].
  destruct (l1 ++ s :: l2)%list as [|b l'] eqn:E'; [destruct l1; discriminate|].
  rewrite <- E, <- E'.
  pose proof (overlap_points_insert l1 l2 (fj_RequiredSkills j) s).
  pose proof (mention_points_insert l1 l2 s x); lia.
Qed.

(** Claim C4: for every profile and every feed job, including empty skills
    and empty target roles, [calculateMatchScore] lies in [[0, 100]]; the
    base score 30 is its floor and the capped sum never exceeds 100. *)
Theorem calculateMatchScore_range (u : User) (j : FeedJob) :
  0 <= calculateMatchScore u j <= 100 /\ 30 <= calculateMatchScore u j.
Proof.
  unfold calculateMatchScore.
  pose proof (role_points_range u (ToLower (fj_Title j))
                (ToLower (fj_Title j ++ " " ++ fj_Description j))).
  pose proof (skill_points_range u j (ToLower (fj_Title j ++ " " ++ fj_Description j))).
  pose proof (location_points_range u j).
  pose proof (salary_points_range u j).
  destruct (100 <? _) eqn:E; rewrite ?Z.ltb_lt, ?Z.ltb_nlt in E; lia.
Qed.

(** Claim C5: the scenario of the spec.  The profile with target role
    "Backend Engineer", skills Go and Postgres and salary floor 120000
    scores the job "Senior Backend Engineer" (required skills Go and
    Kubernetes, salary ceiling 150000) strictly higher than a profile with
    no target roles and no skills.  All fields the scenario leaves open
    (the job's description, location, company, ...; the profiles'
    location, work style, experience; the empty profile's salary floor)
    are arbitrary. *)
Theorem scenario_backend_profile_beats_empty_profile
    (loc ws : string) (exp : list Experience)
    (loc0 ws0 : string) (sal0 : Z) (exp0 : list Experience)
    (id : nat) (ext src company jloc stext jtype desc url logo : string) (jmin : Z) :
  let job := mkFeedJob id ext src "Senior Backend Engineer" company jloc jmin 150000
               stext jtype desc ["Go"; "Kubernetes"] url logo in
  calculateMatchScore (mkUser loc0 ws0 sal0 [] [] exp0) job <
  calculateMatchScore (mkUser loc ws 120000 ["Go"; "Postgres"] ["Backend Engineer"] exp) job.
Proof.
  intros job.
  set (uA := mkUser loc ws 120000 ["Go"; "Postgres"] ["Backend Engineer"] exp).
  set (u0 := mkUser loc0 ws0 sal0 [] [] exp0).
  unfold calculateMatchScore.
  set (x := ToLower (fj_Title job ++ " " ++ fj_Description job)).
  assert (R : role_points uA (ToLower (fj_Title job)) x = 25) by reflexivity.
  assert (R0 : role_points u0 (ToLower (fj_Title job)) x = 0) by reflexivity.
  assert (S0 : skill_points u0 job x = 0) by reflexivity.
  assert (S : skill_points uA job x = 12 + mention_points ["Go"; "Postgres"] x) by reflexivity.
  assert (P : salary_points uA job = 5) by reflexivity.
  pose proof (mention_points_range ["Go"; "Postgres"] x).
  pose proof (location_points_range uA job).
  pose proof (location_points_range u0 job).
  pose proof (salary_points_range u0 job).
  rewrite R, R0, S, S0, P.
  destruct (100 <? 30 + 0 + 0 + _ + _) eqn:E0;
  destruct (100 <? 30 + 25 + _ + _ + 5) eqn:E1;
  rewrite ?Z.ltb_lt, ?Z.ltb_nlt in E0, E1; lia.
Qed.

(** Claim C10: adding a skill anywhere in the user's skill list, with every
    other profile field and the job unchanged, never decreases the score. *)
Theorem add_skill_never_decreases_score (u : User) (j : FeedJob)
    (l1 l2 : list string) (s : string) :
  calculateMatchScore (with_skills u (l1 ++ l2)) j <=
  calculateMatchScore (with_skills u (l1 ++ s :: l2)) j.
Proof.
  unfold calculateMatchScore.
  set (x := ToLower (fj_Title j ++ " " ++ fj_Description j)).
  set (t := ToLower (fj_Title j)).
  assert (Hr : forall sk, role_points (with_skills u sk) t x = role_points u t x)
    by reflexivity.
  assert (Hl : forall sk, location_points (with_skills u sk) j = location_points u j)
    by reflexivity.
  assert (Hs : forall sk, salary_points (with_skills u sk) j = salary_points u j)
    by reflexivity.
  rewrite !Hr, !Hl, !Hs.
  pose proof (skill_points_insert u j x l1 l2 s).
  destruct (100 <? 30 + _ + skill_points (with_skills u (l1 ++ l2)) j x + _ + _) eqn:E0;
  destruct (100 <? 30 + _ + skill_points (with_skills u (l1 ++ s :: l2)) j x + _ + _) eqn:E1;
  rewrite ?Z.ltb_lt, ?Z.ltb_nlt in E0, E1; lia.
Qed.

End ScoreFacts.

(* ------------------------------------------------------------------ *)
(** ** UTF-8 decoding and truncation *)
Module UTF8Facts.
Import UTF8.
Local Open Scope nat_scope.

Lemma sapp_nil_r (s : string) : s ++ "" = s.
Proof. induction s as [|c s IH]; simpl; [reflexivity|now rewrite IH]. Qed.

Lemma sapp_assoc (a b c : string) : (a ++ b) ++ c = a ++ (b ++ c).
Proof. induction a as [|x a IH]; simpl; [reflexivity|now rewrite IH]. Qed.

Lemma length_sapp (a b : string) : String.length (a ++ b) = String.length a + String.length b.
Proof. induction a as [|x a IH]; simpl; [reflexivity|now rewrite IH]. Qed.

Lemma take_cont_some (k : nat) (s a r : string) :
  take_cont k s = Some (a, r) ->
  s = a ++ r /\ forall t, take_cont k (a ++ t) = Some (a, t).
Proof.
  revert s a r; induction k as [|k IH]; intros s a r H; simpl in H.
  - inversion H; subst; split; reflexivity.
  - destruct s as [|c s']; [discriminate|].
    destruct (is_cont c) eqn:Hc; [|discriminate].
    destruct (take_cont k s') as [[a' r']|] eqn:Ht; [|discriminate].
    inversion H; subst.
    destruct (IH _ _ _ Ht) as [E F]; split.
    + simpl; now rewrite E.
    + intros t; simpl; rewrite Hc, F; reflexivity.
Qed.

Lemma take_cont_none_prefix (k : nat) (p q : string) :
  take_cont k (p ++ q) = None -> take_cont k p = None.
Proof.
  revert p; induction k as [|k IH]; intros p H; simpl in *; [discriminate|].
  destruct p as [|c p']; [reflexivity|]; simpl in H.
  destruct (is_cont c); [|reflexivity].
  destruct (take_cont k (p' ++ q)) as [[a r]|] eqn:Ht; [discriminate|].
  rewrite (IH _ Ht); reflexivity.
Qed.

Lemma next_char_split (c : ascii) (s ch r : string) :
  next_char c s = (ch, r) ->
  String c s = ch ++ r /\ String.length r < S (String.length s).
Proof.
  unfold next_char; destruct (take_cont _ s) as [[a r']|] eqn:Ht; intros H;
    inversion H; subst.
  - destruct (take_cont_some _ _ _ _ Ht) as [E _]; subst s; split; [reflexivity|].
    rewrite length_sapp; lia.
  - split; [reflexivity|lia].
Qed.

Lemma chars_fuel_stable (n m : nat) (s : string) :
  String.length s <= n -> String.length s <= m -> chars_fuel n s = chars_fuel m s.
Proof.
  revert m s; induction n as [|n IH]; intros m s Hn Hm.
  - destruct s; simpl in Hn; [|lia]. destruct m; reflexivity.
  - destruct s as [|c s']; [destruct m; reflexivity|].
    destruct m as [|m]; [simpl in Hm; lia|].
    simpl. destruct (next_char c s') as [ch r] eqn:E.
    destruct (next_char_split _ _ _ _ E) as [_ L]; simpl in Hn, Hm.
    f_equal; apply IH; lia.
Qed.

Lemma chars_cons (c : ascii) (s : string) :
  chars (String c s) = let (ch, r) := next_char c s in ch :: chars r.
Proof.
  unfold chars at 1; simpl.
  destruct (next_char c s) as [ch r] eqn:E.
  destruct (next_char_split _ _ _ _ E) as [_ L].
  f_equal; apply chars_fuel_stable; lia.
Qed.

Lemma concat_str_app (l1 l2 : list string) :
  concat_str (l1 ++ l2)%list = concat_str l1 ++ concat_str l2.
Proof.
  induction l1 as [|x l IH]; simpl; [reflexivity|]. rewrite IH, sapp_assoc; reflexivity.
Qed.

(** Decoding then concatenating gives the string back. *)
Lemma concat_chars (s : string) : concat_str (chars s) = s.
Proof.
  remember (String.length s) as len eqn:Hl.
  revert s Hl; induction len as [len IH] using lt_wf_ind; intros s Hl.
  destruct s as [|c s']; [reflexivity|].
  rewrite chars_cons. destruct (next_char c s') as [ch r] eqn:E.
  destruct (next_char_split _ _ _ _ E) as [Eq L]; simpl.
  rewrite (IH (String.length r)); [now rewrite Eq| simpl in Hl; lia | reflexivity].
Qed.

(** Decoding a prefix made of the first [n] characters of [s] gives back
    exactly those characters: no character is split or merged. *)
Lemma chars_prefix (n : nat) (s : string) :
  chars (concat_str (firstn n (chars s))) = firstn n (chars s).
Proof.
  remember (String.length s) as len eqn:Hl.
  revert n s Hl; induction len as [len IH] using lt_wf_ind; intros n s Hl.
  destruct s as [|c s']; [destruct n; reflexivity|].
  destruct n as [|n]; [reflexivity|].
  rewrite chars_cons. destruct (next_char c s') as [ch r] eqn:E.
  destruct (next_char_split _ _ _ _ E) as [Eq L].
  simpl firstn; simpl concat_str.
  set (P := concat_str (firstn n (chars r))).
  assert (HP : exists Q, r = P ++ Q).
  { exists (concat_str (skipn n (chars r))); unfold P.
    rewrite <- concat_str_app, firstn_skipn, concat_chars; reflexivity. }
  assert (Hnext : next_char c s' = (ch, r) -> exists a, ch = String c a /\ next_char c (a ++ P) = (ch, P)).
  { unfold next_char; destruct (take_cont _ s') as [[a r']|] eqn:Ht; intros H; inversion H; subst.
    - exists a; split; [reflexivity|].
      destruct (take_cont_some _ _ _ _ Ht) as [_ F]; rewrite F; reflexivity.
    - exists ""%string; split; [reflexivity|]; simpl.
      destruct HP as [Q HQ].
      rewrite HQ in Ht; rewrite (take_cont_none_prefix _ _ _ Ht); reflexivity. }
  destruct (Hnext E) as [a [Ech Hn]]; subst ch.
  simpl; rewrite chars_cons, Hn; f_equal.
  unfold P; apply (IH (String.length r)); [simpl in Hl; lia|reflexivity].
Qed.

Lemma truncateUTF8_eq (s : string) (n : nat) :
  truncateUTF8 s n = concat_str (firstn n (chars s)).
Proof.
  unfold truncateUTF8; destruct (Nat.leb (List.length (chars s)) n) eqn:H; [|reflexivity].
  apply Nat.leb_le in H; rewrite firstn_all2 by exact H; symmetry; apply concat_chars.
Qed.

(** The characters of [truncateUTF8 s n] are the first [n] characters of
    [s]; so there are at most [n] of them and none is cut. *)
Lemma chars_truncateUTF8 (s : string) (n : nat) :
  chars (truncateUTF8 s n) = firstn n (chars s) /\
  (List.length (chars (truncateUTF8 s n)) <= n)%nat.
Proof.
  rewrite truncateUTF8_eq, chars_prefix; split; [reflexivity|].
  rewrite length_firstn; lia.
Qed.

End UTF8Facts.

(* ------------------------------------------------------------------ *)
(** ** Feed store *)
Module StoreFacts.
Import Store Normalize Score.
Local Open Scope Z_scope.

Lemma find_some_in {A} (p : A -> bool) (l : list A) (x : A) :
  find p l = Some x -> In x l /\ p x = true.
Proof.
  induction l as [|y l IH]; simpl; [discriminate|].
  destruct (p y) eqn:Py; [intros E; injection E as <-; auto|].
  intros E; destruct (IH E); auto.
Qed.

(** A successful upsert returns a row of the job's source that is in the
    table afterwards, whether it inserted it or refreshed it. *)
Lemma upsert_stored (fl : Faults) (db : DB) (j : FeedJob) :
  upsert_fails fl j = false ->
  exists r db1, UpsertFeedJob fl db j = (Some r, db1) /\
    fj_Source r = fj_Source j /\ In r (feed_jobs db1).
Proof.
  intros F; unfold UpsertFeedJob; rewrite F.
  destruct (find (same_key j) (feed_jobs db)) as [r|] eqn:E.
  - destruct (find_some_in _ _ _ E) as [Hin Hk].
    eexists; eexists; split; [reflexivity|]; split.
    + unfold same_key in Hk; apply andb_prop in Hk as [_ Hs].
      apply String.eqb_eq in Hs; exact Hs.
    + cbn; apply in_map_iff; exists r; split; [rewrite Hk; reflexivity|exact Hin].
  - eexists; eexists; split; [reflexivity|]; split; [reflexivity|].
    cbn; apply in_or_app; right; left; reflexivity.
Qed.

(** An upsert leaves the rows of other sources where they are. *)
Lemma upsert_keeps_other_sources (fl : Faults) (db : DB) (j x : FeedJob) :
  In x (feed_jobs db) -> fj_Source x <> fj_Source j ->
  In x (feed_jobs (snd (UpsertFeedJob fl db j))).
Proof.
  intros Hin Hs; unfold UpsertFeedJob.
  destruct (upsert_fails fl j); [exact Hin|].
  destruct (find (same_key j) (feed_jobs db)) as [r|]; cbn.
  - apply in_map_iff; exists x; split; [|exact Hin].
    destruct (same_key j x) eqn:K; [|reflexivity].
    unfold same_key in K; apply andb_prop in K as [_ K]; apply String.eqb_eq in K; contradiction.
  - apply in_or_app; left; exact Hin.
Qed.

Lemma lookup_score_some (user : User) (jobs : list FeedJob) (fid : nat) (sc : Z) :
  lookup_score (map (fun j => (fj_ID j, calculateMatchScore user j)) jobs) fid = Some sc ->
  exists j, In j jobs /\ fj_ID j = fid /\ sc = calculateMatchScore user j.
Proof.
  induction jobs as [|j js IH]; simpl; [discriminate|].
  destruct (lookup_score _ fid) as [w|] eqn:E.
  - intros H; injection H as ->; destruct (IH eq_refl) as (j' & I & F & S).
    exists j'; auto.
  - destruct (Nat.eqb (fj_ID j) fid) eqn:K; [|discriminate].
    intros H; injection H as <-; exists j; split; [left; reflexivity|].
    split; [apply Nat.eqb_eq; exact K|reflexivity].
Qed.

(** Every job loaded for a rescore is the row of its own id. *)
Lemma rescore_job_is_row (fl : Faults) (db : DB) (uid : nat) (jobs : list FeedJob) (j : FeedJob) :
  GetUserFeedForRescore fl db uid = Some jobs -> In j jobs ->
  find_row db (fj_ID j) = Some j.
Proof.
  unfold GetUserFeedForRescore; destruct (rescore_load_fails fl uid); [discriminate|].
  intros E; injection E as <-; intros Hin.
  apply in_flat_map in Hin as (l & _ & Hin).
  destruct (Nat.eqb (uf_UserID l) uid && negb (uf_Dismissed l)); [|destruct Hin].
  destruct (find_row db (uf_FeedJobID l)) as [r|] eqn:F; [|destruct Hin].
  destruct Hin as [<-|[]].
  unfold find_row in *; destruct (find_some_in _ _ _ F) as [_ K].
  apply Nat.eqb_eq in K; rewrite K; exact F.
Qed.

Lemma Forall2_map_r {A} (P : A -> A -> Prop) (f : A -> A) (l : list A) :
  (forall x, In x l -> P x (f x)) -> Forall2 P l (map f l).
Proof.
  induction l as [|x l IH]; intros H; constructor.
  - apply H; left; reflexivity.
  - apply IH; intros y Hy; apply H; right; exact Hy.
Qed.

End StoreFacts.

(* ------------------------------------------------------------------ *)
(** ** Normalizer *)
Module NormalizeFacts.
Import UTF8 Store Normalize Samples StoreFacts.
Local Open Scope Z_scope.

(** Every converter stamps its provider's name as the source, and the
    sanitizer leaves those names alone. *)
Lemma normalize_source (r : RawListing) :
  fj_Source (sanitizeFeedJob (normalize r)) = provider_name r.
Proof. destruct r; vm_compute; reflexivity. Qed.

(** The rows are keyed by (external id, source) and every converter sets
    the source to its provider, so upserting one listing from each of two
    different providers (both upserts succeeding) yields two distinct rows,
    both present afterwards, whatever their external ids. *)
Theorem distinct_providers_distinct_rows (fl : Faults) (db : DB) (r1 r2 : RawListing) :
  provider_name r1 <> provider_name r2 ->
  upsert_fails fl (sanitizeFeedJob (normalize r1)) = false ->
  upsert_fails fl (sanitizeFeedJob (normalize r2)) = false ->
  exists s1 s2 db1 db2,
    UpsertFeedJob fl db (sanitizeFeedJob (normalize r1)) = (Some s1, db1) /\
    UpsertFeedJob fl db1 (sanitizeFeedJob (normalize r2)) = (Some s2, db2) /\
    fj_Source s1 = provider_name r1 /\ fj_Source s2 = provider_name r2 /\
    s1 <> s2 /\ In s1 (feed_jobs db2) /\ In s2 (feed_jobs db2).
Proof.
  intros Hp F1 F2.
  destruct (upsert_stored fl db _ F1) as (s1 & db1 & U1 & S1 & I1).
  destruct (upsert_stored fl db1 _ F2) as (s2 & db2 & U2 & S2 & I2).
  rewrite normalize_source in S1, S2.
  exists s1, s2, db1, db2; repeat split; try assumption.
  - intros <-; congruence.
  - change db2 with (snd (Some s2, db2)); rewrite <- U2.
    apply upsert_keeps_other_sources; [exact I1|].
    rewrite S1, normalize_source; exact Hp.
Qed.

(** Claim C7, failing input: [convertJSearchJob] keeps JSearch's native
    [job_id] as the external id, with no provider prefix (unlike the
    ["remotive-"] and ["adzuna-"] of its sibling converters); a JSearch
    listing whose native id is [remotive-7] gets exactly the external id of
    Remotive listing 7. *)
Lemma jsearch_id_not_namespaced :
  provider_name (RJSearch jsearch_listing_r7) <> provider_name (RRemotive remotive_listing_7) /\
  fj_ExternalID (normalize (RJSearch jsearch_listing_r7)) = JobID jsearch_listing_r7 /\
  fj_ExternalID (normalize (RJSearch jsearch_listing_r7)) =
  fj_ExternalID (normalize (RRemotive remotive_listing_7)).
Proof. split; [discriminate|]; split; vm_compute; reflexivity. Qed.

(** Claim C8: the description of every normalized listing is its
    (markup-stripped) free text cut to its first 2000 characters: at most
    2000 characters, and each one whole. *)
Theorem normalize_description_truncated (r : RawListing) :
  chars (fj_Description (normalize r)) = firstn 2000 (chars (description_text r)) /\
  (List.length (chars (fj_Description (normalize r))) <= 2000)%nat.
Proof. destruct r; apply UTF8Facts.chars_truncateUTF8. Qed.

End NormalizeFacts.

(* ------------------------------------------------------------------ *)
(** ** Query planners *)
Module PlannerFacts.
Import Planner Samples.

(** Claim C6, failing input: for a remote profile with no roles, no
    skills and no experience, the JSearch planner falls back to
    ["software engineer"] while the Remotive planner returns no query. *)
Lemma remotive_planner_has_no_fallback :
  u_TargetRoles empty_remote_user = [] /\ u_Skills empty_remote_user = [] /\
  u_Experience empty_remote_user = [] /\ u_WorkStyle empty_remote_user = "remote" /\
  map jq_Query (BuildQueriesFromProfile empty_remote_user) = ["software engineer"] /\
  BuildRemotiveQueries empty_remote_user = [].
Proof. repeat split; vm_compute; reflexivity. Qed.

End PlannerFacts.

(* ------------------------------------------------------------------ *)
(** ** Refresh orchestrator *)
Module FeedFacts.
Import Store Normalize Planner Score Feed Samples StoreFacts.
Local Open Scope Z_scope.

Lemma res_bind {A B} (m : M A) (k : A -> M B) (db : DB) :
  res (bind m k) db = res (k (res m db)) (st m db).
Proof.
  unfold res, st, bind; destruct (m db) as [[a db1] e1]; simpl.
  destruct (k a db1) as [[b db2] e2]; reflexivity.
Qed.

Lemma st_bind {A B} (m : M A) (k : A -> M B) (db : DB) :
  st (bind m k) db = st (k (res m db)) (st m db).
Proof.
  unfold res, st, bind; destruct (m db) as [[a db1] e1]; simpl.
  destruct (k a db1) as [[b db2] e2]; reflexivity.
Qed.

Lemma evs_bind {A B} (m : M A) (k : A -> M B) (db : DB) :
  evs (bind m k) db = app (evs m db) (evs (k (res m db)) (st m db)).
Proof.
  unfold res, st, evs, bind; destruct (m db) as [[a db1] e1]; simpl.
  destruct (k a db1) as [[b db2] e2]; reflexivity.
Qed.

Lemma run_eq {A} (m : M A) (db : DB) : m db = (res m db, st m db, evs m db).
Proof. unfold res, st, evs; destruct (m db) as [[a b] c]; reflexivity. Qed.

(** A provider whose every planned query errors stores nothing and counts
    nothing; only its calls are observable. *)
Lemma query_loop_all_fail {Q R} (call : Q -> Event) (search : Search Q R)
    (convert : R -> FeedJob) (fl : Faults) (uid : nat) (user : User) (qs : list Q) (db : DB) :
  (forall q, In q qs -> search q = None) ->
  query_loop call search convert fl uid user qs db = ((0, 0), db, map call qs).
Proof.
  revert db; induction qs as [|q qs IH]; intros db Hf; [reflexivity|].
  simpl; unfold bind at 1, emit.
  rewrite (Hf q (or_introl eq_refl)).
  rewrite IH by (intros q' Hq'; apply Hf; right; exact Hq'); reflexivity.
Qed.

(** The run of a refresh of a found user, step by step. *)
Lemma RefreshUserFeed_run (env : Env) (uid : nat) (force : bool) (user : User) (db : DB) :
  FindByID env uid = Some user ->
  RefreshUserFeed env uid force db =
  match (if force then ret false else recently_refreshed (faults env) uid) db with
  | (true, db0, e0) => (Counts 0 0, db0, app e0 [])
  | (false, db0, e0) =>
    match runJSearch env user uid db0 with ((f1, n1), db1, e1) =>
    match runRemotive env user uid db1 with ((f2, n2), db2, e2) =>
    match runAdzuna env user uid db2 with ((f3, n3), db3, e3) =>
      (Counts (f1 + f2 + f3) (n1 + n2 + n3),
       LogRefresh (faults env) db3 uid "multi-source" (f1 + f2 + f3) (n1 + n2 + n3),
       app e0 (app e1 (app e2 (app e3 [WriteRefreshLog (f1 + f2 + f3) (n1 + n2 + n3)]))))
    end end end
  end.
Proof.
  intros H; unfold RefreshUserFeed; rewrite H; unfold bind.
  destruct ((if force then ret false else recently_refreshed (faults env) uid) db) as [[[] db0] e0];
    [reflexivity|].
  destruct (runJSearch env user uid db0) as [[[f1 n1] db1] e1].
  destruct (runRemotive env user uid db1) as [[[f2 n2] db2] e2].
  destruct (runAdzuna env user uid db2) as [[[f3 n3] db3] e3].
  reflexivity.
Qed.

(** A provider whose every planned query errors yields the same counts and
    database as a nil client. *)
Lemma runJSearch_all_fail (env : Env) (user : User) (uid : nat) (db : DB) :
  (forall c, jsearch env = Some c -> forall q, In q (BuildQueriesFromProfile user) -> c q = None) ->
  fst (runJSearch env user uid db) = fst (runJSearch (drop_jsearch env) user uid db).
Proof.
  intros Hf; unfold runJSearch; cbn [drop_jsearch jsearch].
  destruct (jsearch env) as [c|]; [|reflexivity].
  unfold refreshFromJSearch; rewrite query_loop_all_fail by (apply Hf; reflexivity).
  reflexivity.
Qed.

Lemma runRemotive_all_fail (env : Env) (user : User) (uid : nat) (db : DB) :
  (forall c, remotive env = Some c -> forall q, In q (BuildRemotiveQueries user) -> c q = None) ->
  fst (runRemotive env user uid db) = fst (runRemotive (drop_remotive env) user uid db).
Proof.
  intros Hf; unfold runRemotive; cbn [drop_remotive remotive].
  destruct (remotive env) as [c|]; [|reflexivity].
  unfold refreshFromRemotive.
  destruct (BuildRemotiveQueries user) as [|q qs] eqn:Eq; [reflexivity|].
  rewrite query_loop_all_fail by (apply Hf; reflexivity).
  reflexivity.
Qed.

Lemma runAdzuna_all_fail (env : Env) (user : User) (uid : nat) (db : DB) :
  (forall c, adzuna env = Some c -> forall q, In q (BuildAdzunaQueries user) -> c q = None) ->
  fst (runAdzuna env user uid db) = fst (runAdzuna (drop_adzuna env) user uid db).
Proof.
  intros Hf; unfold runAdzuna; cbn [drop_adzuna adzuna].
  destruct (adzuna env) as [c|]; [|reflexivity].
  unfold refreshFromAdzuna; rewrite query_loop_all_fail by (apply Hf; reflexivity).
  reflexivity.
Qed.

Lemma res_refresh (env : Env) (uid : nat) (force : bool) (user : User) (db : DB) :
  FindByID env uid = Some user ->
  res (RefreshUserFeed env uid force) db =
  match (if force then ret false else recently_refreshed (faults env) uid) db with
  | (true, _, _) => Counts 0 0
  | (false, db0, _) =>
    match fst (runJSearch env user uid db0) with ((f1, n1), db1) =>
    match fst (runRemotive env user uid db1) with ((f2, n2), db2) =>
    match fst (runAdzuna env user uid db2) with ((f3, n3), db3) =>
      Counts (f1 + f2 + f3) (n1 + n2 + n3)
    end end end
  end.
Proof.
  intros H; unfold res; rewrite (RefreshUserFeed_run env uid force user db H).
  destruct ((if force then ret false else recently_refreshed (faults env) uid) db) as [[[] db0] e0];
    [reflexivity|].
  destruct (runJSearch env user uid db0) as [[[f1 n1] db1] e1]; cbn [fst snd].
  destruct (runRemotive env user uid db1) as [[[f2 n2] db2] e2]; cbn [fst snd].
  destruct (runAdzuna env user uid db2) as [[[f3 n3] db3] e3]; cbn [fst snd].
  reflexivity.
Qed.

(** In the model (the runs in which no provider goroutine panics), a
    refresh of a found user always returns counts, never an error; and a
    provider whose every planned query errors is skipped: the counts are
    those of the same refresh without that provider. *)
Theorem refresh_succeeds_despite_provider_outages (env : Env) (uid : nat) (force : bool)
    (user : User) (db : DB) :
  FindByID env uid = Some user ->
  (exists f n, res (RefreshUserFeed env uid force) db = Counts f n) /\
  ((forall c, jsearch env = Some c -> forall q, In q (BuildQueriesFromProfile user) -> c q = None) ->
   res (RefreshUserFeed env uid force) db = res (RefreshUserFeed (drop_jsearch env) uid force) db) /\
  ((forall c, remotive env = Some c -> forall q, In q (BuildRemotiveQueries user) -> c q = None) ->
   res (RefreshUserFeed env uid force) db = res (RefreshUserFeed (drop_remotive env) uid force) db) /\
  ((forall c, adzuna env = Some c -> forall q, In q (BuildAdzunaQueries user) -> c q = None) ->
   res (RefreshUserFeed env uid force) db = res (RefreshUserFeed (drop_adzuna env) uid force) db).
Proof.
  intros H.
  assert (Hj : FindByID (drop_jsearch env) uid = Some user) by exact H.
  assert (Hr : FindByID (drop_remotive env) uid = Some user) by exact H.
  assert (Ha : FindByID (drop_adzuna env) uid = Some user) by exact H.
  rewrite (res_refresh env uid force user db H).
  rewrite (res_refresh _ uid force user db Hj), (res_refresh _ uid force user db Hr),
    (res_refresh _ uid force user db Ha).
  change (faults (drop_jsearch env)) with (faults env).
  change (faults (drop_remotive env)) with (faults env).
  change (faults (drop_adzuna env)) with (faults env).
  change (runJSearch (drop_remotive env)) with (runJSearch env).
  change (runJSearch (drop_adzuna env)) with (runJSearch env).
  change (runRemotive (drop_jsearch env)) with (runRemotive env).
  change (runRemotive (drop_adzuna env)) with (runRemotive env).
  change (runAdzuna (drop_jsearch env)) with (runAdzuna env).
  change (runAdzuna (drop_remotive env)) with (runAdzuna env).
  destruct ((if force then ret false else recently_refreshed (faults env) uid) db) as [[[] db0] e0].
  { split; [exists 0, 0; reflexivity|]; split; [|split]; reflexivity. }
  split; [|split; [|split]].
  - destruct (fst (runJSearch env user uid db0)) as [[f1 n1] db1].
    destruct (fst (runRemotive env user uid db1)) as [[f2 n2] db2].
    destruct (fst (runAdzuna env user uid db2)) as [[f3 n3] db3].
    eexists; eexists; reflexivity.
  - intros Hf; rewrite (runJSearch_all_fail env user uid db0 Hf).
    destruct (fst (runJSearch (drop_jsearch env) user uid db0)) as [[f1 n1] db1].
    reflexivity.
  - intros Hf.
    destruct (fst (runJSearch env user uid db0)) as [[f1 n1] db1].
    rewrite (runRemotive_all_fail env user uid db1 Hf). reflexivity.
  - intros Hf.
    destruct (fst (runJSearch env user uid db0)) as [[f1 n1] db1].
    destruct (fst (runRemotive env user uid db1)) as [[f2 n2] db2].
    rewrite (runAdzuna_all_fail env user uid db2 Hf). reflexivity.
Qed.

Lemma refresh_C2_witness :
  res (RefreshUserFeed env_one_listing 1 false) db_seeded =
  res (RefreshUserFeed (drop_remotive env_one_listing) 1 false) db_seeded.
Proof.
  apply (proj1 (proj2 (proj2 (refresh_succeeds_despite_provider_outages
           env_one_listing 1 false backend_user db_seeded eq_refl)))).
  intros c Hc q _; injection Hc as <-; reflexivity.
Defined.

(** A refresh that is not throttled writes its refresh-log entry. *)
Lemma refresh_not_throttled_not_noop (env : Env) (uid : nat) (force : bool) (user : User) (db : DB) :
  FindByID env uid = Some user ->
  fst (fst ((if force then ret false else recently_refreshed (faults env) uid) db)) = false ->
  RefreshUserFeed env uid force db <> (Counts 0 0, db, []).
Proof.
  intros H Ht; rewrite (RefreshUserFeed_run env uid force user db H).
  destruct ((if force then ret false else recently_refreshed (faults env) uid) db) as [[[] db0] e0];
    [discriminate Ht|].
  destruct (runJSearch env user uid db0) as [[[f1 n1] db1] e1].
  destruct (runRemotive env user uid db1) as [[[f2 n2] db2] e2].
  destruct (runAdzuna env user uid db2) as [[[f3 n3] db3] e3].
  cbn [fst snd]; intros E; injection E as _ _ _ E; clear - E.
  apply (f_equal (@List.length Event)) in E; rewrite !length_app in E; simpl in E; lia.
Qed.

(** Claim C3 (as the code has it): a refresh of a found user is the no-op
    [(0, 0)] with no provider call and no write iff [force] is false and
    the last-refresh lookup succeeds with a time within 2 hours; with
    [force] the throttle is bypassed. *)
Theorem refresh_noop_iff_throttled (env : Env) (uid : nat) (force : bool) (user : User) (db : DB) :
  FindByID env uid = Some user ->
  (RefreshUserFeed env uid force db = (Counts 0 0, db, []) <->
   force = false /\
   exists t, GetLastRefresh (faults env) db uid = inl (Some t) /\ clock db - t < 2 * 3600).
Proof.
  intros H; split.
  - intros E.
    destruct force.
    { exfalso; exact (refresh_not_throttled_not_noop env uid true user db H eq_refl E). }
    split; [reflexivity|].
    destruct (GetLastRefresh (faults env) db uid) as [[t|]|u] eqn:G.
    + exists t; split; [reflexivity|].
      destruct (clock db - t <? 2 * 3600) eqn:L; [apply Z.ltb_lt; exact L|].
      exfalso; apply (refresh_not_throttled_not_noop env uid false user db H); [|exact E].
      unfold recently_refreshed; rewrite G; exact L.
    + exfalso; apply (refresh_not_throttled_not_noop env uid false user db H); [|exact E].
      unfold recently_refreshed; cbn; rewrite G; reflexivity.
    + exfalso; apply (refresh_not_throttled_not_noop env uid false user db H); [|exact E].
      unfold recently_refreshed; cbn; rewrite G; reflexivity.
  - intros [-> [t [G L]]].
    rewrite (RefreshUserFeed_run env uid false user db H).
    unfold recently_refreshed; rewrite G.
    apply Z.ltb_lt in L; rewrite L; reflexivity.
Qed.

Lemma refresh_C3_witness :
  RefreshUserFeed env_one_listing 1 false db_recent = (Counts 0 0, db_recent, []).
Proof.
  apply (proj2 (refresh_noop_iff_throttled env_one_listing 1 false backend_user db_recent eq_refl)).
  split; [reflexivity|]; exists 99940; split; [reflexivity|vm_compute; reflexivity].
Defined.

(** Claim C3, counterexample: the user's last refresh was one minute ago,
    but the lookup fails; the refresh proceeds and calls the providers. *)
Lemma refresh_lookup_error_still_refreshes :
  FindByID env_lookup_fails 1 = Some backend_user /\
  In (mkLogEntry 1 "multi-source" 0 0 99940) (refresh_log db_recent) /\
  GetLastRefresh NoFaults db_recent 1 = inl (Some 99940) /\
  clock db_recent - 99940 < 2 * 3600 /\
  GetLastRefresh (faults env_lookup_fails) db_recent 1 = inr tt /\
  evs (RefreshUserFeed env_lookup_fails 1 false) db_recent <> [].
Proof.
  split; [reflexivity|]; split; [left; reflexivity|]; split; [reflexivity|].
  split; [vm_compute; reflexivity|]; split; [reflexivity|].
  intros E; vm_compute in E; discriminate E.
Qed.

(** A job counts as new exactly when its upsert returns a row and the link
    succeeds, whether the upsert inserted the row or refreshed an existing
    one. *)
Theorem upsertAndLink_true_iff_stored_and_linked (fl : Faults) (uid : nat) (user : User)
    (job : FeedJob) (db : DB) :
  res (upsertAndLink fl uid user job) db = true <->
  exists r db1, UpsertFeedJob fl db (sanitizeFeedJob job) = (Some r, db1) /\
                link_fails fl uid (fj_ID r) = false.
Proof.
  unfold upsertAndLink, res, bind, lift.
  destruct (UpsertFeedJob fl db (sanitizeFeedJob job)) as [[r|] db1] eqn:U; cbn.
  - unfold LinkJobToUser.
    destruct (link_fails fl uid (fj_ID r)) eqn:L.
    + cbn; split; [discriminate|]. intros (r' & db' & E & L'); injection E as <- <-; congruence.
    + split; [intros _; exists r, db1; split; [reflexivity|exact L]|].
      intros _; destruct (existsb _ _); reflexivity.
  - split; [discriminate|]. intros (r' & db' & E & _); discriminate E.
Qed.

(** Claim C1, failing input: the listing is already stored; a refresh whose two
    JSearch queries both return it adds no row but reports 2 new jobs,
    since the upsert's [ON CONFLICT DO UPDATE ... RETURNING] returns the
    existing row. *)
Lemma refresh_counts_refreshed_row_as_new :
  find (same_key (sanitizeFeedJob (convertJSearchJob acme_listing))) (feed_jobs db_seeded) <> None /\
  res (RefreshUserFeed env_one_listing 1 false) db_seeded = Counts 2 2 /\
  List.length (feed_jobs (st (RefreshUserFeed env_one_listing 1 false) db_seeded)) =
  List.length (feed_jobs db_seeded).
Proof.
  split; [vm_compute; discriminate|]; split; vm_compute; reflexivity.
Qed.

(** Claim C9: a rescore emits no provider call, leaves the jobs and the
    refresh log alone, and changes each link at most in its score, to the
    score of its job under the user's current profile; the dismissed and
    saved flags never change. *)
Theorem rescore_only_changes_scores (env : Env) (uid : nat) (db : DB) :
  evs (RescoreUserFeed env uid) db = [] /\
  feed_jobs (st (RescoreUserFeed env uid) db) = feed_jobs db /\
  refresh_log (st (RescoreUserFeed env uid) db) = refresh_log db /\
  Forall2 (rescored_link env db uid) (user_feed db) (user_feed (st (RescoreUserFeed env uid) db)).
Proof.
  assert (Refl : forall l, Forall2 (rescored_link env db uid) l l).
  { induction l as [|x l IH]; constructor; [|exact IH].
    repeat split; left; reflexivity. }
  unfold RescoreUserFeed, evs, st.
  destruct (FindByID env uid) as [user|] eqn:U; [|cbn; repeat split; apply Refl].
  destruct (GetUserFeedForRescore (faults env) db uid) as [[|j0 js]|] eqn:G;
    try (cbn; repeat split; apply Refl).
  unfold BatchUpdateMatchScores.
  destruct (batch_fails (faults env) uid); [cbn; repeat split; apply Refl|].
  cbn [fst snd]; split; [reflexivity|]; split; [reflexivity|]; split; [reflexivity|].
  cbn [user_feed set_user_feed]; apply Forall2_map_r; intros l _.
  destruct (Nat.eqb (uf_UserID l) uid) eqn:K; [|repeat split; left; reflexivity].
  destruct (lookup_score _ (uf_FeedJobID l)) as [sc|] eqn:L; [|repeat split; left; reflexivity].
  destruct (lookup_score_some _ _ _ _ L) as (j & Hin & Hid & ->).
  repeat split; right; split; [apply Nat.eqb_eq; exact K|].
  exists user, j; split; [exact U|]; split; [|reflexivity].
  rewrite <- Hid; exact (rescore_job_is_row _ _ _ _ _ G Hin).
Qed.

End FeedFacts.

(* ------------------------------------------------------------------ *)
Module PlannerShapeFacts.
Import Planner PlannerShapes.
Local Open Scope Z_scope.

Lemma in_firstn_in {A} (n : nat) (l : list A) (x : A) : In x (firstn n l) -> In x l.
Proof.
  intros H; rewrite <- (firstn_skipn n l); apply in_or_app; left; exact H.
Qed.

Lemma NoDup_firstn_map {A B} (f : A -> B) (n : nat) (l : list A) :
  NoDup (map f l) -> NoDup (map f (firstn n l)).
Proof.
  rewrite <- (firstn_skipn n l) at 1; rewrite map_app; apply NoDup_app_remove_r.
Qed.

Lemma mem_true (k : string) (seen : list string) : mem k seen = true <-> In k seen.
Proof.
  unfold mem; rewrite existsb_exists; split.
  - intros (x & Hx & E); apply String.eqb_eq in E; subst; exact Hx.
  - intros H; exists k; split; [exact H|apply String.eqb_refl].
Qed.

(** ** JSearch planner *)

Lemma js_add_inv (loc : string) (ro : bool) st query pages :
  (pages = 2 \/ pages = 3) -> js_inv loc ro st -> js_inv loc ro (js_add loc ro st query pages).
Proof.
  intros Hp (HF & Hk & Hd); destruct st as [qs seen]; unfold js_inv, js_add; cbn [fst snd] in *.
  destruct (String.eqb (TrimSpace query) "" || mem (ToLower (TrimSpace query)) seen) eqn:E;
    [exact (conj HF (conj Hk Hd))|].
  apply orb_false_iff in E as [_ E]; cbn [fst snd] in *.
  split; [|split].
  - apply Forall_app; split; [exact HF|constructor; [|constructor]].
    unfold js_shape; cbn; auto.
  - intros k; rewrite map_app, in_app_iff, Hk; cbn; tauto.
  - rewrite map_app; apply NoDup_app; [exact Hd|constructor; [intros []|constructor]|].
    intros x Hx [Hy|[]]; cbn in Hy; subst x.
    apply Hk in Hx; apply mem_true in Hx; congruence.
Qed.

Lemma js_roles_inv loc ro roles st :
  js_inv loc ro st -> js_inv loc ro (js_roles loc ro roles st).
Proof.
  revert st; induction roles as [|r rs IH]; intros st H; [exact H|]; cbn [js_roles].
  apply IH; destruct (negb (String.eqb (TrimSpace r) "")); [|exact H].
  apply js_add_inv; auto.
Qed.

Lemma js_exp_inv loc ro exps st :
  js_inv loc ro st -> js_inv loc ro (js_exp loc ro exps st).
Proof.
  revert st; induction exps as [|e es IH]; intros st H; [exact H|]; cbn [js_exp].
  destruct (Nat.ltb (length (fst st)) 6); [|exact H].
  apply IH; destruct (negb (String.eqb (TrimSpace (exp_Title e)) "")); [|exact H].
  apply js_add_inv; auto.
Qed.

Lemma js_build_inv (user : User) :
  let loc := u_Location user in
  let ro := EqualFold (u_WorkStyle user) "remote" in
  exists st, js_inv loc ro st /\
    BuildQueriesFromProfile user =
      match fst st with
      | [] => [mkJSearchQuery "software engineer" loc ro 2]
      | _ => firstn 8 (fst st)
      end.
Proof.
  intros loc ro; eexists; split; [|unfold BuildQueriesFromProfile; reflexivity].
  apply js_exp_inv.
  repeat first
    [ apply js_roles_inv
    | apply js_add_inv; [auto|]
    | match goal with |- js_inv _ _ (if ?b then _ else _) => destruct b end ].
  all: split; [constructor|split; [intros k; cbn; tauto|constructor]].
Qed.

(** X1: [BuildQueriesFromProfile] returns between one and eight queries, each with the user's location, [RemoteOnly] set exactly when the work style is "remote" (any case), and two or three pages. *)
Theorem jsearch_queries_shape (user : User) :
  let qs := BuildQueriesFromProfile user in
  (1 <= length qs <= 8)%nat /\
  Forall (fun q => jq_Location q = u_Location user /\
                   jq_RemoteOnly q = EqualFold (u_WorkStyle user) "remote" /\
                   (jq_NumPages q = 2 \/ jq_NumPages q = 3)) qs.
Proof.
  intros qs; destruct (js_build_inv user) as (st & (HF & _ & _) & E); unfold qs; rewrite E.
  destruct (fst st) as [|q r] eqn:Eq.
  - split; [cbn; lia|]; constructor; [cbn; auto|constructor].
  - split.
    + rewrite length_firstn; cbn [length]; lia.
    + apply Forall_forall; intros x Hx; apply in_firstn_in in Hx.
      rewrite Forall_forall in HF; exact (HF x Hx).
Qed.

(** X2: the queries of [BuildQueriesFromProfile] are pairwise distinct ignoring case. *)
Theorem jsearch_queries_distinct (user : User) :
  NoDup (map (fun q => ToLower (jq_Query q)) (BuildQueriesFromProfile user)).
Proof.
  destruct (js_build_inv user) as (st & (_ & _ & Hd) & E); rewrite E.
  destruct (fst st) as [|q r] eqn:Eq.
  - constructor; [intros []|constructor].
  - apply NoDup_firstn_map; exact Hd.
Qed.

(** ** Adzuna planner *)

Lemma az_add_inv user st kw : az_inv user st -> az_inv user (az_add user st kw).
Proof.
  intros (HF & HL); destruct st as [qs seen]; unfold az_inv, az_add; cbn [fst snd] in *.
  destruct (_ || _); [exact (conj HF HL)|]; cbn [fst snd] in *; split.
  - apply Forall_app; split; [exact HF|constructor; [|constructor]].
    unfold az_shape; cbn; repeat split; auto.
    destruct (EqualFold (u_WorkStyle user) "remote"); [split; [reflexivity|eexists; reflexivity]|reflexivity].
  - rewrite length_app; cbn; lia.
Qed.

Lemma az_roles_inv user roles st : az_inv user st -> az_inv user (az_roles user roles st).
Proof.
  revert st; induction roles as [|r rs IH]; intros st H; [exact H|]; cbn.
  apply IH; destruct (negb _); [apply az_add_inv|]; exact H.
Qed.

Lemma az_add_grows user st kw :
  fst st = [] -> az_inv user st -> TrimSpace kw = kw -> ToLower kw = kw -> kw <> "" ->
  length (fst (az_add user st kw)) = 1%nat.
Proof.
  intros E (_ & HL) T L N; destruct st as [qs seen]; cbn in E; subst qs.
  cbn in HL; destruct seen; [|discriminate]; unfold az_add; rewrite T, L.
  destruct (String.eqb kw "") eqn:K; [apply String.eqb_eq in K; contradiction|reflexivity].
Qed.

Lemma az_add_length_mono user st kw : (length (fst st) <= length (fst (az_add user st kw)))%nat.
Proof.
  destruct st as [qs seen]; unfold az_add; cbn [fst snd].
  destruct (_ || _); cbn [fst]; [lia|rewrite length_app; cbn [length]; lia].
Qed.

Lemma az_fallback_inv user st :
  az_inv user st ->
  let st' := match fst st with
             | [] => az_add user (az_add user st "software engineer") "developer"
             | _ => st
             end in
  az_inv user st' /\ (1 <= length (fst st'))%nat.
Proof.
  intros H; destruct (fst st) as [|q r] eqn:E; cbv zeta.
  - split; [apply az_add_inv, az_add_inv, H|].
    pose proof (az_add_grows user st "software engineer" E H eq_refl eq_refl ltac:(discriminate)) as G.
    pose proof (az_add_length_mono user (az_add user st "software engineer") "developer"); lia.
  - split; [exact H|rewrite E; cbn [length]; lia].
Qed.

Lemma az_build_inv (user : User) :
  exists st, az_inv user st /\
    BuildAdzunaQueries user =
      firstn 6 (fst (match fst st with
                     | [] => az_add user (az_add user st "software engineer") "developer"
                     | _ => st
                     end)).
Proof.
  eexists; split; [|unfold BuildAdzunaQueries; reflexivity].
  repeat first
    [ apply az_roles_inv
    | apply az_add_inv
    | match goal with
      | |- az_inv _ (if ?b then _ else _) => destruct b
      | |- az_inv _ (match ?l with [] => _ | _ :: _ => _ end) => destruct l
      end ].
  all: split; [constructor|reflexivity].
Qed.

(** X3: [BuildAdzunaQueries] returns between one and six queries, each for the US, 50 results per page, at most 30 days old, full time, with the user's minimum salary; for a remote user the location is empty and the keywords end in " remote", otherwise the location is the user's. *)
Theorem adzuna_queries_shape (user : User) :
  let qs := BuildAdzunaQueries user in
  (1 <= length qs <= 6)%nat /\ Forall (az_shape user) qs.
Proof.
  intros qs; unfold qs; destruct (az_build_inv user) as (st & H & E); rewrite E.
  destruct (az_fallback_inv user st H) as [(HF & _) L].
  split.
  - rewrite length_firstn; lia.
  - apply Forall_forall; intros x Hx; apply in_firstn_in in Hx.
    rewrite Forall_forall in HF; exact (HF x Hx).
Qed.

(** ** Remotive planner *)

Lemma lookup_cat_in k m v : lookup_cat k m = Some v -> In v (map snd m).
Proof.
  induction m as [|[k' v'] m IH]; cbn; [discriminate|].
  destruct (String.eqb k k'); [intros E; injection E as <-; left; reflexivity|].
  intros E; right; exact (IH E).
Qed.

Lemma empty_not_category : ~ In "" (map snd remotiveCategoryMap).
Proof. cbn; intuition discriminate. Qed.

Lemma rm_cats_app qs x : rm_cats (app qs [x]) = app (rm_cats qs) (rm_cats [x]).
Proof. unfold rm_cats; rewrite filter_app, map_app; reflexivity. Qed.

Lemma rm_cats_plain qs : Forall (fun q => rq_Category q = "") qs -> rm_cats qs = [].
Proof.
  induction 1 as [|q qs Hq _ IH]; [reflexivity|].
  unfold rm_cats in *; cbn; rewrite Hq; exact IH.
Qed.

Lemma rm_roles_plain roles st :
  Forall (fun q => rq_Category q = "") (fst st) ->
  Forall (fun q => rq_Category q = "") (fst (rm_roles roles st)).
Proof.
  revert st; induction roles as [|r rs IH]; intros [qs seen] H; [exact H|]; cbn [rm_roles].
  destruct (_ && _); apply IH; [|exact H].
  apply Forall_app; split; [exact H|constructor; [reflexivity|constructor]].
Qed.

Lemma rm_categories_inv skills qs used :
  Forall rm_shape qs -> (forall c, In c (rm_cats qs) <-> In c used) -> NoDup (rm_cats qs) ->
  let qs' := rm_categories skills qs used in Forall rm_shape qs' /\ NoDup (rm_cats qs').
Proof.
  revert qs used; induction skills as [|sk sks IH]; intros qs used HF Hk Hd; cbn [rm_categories].
  - split; assumption.
  - destruct (Nat.leb 5 (length qs)); [split; assumption|].
    destruct (lookup_cat (ToLower sk) remotiveCategoryMap) as [cat|] eqn:L; [|apply IH; assumption].
    destruct (negb (mem cat used)) eqn:M; [|apply IH; assumption].
    apply lookup_cat_in in L.
    assert (Hne : String.eqb cat "" = false).
    { apply String.eqb_neq; intros ->; exact (empty_not_category L). }
    assert (Hc : rm_cats [mkRemotiveQuery "" cat 50] = [cat]) by (unfold rm_cats; cbn; rewrite Hne; reflexivity).
    apply IH.
    + apply Forall_app; split; [exact HF|constructor; [right; cbn; auto|constructor]].
    + intros c; rewrite rm_cats_app, Hc, in_app_iff, Hk; cbn; tauto.
    + rewrite rm_cats_app, Hc; apply NoDup_app; [exact Hd|constructor; [intros []|constructor]|].
      intros x Hx [<-|[]]; apply Hk, mem_true in Hx; apply negb_true_iff in M; congruence.
Qed.

Lemma rm_cats_firstn n qs : NoDup (rm_cats qs) -> NoDup (rm_cats (firstn n qs)).
Proof.
  unfold rm_cats; rewrite <- (firstn_skipn n qs) at 1; rewrite filter_app, map_app.
  apply NoDup_app_remove_r.
Qed.

(** X4: [BuildRemotiveQueries] returns at most six queries; their non-empty categories are pairwise distinct, and a query with a category has an empty search, limit 50 and a category of the category map. *)
Theorem remotive_categories_distinct (user : User) :
  let qs := BuildRemotiveQueries user in
  (length qs <= 6)%nat /\ NoDup (rm_cats qs) /\ Forall rm_shape qs.
Proof.
  intros qs; unfold qs, BuildRemotiveQueries.
  destruct (EqualFold (u_WorkStyle user) "onsite"); [split; [cbn; lia|split; constructor]|].
  pose proof (rm_roles_plain (u_TargetRoles user) ([], []) (Forall_nil _)) as H0.
  destruct (rm_roles (u_TargetRoles user) ([], [])) as [q0 s0]; cbn [fst] in H0.
  assert (H1 : forall q1 s1,
    Forall (fun q => rq_Category q = "") q1 ->
    let qs := firstn 6
      (let queries := rm_categories (u_Skills user) q1 [] in
       match u_Experience user with
       | e :: _ =>
           if Nat.ltb (length queries) 6 then
             if negb (String.eqb (TrimSpace (exp_Title e)) "") &&
                negb (mem (ToLower (TrimSpace (exp_Title e))) s1)
             then app queries [mkRemotiveQuery (TrimSpace (exp_Title e)) "" 30] else queries
           else queries
       | [] => queries
       end) in
    (length qs <= 6)%nat /\ NoDup (rm_cats qs) /\ Forall rm_shape qs).
  { intros q1 s1 Hq1; cbv zeta.
    assert (Hs : Forall rm_shape q1).
    { apply Forall_forall; intros x Hx; rewrite Forall_forall in Hq1; left; exact (Hq1 x Hx). }
    destruct (rm_categories_inv (u_Skills user) q1 [] Hs
                ltac:(rewrite (rm_cats_plain q1 Hq1); tauto)
                ltac:(rewrite (rm_cats_plain q1 Hq1); constructor)) as [HF Hd].
    set (c := rm_categories (u_Skills user) q1 []) in *.
    assert (Hx : forall x, rq_Category x = "" ->
              Forall rm_shape (app c [x]) /\ NoDup (rm_cats (app c [x]))).
    { intros x Ex; split.
      - apply Forall_app; split; [exact HF|constructor; [left; exact Ex|constructor]].
      - rewrite rm_cats_app; unfold rm_cats at 2; cbn; rewrite Ex; cbn; rewrite app_nil_r; exact Hd. }
    assert (G : forall l, Forall rm_shape l -> NoDup (rm_cats l) ->
              (length (firstn 6 l) <= 6)%nat /\ NoDup (rm_cats (firstn 6 l)) /\ Forall rm_shape (firstn 6 l)).
    { intros l HFl Hdl; split; [rewrite length_firstn; lia|split; [apply rm_cats_firstn; exact Hdl|]].
      apply Forall_forall; intros y Hy; apply in_firstn_in in Hy; rewrite Forall_forall in HFl; exact (HFl y Hy). }
    destruct (u_Experience user) as [|e es]; [apply G; assumption|].
    destruct (Nat.ltb _ 6); [|apply G; assumption].
    destruct (_ && _); [|apply G; assumption].
    destruct (Hx (mkRemotiveQuery (TrimSpace (exp_Title e)) "" 30) eq_refl); apply G; assumption. }
  destruct (Nat.ltb 0 _ && Nat.ltb (length q0) 3); [destruct (negb _)|]; apply H1; try exact H0.
  apply Forall_app; split; [exact H0|constructor; [reflexivity|constructor]].
Qed.

End PlannerShapeFacts.

Module JSearchClientFacts.
Import Normalize Planner JSearchClient.
Local Open Scope Z_scope.

Lemma num_pages_range (q : JSearchQuery) : 1 <= num_pages q <= 5.
Proof.
  unfold num_pages; destruct ((jq_NumPages q <=? 0) || (5 <? jq_NumPages q)) eqn:E; [lia|].
  apply orb_false_iff in E as [E1 E2]; apply Z.leb_gt in E1; apply Z.ltb_ge in E2; lia.
Qed.

Lemma page_loop_pages fetch fuel page :
  (1 <= fuel)%nat ->
  exists k, snd (page_loop fetch fuel page) = map (fun i => page + Z.of_nat i) (seq 0 k) /\
            (1 <= k <= fuel)%nat.
Proof.
  revert page; induction fuel as [|f IH]; intros page Hf; [lia|]; cbn [page_loop].
  assert (One : [page] = map (fun i => page + Z.of_nat i) (seq 0 1)) by (cbn; f_equal; lia).
  destruct (fetch page) as [results|]; [|exists 1%nat; split; [exact One|lia]].
  destruct (Nat.ltb (length results) 10); [exists 1%nat; split; [exact One|lia]|].
  destruct f as [|f].
  - exists 1%nat; split; [exact One|lia].
  - destruct (IH (page + 1) ltac:(lia)) as (k & Hk & Hr).
    destruct (page_loop fetch (S f) (page + 1)) as [rest pages]; cbn [snd] in *.
    exists (S k); split; [|lia].
    rewrite Hk; cbn [seq map]; f_equal; [lia|].
    rewrite <- seq_shift, map_map; apply map_ext; intros i; lia.
Qed.

(** X5: [Search] fails exactly when the API key is empty; otherwise it requests pages 1, 2, ..., k in order, with at least one page and at most the effective page count, which is at most 5. *)
Theorem jsearch_search_pages (c : Client) (q : JSearchQuery) :
  (fst (Search c q) = None <-> apiKey c = "") /\
  (apiKey c <> "" ->
   exists k, snd (Search c q) = map Z.of_nat (seq 1 k) /\
             (1 <= k)%nat /\ Z.of_nat k <= num_pages q <= 5).
Proof.
  unfold Search; destruct (String.eqb (apiKey c) "") eqn:K.
  - apply String.eqb_eq in K; split; [tauto|intros N; contradiction].
  - apply String.eqb_neq in K.
    pose proof (num_pages_range q) as R.
    destruct (page_loop_pages (fetchPage c (search_query q) (jq_RemoteOnly q))
                (Z.to_nat (num_pages q)) 1 ltac:(lia)) as (k & Hk & Hr).
    destruct (page_loop _ _ _) as [results pages]; cbn [fst snd] in *.
    split; [split; [discriminate|intros E; contradiction]|].
    intros _; exists k; split; [|lia].
    rewrite Hk, <- seq_shift, map_map; apply map_ext; intros i; lia.
Qed.

End JSearchClientFacts.

Module ConvertFacts.
Import Normalize Score.
Local Open Scope Z_scope.

(** X6: the job type of a normalised listing is one of full-time, part-time, contract and internship. *)
Theorem normalize_job_type (r : RawListing) :
  In (fj_JobType (normalize r)) ["full-time"; "part-time"; "contract"; "internship"].
Proof.
  destruct r as [js|rj|aj]; cbn [normalize].
  - unfold convertJSearchJob; cbv zeta; cbn [fj_JobType].
    repeat match goal with |- context [if ?b then _ else _] => destruct b end; cbn; tauto.
  - unfold convertRemotiveJob; cbv zeta; cbn [fj_JobType].
    repeat match goal with |- context [if ?b then _ else _] => destruct b end; cbn; tauto.
  - unfold convertAdzunaJob; cbv zeta; cbn [fj_JobType].
    repeat match goal with |- context [if ?b then _ else _] => destruct b end; cbn; tauto.
Qed.

Lemma Contains_HasPrefix (s p : string) : HasPrefix s p = true -> Contains s p = true.
Proof. destruct s; cbn; intros ->; reflexivity. Qed.

Lemma HasPrefix_app (p s : string) : HasPrefix (p ++ s) p = true.
Proof. induction p as [|c p IH]; cbn; [destruct s; reflexivity|rewrite Ascii.eqb_refl; exact IH]. Qed.

Lemma ToLower_app (a b : string) : ToLower (a ++ b) = ToLower a ++ ToLower b.
Proof. induction a as [|c a IH]; cbn; [reflexivity|rewrite IH; reflexivity]. Qed.

Lemma HasPrefix_nil (s : string) : HasPrefix s "" = true.
Proof. destruct s; reflexivity. Qed.

Lemma remotive_location_remote (rj : RemotiveJob) :
  exists rest, fj_Location (convertRemotiveJob rj) = "Remote" ++ rest.
Proof.
  unfold convertRemotiveJob; cbv zeta; cbn [fj_Location].
  destruct (_ && _); [eexists; reflexivity|exists ""; reflexivity].
Qed.

(** X7: a converted Remotive listing earns no salary points, and earns the full 5 location points for a user whose work style is "remote" (any case). *)
Theorem remotive_location_and_salary_points (u : User) (rj : RemotiveJob) :
  salary_points u (convertRemotiveJob rj) = 0 /\
  (u_WorkStyle u <> "" -> EqualFold (u_WorkStyle u) "remote" = true ->
   location_points u (convertRemotiveJob rj) = 5).
Proof.
  split.
  - unfold salary_points; cbn [fj_SalaryMax convertRemotiveJob].
    destruct (0 <? u_SalaryMin u); reflexivity.
  - intros Hw He; unfold location_points.
    destruct (remotive_location_remote rj) as [rest E]; rewrite E.
    apply String.eqb_neq in Hw; rewrite Hw, He; simpl; rewrite HasPrefix_nil; reflexivity.
Qed.

End ConvertFacts.

Module ItoaFacts.
Import Normalize DigitStrings.
Local Open Scope Z_scope.

Lemma digits_acc_app (f : nat) (n : Z) (a b : string) :
  digits_acc f n (a ++ b) = digits_acc f n a ++ b.
Proof.
  revert n a; induction f as [|f IH]; intros n a; cbn [digits_acc]; [reflexivity|].
  destruct (n <? 10); [reflexivity|].
  exact (IH (n / 10) (String _ a)).
Qed.

Lemma digits_acc_S (f : nat) (n : Z) :
  digits_acc (S f) n "" =
  if n <? 10 then String (dchar n) "" else digits_acc f (n / 10) "" ++ String (dchar n) "".
Proof.
  cbn [digits_acc]; destruct (n <? 10); [reflexivity|].
  exact (digits_acc_app f (n / 10) "" (String (dchar n) "")).
Qed.

Lemma dchar_mod (n m : Z) : dchar n = dchar m -> n mod 10 = m mod 10.
Proof.
  unfold dchar; intros E.
  assert (Hn := Z.mod_pos_bound n 10 ltac:(lia)); assert (Hm := Z.mod_pos_bound m 10 ltac:(lia)).
  apply (f_equal nat_of_ascii) in E.
  rewrite !nat_ascii_embedding in E by lia; lia.
Qed.

Lemma sapp_single_inj (x y : string) (a b : ascii) :
  x ++ String a "" = y ++ String b "" -> x = y /\ a = b.
Proof.
  revert y; induction x as [|c x IH]; intros [|d y] E; cbn in E.
  - injection E as ->; auto.
  - injection E as _ E; destruct y; discriminate.
  - injection E as _ E; destruct x; discriminate.
  - injection E as -> E; destruct (IH y E) as [-> ->]; auto.
Qed.

Lemma digits_nonempty (f : nat) (n : Z) : digits_acc (S f) n "" <> "".
Proof.
  rewrite digits_acc_S; destruct (n <? 10); [discriminate|].
  destruct (digits_acc f (n / 10) ""); discriminate.
Qed.

Lemma digits_inj (f : nat) (n m : Z) :
  0 <= n < 10 ^ Z.of_nat f -> 0 <= m < 10 ^ Z.of_nat f ->
  digits_acc f n "" = digits_acc f m "" -> n = m.
Proof.
  revert n m; induction f as [|f IH]; intros n m Hn Hm E; [cbn in *; lia|].
  rewrite Nat2Z.inj_succ, Z.pow_succ_r in Hn, Hm by lia.
  rewrite !digits_acc_S in E.
  destruct (n <? 10) eqn:Ln, (m <? 10) eqn:Lm.
  - injection E as E; apply dchar_mod in E.
    apply Z.ltb_lt in Ln; apply Z.ltb_lt in Lm; rewrite !Z.mod_small in E by lia; exact E.
  - exfalso; apply Z.ltb_ge in Lm.
    destruct f as [|f]; [cbn in Hm; lia|].
    destruct (digits_acc (S f) (m / 10) "") eqn:D; [exact (digits_nonempty f _ D)|].
    cbn [String.append] in E; injection E as _ E; destruct s; discriminate.
  - exfalso; apply Z.ltb_ge in Ln.
    destruct f as [|f]; [cbn in Hn; lia|].
    destruct (digits_acc (S f) (n / 10) "") eqn:D; [exact (digits_nonempty f _ D)|].
    cbn [String.append] in E; injection E as _ E; destruct s; discriminate.
  - apply sapp_single_inj in E as [E1 E2]; apply dchar_mod in E2.
    assert (n / 10 = m / 10).
    { apply IH; [split; [apply Z.div_pos; lia|apply Z.div_lt_upper_bound; lia]
                |split; [apply Z.div_pos; lia|apply Z.div_lt_upper_bound; lia]|exact E1]. }
    rewrite (Z.div_mod n 10), (Z.div_mod m 10) by lia; lia.
Qed.

Lemma all_digits_app (a b : string) : all_digits (a ++ b) = all_digits a && all_digits b.
Proof. induction a as [|c a IH]; cbn; [reflexivity|rewrite IH, !andb_assoc; reflexivity]. Qed.

Lemma dchar_digit (n : Z) : all_digits (String (dchar n) "") = true.
Proof.
  unfold dchar; assert (H := Z.mod_pos_bound n 10 ltac:(lia)); cbn [all_digits].
  rewrite nat_ascii_embedding by lia.
  rewrite andb_true_r; apply andb_true_intro; split; apply Nat.leb_le; lia.
Qed.

Lemma digits_all (f : nat) (n : Z) : all_digits (digits_acc f n "") = true.
Proof.
  revert n; induction f as [|f IH]; intros n; [reflexivity|].
  rewrite digits_acc_S; destruct (n <? 10); [apply dchar_digit|].
  rewrite all_digits_app, IH; apply dchar_digit.
Qed.

Lemma sapp_cancel_l (p x y : string) : p ++ x = p ++ y -> x = y.
Proof.
  induction p as [|c p IH]; cbn [String.append]; [exact (fun H => H)|].
  intros H; apply IH; injection H as H; exact H.
Qed.

Lemma Itoa_inj (n m : Z) :
  - 10 ^ 64 < n < 10 ^ 64 -> - 10 ^ 64 < m < 10 ^ 64 -> Itoa n = Itoa m -> n = m.
Proof.
  intros Hn Hm; unfold Itoa.
  destruct (n <? 0) eqn:Ln, (m <? 0) eqn:Lm; intros E.
  - apply (sapp_cancel_l "-") in E; apply Z.ltb_lt in Ln; apply Z.ltb_lt in Lm.
    assert (- n = - m); [|lia].
    apply (digits_inj 64); [change (Z.of_nat 64) with 64; lia|change (Z.of_nat 64) with 64; lia|exact E].
  - exfalso; pose proof (digits_all 64 m) as D; rewrite <- E in D.
    cbn [String.append all_digits] in D; discriminate.
  - exfalso; pose proof (digits_all 64 n) as D; rewrite E in D.
    cbn [String.append all_digits] in D; discriminate.
  - apply Z.ltb_ge in Ln; apply Z.ltb_ge in Lm.
    apply (digits_inj 64); [change (Z.of_nat 64) with 64; lia|change (Z.of_nat 64) with 64; lia|exact E].
Qed.

(** X8: Remotive listings with distinct 64-bit ids get distinct external ids. *)
Theorem remotive_external_ids_distinct (a b : RemotiveJob) :
  - 2 ^ 63 <= rj_ID a < 2 ^ 63 -> - 2 ^ 63 <= rj_ID b < 2 ^ 63 ->
  rj_ID a <> rj_ID b ->
  fj_ExternalID (convertRemotiveJob a) <> fj_ExternalID (convertRemotiveJob b).
Proof.
  intros Ha Hb Hab E; cbn [convertRemotiveJob fj_ExternalID] in E.
  apply sapp_cancel_l in E.
  assert (B : 2 ^ 63 < 10 ^ 64) by (vm_compute; reflexivity).
  apply Hab, Itoa_inj; [lia|lia|exact E].
Qed.

Lemma remotive_external_ids_distinct_witness :
  (- 2 ^ 63 <= rj_ID Samples.remotive_listing_7 < 2 ^ 63) /\
  (- 2 ^ 63 <= rj_ID StoreSamples.remotive_listing_8 < 2 ^ 63) /\
  rj_ID Samples.remotive_listing_7 <> rj_ID StoreSamples.remotive_listing_8 /\
  fj_ExternalID (convertRemotiveJob Samples.remotive_listing_7) <>
  fj_ExternalID (convertRemotiveJob StoreSamples.remotive_listing_8).
Proof.
  assert (H7 : - 2 ^ 63 <= rj_ID Samples.remotive_listing_7 < 2 ^ 63) by (simpl; lia).
  assert (H8 : - 2 ^ 63 <= rj_ID StoreSamples.remotive_listing_8 < 2 ^ 63) by (simpl; lia).
  assert (D : rj_ID Samples.remotive_listing_7 <> rj_ID StoreSamples.remotive_listing_8) by (simpl; lia).
  split; [exact H7|split; [exact H8|split; [exact D|]]].
  exact (remotive_external_ids_distinct _ _ H7 H8 D).
Defined.


End ItoaFacts.

Module ScoreShapeFacts.
Import Score ScoreFacts.
Local Open Scope Z_scope.




Lemma score_parts (u : User) (j : FeedJob) :
  let t := ToLower (fj_Title j) in
  let x := ToLower (fj_Title j ++ " " ++ fj_Description j) in
  calculateMatchScore u j =
    Z.min 100 (30 + role_points u t x + skill_points u j x + location_points u j + salary_points u j).
Proof.
  intros t x; unfold calculateMatchScore; fold t x.
  destruct (100 <? _) eqn:E; [apply Z.ltb_lt in E|apply Z.ltb_ge in E]; lia.
Qed.


(** X10: a user with no target roles and no skills gets a score between 30 and 40 for every listing. *)
Theorem score_without_roles_or_skills (u : User) (j : FeedJob) :
  u_TargetRoles u = [] -> u_Skills u = [] -> 30 <= calculateMatchScore u j <= 40.
Proof.
  intros Hr Hs; rewrite score_parts.
  unfold role_points, skill_points; rewrite Hr, Hs.
  pose proof (location_points_range u j); pose proof (salary_points_range u j); lia.
Qed.

Lemma score_without_roles_or_skills_witness :
  u_TargetRoles Samples.empty_remote_user = [] /\ u_Skills Samples.empty_remote_user = [] /\
  30 <= calculateMatchScore Samples.empty_remote_user StoreSamples.acme_row <= 40.
Proof.
  split; [reflexivity|split; [reflexivity|]].
  apply score_without_roles_or_skills; reflexivity.
Defined.


(** X11: the score depends only on the title, description, required skills, location and maximum salary of the listing. *)
Theorem score_reads_only_scored_fields (u : User) (j j' : FeedJob) :
  fj_Title j' = fj_Title j -> fj_Description j' = fj_Description j ->
  fj_RequiredSkills j' = fj_RequiredSkills j -> fj_Location j' = fj_Location j ->
  fj_SalaryMax j' = fj_SalaryMax j ->
  calculateMatchScore u j' = calculateMatchScore u j.
Proof.
  intros E1 E2 E3 E4 E5.
  unfold calculateMatchScore, skill_points, location_points, salary_points.
  rewrite E1, E2, E3, E4, E5; reflexivity.
Qed.

Lemma score_reads_only_scored_fields_witness :
  calculateMatchScore Samples.backend_user (Store.with_id StoreSamples.acme_row 7) =
  calculateMatchScore Samples.backend_user StoreSamples.acme_row.
Proof. apply score_reads_only_scored_fields; reflexivity. Defined.


End ScoreShapeFacts.

Module RefreshFacts.
Import Store Normalize Planner Score Feed Invariants RefreshRelations FeedFacts.
Local Open Scope Z_scope.

Lemma st_ret {A} (a : A) (db : DB) : st (ret a) db = db.
Proof. reflexivity. Qed.

Lemma st_emit (e : Event) (db : DB) : st (emit e) db = db.
Proof. reflexivity. Qed.

Lemma st_lift {A} (f : DB -> A * DB) (db : DB) : st (lift f) db = snd (f db).
Proof. unfold st, lift; destruct (f db); reflexivity. Qed.

Lemma res_lift {A} (f : DB -> A * DB) (db : DB) : res (lift f) db = fst (f db).
Proof. unfold res, lift; destruct (f db); reflexivity. Qed.

Section Preserved.
Variable R : DB -> DB -> Prop.
Hypothesis R_refl : forall db, R db db.
Hypothesis R_trans : forall a b c, R a b -> R b c -> R a c.
Hypothesis R_upsert : forall fl db j, R db (snd (UpsertFeedJob fl db j)).
Hypothesis R_link : forall fl db u f s, R db (snd (LinkJobToUser fl db u f s)).

Lemma bind_preserves {A B} (m : M A) (k : A -> M B) :
  (forall db, R db (st m db)) -> (forall a db, R db (st (k a) db)) ->
  forall db, R db (st (bind m k) db).
Proof.
  intros Hm Hk db; rewrite st_bind; eapply R_trans; [apply Hm|apply Hk].
Qed.

Lemma upsertAndLink_preserves fl uid user job db : R db (st (upsertAndLink fl uid user job) db).
Proof.
  revert db; unfold upsertAndLink; apply bind_preserves.
  - intros db; rewrite st_lift; apply R_upsert.
  - intros [stored|] db; [rewrite st_lift; apply R_link|apply R_refl].
Qed.

Lemma link_results_preserves {X} (convert : X -> FeedJob) fl uid user results db :
  R db (st (link_results convert fl uid user results) db).
Proof.
  revert db; induction results as [|r rs IH]; intros db; [apply R_refl|]; cbn [link_results].
  revert db; apply bind_preserves; [intros; apply upsertAndLink_preserves|intros ok].
  apply bind_preserves; [exact IH|intros n db; apply R_refl].
Qed.

Lemma query_loop_preserves {Q X} (call : Q -> Event) (search : Search Q X) convert fl uid user qs db :
  R db (st (query_loop call search convert fl uid user qs) db).
Proof.
  revert db; induction qs as [|q qs IH]; intros db; [apply R_refl|]; cbn [query_loop].
  revert db; apply bind_preserves; [intros; apply R_refl|intros u].
  destruct (search q) as [results|]; [|exact IH].
  apply bind_preserves; [intros; apply link_results_preserves|intros n].
  apply bind_preserves; [exact IH|intros [f n'] db; apply R_refl].
Qed.

Lemma runs_preserve env user uid db :
  R db (st (runJSearch env user uid) db) /\ R db (st (runRemotive env user uid) db) /\
  R db (st (runAdzuna env user uid) db).
Proof.
  unfold runJSearch, runRemotive, runAdzuna.
  split; [|split].
  - destruct (jsearch env); [apply query_loop_preserves|apply R_refl].
  - destruct (remotive env); [|apply R_refl]; unfold refreshFromRemotive.
    destruct (BuildRemotiveQueries user); [apply R_refl|apply query_loop_preserves].
  - destruct (adzuna env); [apply query_loop_preserves|apply R_refl].
Qed.

Lemma refresh_preserves (R_log : forall fl db u q f n, R db (LogRefresh fl db u q f n))
    env uid force db :
  R db (st (RefreshUserFeed env uid force) db).
Proof.
  revert db; unfold RefreshUserFeed; destruct (FindByID env uid) as [user|]; [|intros; apply R_refl].
  apply bind_preserves.
  - intros db; destruct force; [apply R_refl|].
    unfold recently_refreshed, st; destruct (GetLastRefresh _ db uid) as [[t|]|]; apply R_refl.
  - intros [] ; [intros; apply R_refl|].
    apply bind_preserves; [intros; apply runs_preserve|intros [f1 n1]].
    apply bind_preserves; [intros; apply runs_preserve|intros [f2 n2]].
    apply bind_preserves; [intros; apply runs_preserve|intros [f3 n3]].
    apply bind_preserves; [intros; apply R_refl|intros u].
    apply bind_preserves; [intros db; rewrite st_lift; apply R_log|intros u' db; apply R_refl].
Qed.

End Preserved.

(** *** Links keep their flags *)

Lemma same_link_flags_refl (l : list Link) : Forall2 same_link_flags l l.
Proof. induction l; constructor; [unfold same_link_flags; auto|assumption]. Qed.

Lemma same_link_flags_trans (l1 l2 l3 : list Link) :
  Forall2 same_link_flags l1 l2 -> Forall2 same_link_flags l2 l3 -> Forall2 same_link_flags l1 l3.
Proof.
  intros H12; revert l3; induction H12 as [|a b l1 l2 Hab _ IH]; intros l3 H23; inversion H23; subst;
    constructor; [|apply IH; assumption].
  unfold same_link_flags in *; intuition congruence.
Qed.

Lemma links_kept_eq (db db' : DB) : user_feed db' = user_feed db -> links_kept db db'.
Proof.
  intros E; exists (user_feed db), []; rewrite app_nil_r; split; [exact E|apply same_link_flags_refl].
Qed.

Lemma links_kept_trans (a b c : DB) : links_kept a b -> links_kept b c -> links_kept a c.
Proof.
  intros (k1 & a1 & E1 & F1) (k2 & a2 & E2 & F2); rewrite E1 in F2.
  apply Forall2_app_inv_l in F2 as (k2a & k2b & Fa & _ & ->).
  exists k2a, (app k2b a2); split; [rewrite E2, app_assoc; reflexivity|].
  exact (same_link_flags_trans _ _ _ F1 Fa).
Qed.

Lemma upsert_user_feed fl db j : user_feed (snd (UpsertFeedJob fl db j)) = user_feed db.
Proof. unfold UpsertFeedJob; destruct (upsert_fails fl j); [|destruct (find _ _)]; reflexivity. Qed.

Lemma upsert_refresh_log fl db j :
  refresh_log (snd (UpsertFeedJob fl db j)) = refresh_log db /\ clock (snd (UpsertFeedJob fl db j)) = clock db.
Proof. unfold UpsertFeedJob; destruct (upsert_fails fl j); [|destruct (find _ _)]; split; reflexivity. Qed.

Lemma link_feed_jobs fl db u f sc : feed_jobs (snd (LinkJobToUser fl db u f sc)) = feed_jobs db.
Proof. unfold LinkJobToUser; destruct (link_fails fl u f); [|destruct (existsb _ _)]; reflexivity. Qed.

Lemma link_refresh_log fl db u f sc :
  refresh_log (snd (LinkJobToUser fl db u f sc)) = refresh_log db /\
  clock (snd (LinkJobToUser fl db u f sc)) = clock db.
Proof. unfold LinkJobToUser; destruct (link_fails fl u f); [|destruct (existsb _ _)]; split; reflexivity. Qed.

(** The links of [LinkJobToUser]: the old ones, each with at most its score
    changed, then at most one new link, for a key no old link has. *)
Lemma link_shape fl db u f sc :
  (exists kept, Forall2 same_link_flags (user_feed db) kept /\
     (user_feed (snd (LinkJobToUser fl db u f sc)) = kept /\
      map (fun l => (uf_UserID l, uf_FeedJobID l)) kept = map (fun l => (uf_UserID l, uf_FeedJobID l)) (user_feed db) \/
      user_feed (snd (LinkJobToUser fl db u f sc)) = app kept [mkLink u f sc false false] /\
      kept = user_feed db /\ existsb (link_key u f) (user_feed db) = false)).
Proof.
  unfold LinkJobToUser; destruct (link_fails fl u f).
  - exists (user_feed db); split; [apply same_link_flags_refl|left; split; reflexivity].
  - destruct (existsb (link_key u f) (user_feed db)) eqn:E.
    + exists (map (fun l => if link_key u f l then with_score l sc else l) (user_feed db)).
      split; [clear E; induction (user_feed db) as [|l ls IH]; cbn; constructor; [destruct (link_key u f l); unfold same_link_flags; cbn; auto|exact IH]|].
      left; split; [reflexivity|rewrite map_map; apply map_ext; intros l; destruct (link_key u f l); reflexivity].
    + exists (user_feed db); split; [apply same_link_flags_refl|right; auto].
Qed.

Lemma link_links_kept fl db u f sc : links_kept db (snd (LinkJobToUser fl db u f sc)).
Proof.
  destruct (link_shape fl db u f sc) as (kept & F & [[E _]|(E & _ & _)]).
  - exists kept, []; rewrite app_nil_r; auto.
  - exists kept, [mkLink u f sc false false]; auto.
Qed.

(** X12: [RefreshUserFeed] keeps every existing [user_feed] link, in order and with its user, job, dismissed and saved flags, and only adds links after them. *)
Theorem refresh_keeps_links (env : Env) (uid : nat) (force : bool) (db : DB) :
  links_kept db (st (RefreshUserFeed env uid force) db).
Proof.
  apply refresh_preserves.
  - intros d; apply links_kept_eq; reflexivity.
  - exact links_kept_trans.
  - intros fl d j; apply links_kept_eq, upsert_user_feed.
  - exact link_links_kept.
  - intros fl d u q f n; apply links_kept_eq; unfold LogRefresh; destruct (log_fails fl); reflexivity.
Qed.

(** *** Keys of [feed_jobs] stay unique and rows are never removed *)

Lemma NoDup_map_inj {A B} (f : A -> B) (l : list A) (a b : A) :
  NoDup (map f l) -> In a l -> In b l -> f a = f b -> a = b.
Proof.
  induction l as [|x l IH]; cbn; [tauto|]; intros Hn Ha Hb E; inversion Hn as [|? ? Hx Hn']; subst.
  destruct Ha as [<-|Ha], Hb as [<-|Hb]; auto.
  - exfalso; apply Hx; rewrite E; apply in_map; exact Hb.
  - exfalso; apply Hx; rewrite <- E; apply in_map; exact Ha.
Qed.

Lemma same_key_spec (j r : FeedJob) :
  same_key j r = true <-> (fj_ExternalID r, fj_Source r) = (fj_ExternalID j, fj_Source j).
Proof.
  unfold same_key; rewrite andb_true_iff, !String.eqb_eq; split.
  - intros [-> ->]; reflexivity.
  - intros E; injection E; auto.
Qed.

Lemma with_title_self (r : FeedJob) : with_title r (fj_Title r) = r.
Proof. destruct r; reflexivity. Qed.

Lemma with_title_twice (r : FeedJob) t t' : with_title (with_title r t) t' = with_title r t'.
Proof. destruct r; reflexivity. Qed.

Lemma keys_rows_eq (db db' : DB) : feed_jobs db' = feed_jobs db -> keys_rows db db'.
Proof.
  unfold keys_rows, feed_keys_unique, rows_kept; intros E Hu; rewrite E; split; [exact Hu|].
  intros r Hr; exists (fj_Title r); rewrite with_title_self; exact Hr.
Qed.

Lemma keys_rows_trans (a b c : DB) : keys_rows a b -> keys_rows b c -> keys_rows a c.
Proof.
  unfold keys_rows, rows_kept; intros Hab Hbc Hu.
  destruct (Hab Hu) as [Hu' Hk]; destruct (Hbc Hu') as [Hu'' Hk']; split; [exact Hu''|].
  intros r Hr; destruct (Hk r Hr) as [t Ht]; destruct (Hk' _ Ht) as [t' Ht'].
  exists t'; rewrite with_title_twice in Ht'; exact Ht'.
Qed.

Lemma upsert_keys_rows fl db j : keys_rows db (snd (UpsertFeedJob fl db j)).
Proof.
  unfold UpsertFeedJob; destruct (upsert_fails fl j); [apply keys_rows_eq; reflexivity|].
  unfold keys_rows, feed_keys_unique, rows_kept, set_feed_jobs; cbn [feed_jobs snd].
  destruct (find (same_key j) (feed_jobs db)) as [r|] eqn:F; cbn [feed_jobs snd]; intros Hu.
  - apply find_some in F as [Hr Hjr].
    assert (Hkeys : map (fun r0 => (fj_ExternalID r0, fj_Source r0))
              (map (fun x => if same_key j x then with_title r (fj_Title j) else x) (feed_jobs db))
            = map (fun r0 => (fj_ExternalID r0, fj_Source r0)) (feed_jobs db)).
    { rewrite map_map; apply map_ext_in; intros x _.
      destruct (same_key j x) eqn:Ex; [|reflexivity].
      apply same_key_spec in Ex; apply same_key_spec in Hjr; rewrite Ex, <- Hjr; destruct r; reflexivity. }
    split; [rewrite Hkeys; exact Hu|].
    intros x Hx; destruct (same_key j x) eqn:Ex.
    + exists (fj_Title j).
      assert (x = r) as ->.
      { apply (NoDup_map_inj _ _ _ _ Hu Hx Hr).
        apply same_key_spec in Ex; apply same_key_spec in Hjr; congruence. }
      apply in_map_iff; exists r; rewrite Hjr; auto.
    + exists (fj_Title x); rewrite with_title_self; apply in_map_iff; exists x; rewrite Ex; auto.
  - split.
    + rewrite map_app; apply NoDup_app; [exact Hu|constructor; [intros []|constructor]|].
      intros k Hk [<-|[]]; apply in_map_iff in Hk as (x & Ex & Hx).
      assert (same_key j x = true) by (apply same_key_spec; rewrite Ex; destruct j; reflexivity).
      rewrite (find_none _ _ F x Hx) in H; discriminate.
    + intros x Hx; exists (fj_Title x); rewrite with_title_self; apply in_or_app; left; exact Hx.
Qed.

(** X13: if the [(external_id, source)] key of [feed_jobs] is unique, [RefreshUserFeed] keeps it unique and keeps every row, with the same id, key and listing columns and at most its title changed; the timestamp columns, such as the [fetched_at] the upsert sets to [now()], are not modelled. *)
Theorem refresh_keeps_rows (env : Env) (uid : nat) (force : bool) (db : DB) :
  feed_keys_unique db ->
  feed_keys_unique (st (RefreshUserFeed env uid force) db) /\
  rows_kept db (st (RefreshUserFeed env uid force) db).
Proof.
  apply (refresh_preserves keys_rows).
  - intros d; apply keys_rows_eq; reflexivity.
  - exact keys_rows_trans.
  - exact upsert_keys_rows.
  - intros fl d u f sc; apply keys_rows_eq, link_feed_jobs.
  - intros fl d u q f n; apply keys_rows_eq; unfold LogRefresh; destruct (log_fails fl); reflexivity.
Qed.

Lemma refresh_keeps_rows_witness :
  feed_keys_unique StoreSamples.db_linked /\
  feed_keys_unique (st (RefreshUserFeed Samples.env_one_listing 1 true) StoreSamples.db_linked) /\
  rows_kept StoreSamples.db_linked (st (RefreshUserFeed Samples.env_one_listing 1 true) StoreSamples.db_linked).
Proof.
  assert (H : feed_keys_unique StoreSamples.db_linked).
  { unfold feed_keys_unique; simpl; repeat constructor; simpl; intuition discriminate. }
  split; [exact H|apply refresh_keeps_rows; exact H].
Defined.


(** *** Keys of [user_feed] stay unique *)

Lemma existsb_link_key_in uid fid (ls : list Link) :
  existsb (link_key uid fid) ls = false ->
  ~ In (uid, fid) (map (fun l => (uf_UserID l, uf_FeedJobID l)) ls).
Proof.
  intros E Hin; apply in_map_iff in Hin as (l & El & Hl).
  assert (link_key uid fid l = true) as Hk.
  { unfold link_key; injection El as -> ->; rewrite !Nat.eqb_refl; reflexivity. }
  assert (existsb (link_key uid fid) ls = true) by (apply existsb_exists; eauto); congruence.
Qed.

Lemma link_link_keys fl db u f sc : link_keys_kept db (snd (LinkJobToUser fl db u f sc)).
Proof.
  unfold link_keys_kept, link_keys_unique; intros Hu.
  destruct (link_shape fl db u f sc) as (kept & _ & [[E Ek]|(E & -> & Ex)]); rewrite E.
  - rewrite Ek; exact Hu.
  - rewrite map_app; apply NoDup_app; [exact Hu|constructor; [intros []|constructor]|].
    intros k Hk [<-|[]]; exact (existsb_link_key_in _ _ _ Ex Hk).
Qed.

(** X14: [RefreshUserFeed] keeps the [(user_id, feed_job_id)] key of [user_feed] unique. *)
Theorem refresh_keeps_link_keys_unique (env : Env) (uid : nat) (force : bool) (db : DB) :
  link_keys_unique db -> link_keys_unique (st (RefreshUserFeed env uid force) db).
Proof.
  apply (refresh_preserves link_keys_kept).
  - intros d H; exact H.
  - intros a b c Hab Hbc H; exact (Hbc (Hab H)).
  - intros fl d j; unfold link_keys_kept, link_keys_unique; rewrite upsert_user_feed; auto.
  - exact link_link_keys.
  - intros fl d u q f n; unfold link_keys_kept, LogRefresh; destruct (log_fails fl); auto.
Qed.

Lemma refresh_keeps_link_keys_unique_witness :
  link_keys_unique StoreSamples.db_linked /\
  link_keys_unique (st (RefreshUserFeed Samples.env_one_listing 1 true) StoreSamples.db_linked).
Proof.
  assert (H : link_keys_unique StoreSamples.db_linked).
  { unfold link_keys_unique; simpl; repeat constructor; simpl; intuition discriminate. }
  split; [exact H|apply refresh_keeps_link_keys_unique; exact H].
Defined.


(** *** A dismissed job stays dismissed *)

Lemma Forall2_same_in_l (ls ks : list Link) l :
  Forall2 same_link_flags ls ks -> In l ls -> exists k, In k ks /\ same_link_flags l k.
Proof.
  induction 1 as [|a b ls ks Hab _ IH]; cbn; [tauto|]; intros [<-|Hl]; [eauto|].
  destruct (IH Hl) as (k & Hk & Hs); eauto.
Qed.

Lemma Forall2_same_in_r (ls ks : list Link) k :
  Forall2 same_link_flags ls ks -> In k ks -> exists l, In l ls /\ same_link_flags l k.
Proof.
  induction 1 as [|a b ls ks Hab _ IH]; cbn; [tauto|]; intros [<-|Hk]; [eauto|].
  destruct (IH Hk) as (l & Hl & Hs); eauto.
Qed.

Lemma link_key_same uid fid l k : same_link_flags l k -> link_key uid fid k = link_key uid fid l.
Proof. unfold same_link_flags, link_key; intros (-> & -> & _); reflexivity. Qed.

Lemma dismissals_kept_eq (db db' : DB) : user_feed db' = user_feed db -> dismissals_kept db db'.
Proof. unfold dismissals_kept, dismissed; intros ->; auto. Qed.

Lemma link_dismissals fl db u f sc : dismissals_kept db (snd (LinkJobToUser fl db u f sc)).
Proof.
  intros uid fid [(l & Hl & Hk) Hall].
  destruct (link_shape fl db u f sc) as (kept & F & Hcase).
  assert (Hkept : (exists k, In k kept /\ link_key uid fid k = true) /\
                  (forall k, In k kept -> link_key uid fid k = true -> uf_Dismissed k = true)).
  { split.
    - destruct (Forall2_same_in_l _ _ _ F Hl) as (k & Hk' & Hs); exists k; split; [exact Hk'|].
      rewrite (link_key_same _ _ _ _ Hs); exact Hk.
    - intros k Hk' Hkk; destruct (Forall2_same_in_r _ _ _ F Hk') as (l' & Hl' & Hs).
      rewrite (link_key_same _ _ _ _ Hs) in Hkk; destruct Hs as (_ & _ & -> & _); auto. }
  destruct Hcase as [[E _]|(E & -> & Ex)]; unfold dismissed; rewrite E; [exact Hkept|].
  destruct Hkept as [(k & Hk' & Hkk) Hkall]; split.
  - exists k; split; [apply in_or_app; left|]; assumption.
  - intros k' Hk'' Hkk'; apply in_app_or in Hk'' as [Hk''|[<-|[]]]; [auto|].
    exfalso; unfold link_key in Hkk'; cbn in Hkk'; apply andb_true_iff in Hkk' as [E1 E2].
    apply Nat.eqb_eq in E1, E2; subst.
    assert (existsb (link_key uid fid) (user_feed db) = true) by (apply existsb_exists; eauto).
    congruence.
Qed.

Lemma refresh_dismissals (env : Env) (uid : nat) (force : bool) (db : DB) :
  dismissals_kept db (st (RefreshUserFeed env uid force) db).
Proof.
  apply refresh_preserves.
  - intros d; apply dismissals_kept_eq; reflexivity.
  - intros a b c Hab Hbc u f H; exact (Hbc _ _ (Hab _ _ H)).
  - intros fl d j; apply dismissals_kept_eq, upsert_user_feed.
  - exact link_dismissals.
  - intros fl d u q f n; apply dismissals_kept_eq; unfold LogRefresh; destruct (log_fails fl); reflexivity.
Qed.

Lemma dismiss_dismissed (db : DB) (uid fid : nat) :
  (exists l, In l (user_feed db) /\ link_key uid fid l = true) ->
  dismissed uid fid (DismissFeedJob db uid fid).
Proof.
  intros (l & Hl & Hk); unfold dismissed, DismissFeedJob, set_user_feed; cbn [user_feed]; split.
  - eexists; split; [apply in_map; exact Hl|]; rewrite Hk; unfold link_key in *; exact Hk.
  - intros k Hk'; apply in_map_iff in Hk' as (l' & <- & _).
    destruct (link_key uid fid l') eqn:E; [reflexivity|intros; congruence].
Qed.

(** *** The counts of a refresh *)

Lemma res_ret {A} (a : A) (db : DB) : res (ret a) db = a.
Proof. reflexivity. Qed.

Lemma link_results_count {X} (convert : X -> FeedJob) fl uid user results db :
  0 <= res (link_results convert fl uid user results) db <= Z.of_nat (List.length results).
Proof.
  revert db; induction results as [|r rs IH]; intros db; [cbn; lia|]; cbn [link_results].
  rewrite res_bind, res_bind, res_ret; specialize (IH (st (upsertAndLink fl uid user (convert r)) db)).
  cbn [List.length]; rewrite Nat2Z.inj_succ.
  destruct (res (upsertAndLink fl uid user (convert r)) db); lia.
Qed.

Lemma query_loop_count {Q X} (call : Q -> Event) (search : Search Q X) convert fl uid user qs db :
  0 <= snd (res (query_loop call search convert fl uid user qs) db) <=
  fst (res (query_loop call search convert fl uid user qs) db).
Proof.
  revert db; induction qs as [|q qs IH]; intros db; [cbn; lia|]; cbn [query_loop].
  rewrite res_bind; destruct (search q) as [results|]; [|apply IH].
  rewrite res_bind, res_bind.
  pose proof (link_results_count convert fl uid user results (st (emit (call q)) db)) as Hl.
  match goal with |- context [res (query_loop call search convert fl uid user qs) ?d] =>
    specialize (IH d); destruct (res (query_loop call search convert fl uid user qs) d) as [f n] end.
  cbn [fst snd] in *; rewrite res_ret; cbn [fst snd]; lia.
Qed.

Lemma runs_count env user uid db :
  counts_ok (res (runJSearch env user uid) db) /\ counts_ok (res (runRemotive env user uid) db) /\
  counts_ok (res (runAdzuna env user uid) db).
Proof.
  unfold counts_ok, runJSearch, runRemotive, runAdzuna; split; [|split].
  - destruct (jsearch env); [apply query_loop_count|cbn; lia].
  - destruct (remotive env); [|cbn; lia]; unfold refreshFromRemotive.
    destruct (BuildRemotiveQueries user); [cbn; lia|apply query_loop_count].
  - destruct (adzuna env); [apply query_loop_count|cbn; lia].
Qed.

(** For a user that is found, [RefreshUserFeed] returns counts whose new-job
    count lies between 0 and the fetched count. *)
Lemma refresh_counts_of_found (env : Env) (uid : nat) (force : bool) (user : User) (db : DB) :
  FindByID env uid = Some user ->
  exists f n, res (RefreshUserFeed env uid force) db = Counts f n /\ 0 <= n <= f.
Proof.
  intros H; rewrite (res_refresh env uid force user db H).
  destruct ((if force then ret false else recently_refreshed (faults env) uid) db) as [[[] db0] e0].
  { exists 0, 0; split; [reflexivity|lia]. }
  destruct (runs_count env user uid db0) as [C1 _]; unfold res in C1.
  destruct (runJSearch env user uid db0) as [[[f1 n1] db1] e1]; cbn [fst snd] in *.
  destruct (runs_count env user uid db1) as [_ [C2 _]]; unfold res in C2.
  destruct (runRemotive env user uid db1) as [[[f2 n2] db2] e2]; cbn [fst snd] in *.
  destruct (runs_count env user uid db2) as [_ [_ C3]]; unfold res in C3.
  destruct (runAdzuna env user uid db2) as [[[f3 n3] db3] e3]; cbn [fst snd] in *.
  unfold counts_ok in *; cbn [fst snd] in *.
  exists (f1 + f2 + f3), (n1 + n2 + n3); split; [reflexivity|lia].
Qed.

(** X15: whenever [RefreshUserFeed] returns counts, the new-job count lies between 0 and the fetched count. *)
Theorem refresh_new_at_most_fetched (env : Env) (uid : nat) (force : bool) (db : DB) (f n : Z) :
  res (RefreshUserFeed env uid force) db = Counts f n -> 0 <= n <= f.
Proof.
  intros E; destruct (FindByID env uid) as [user|] eqn:U.
  - destruct (refresh_counts_of_found env uid force user db U) as (f' & n' & E' & B).
    rewrite E in E'; inversion E'; subst; exact B.
  - unfold res, RefreshUserFeed in E; rewrite U in E; discriminate.
Qed.

Lemma refresh_new_at_most_fetched_witness :
  res (RefreshUserFeed Samples.env_one_listing 1 true) StoreSamples.db_linked = Counts 2 2 /\ 0 <= 2 <= 2.
Proof.
  assert (H : res (RefreshUserFeed Samples.env_one_listing 1 true) StoreSamples.db_linked = Counts 2 2)
    by (vm_compute; reflexivity).
  split; [exact H|exact (refresh_new_at_most_fetched _ _ _ _ _ _ H)].
Defined.


(** *** The refresh log *)

Lemma runs_log_clock env user uid db :
  log_clock_kept db (st (runJSearch env user uid) db) /\
  log_clock_kept db (st (runRemotive env user uid) db) /\
  log_clock_kept db (st (runAdzuna env user uid) db).
Proof.
  apply runs_preserve; unfold log_clock_kept.
  - auto.
  - intros a b c [E1 E2] [E3 E4]; split; congruence.
  - intros; apply upsert_refresh_log.
  - intros; apply link_refresh_log.
Qed.

Lemma throttle_check_db (env : Env) (uid : nat) (force : bool) (db : DB) :
  snd (fst ((if force then ret false else recently_refreshed (faults env) uid) db)) = db.
Proof.
  destruct force; [reflexivity|]; unfold recently_refreshed.
  destruct (GetLastRefresh _ db uid) as [[t|]|]; reflexivity.
Qed.

(** For a user that is found, with a working log, [RefreshUserFeed] either
    leaves the database unchanged or appends one multi-source log entry with
    the returned counts and the current time; with [force] it appends it. *)
Lemma refresh_log_of_found (env : Env) (uid : nat) (force : bool) (user : User) (db : DB) :
  FindByID env uid = Some user -> log_fails (faults env) = false ->
  exists f n, res (RefreshUserFeed env uid force) db = Counts f n /\
    (st (RefreshUserFeed env uid force) db = db \/
     refresh_log (st (RefreshUserFeed env uid force) db) =
       app (refresh_log db) [mkLogEntry uid "multi-source" f n (clock db)]) /\
    (force = true ->
     refresh_log (st (RefreshUserFeed env uid force) db) =
       app (refresh_log db) [mkLogEntry uid "multi-source" f n (clock db)]).
Proof.
  intros H Hl; unfold res, st; rewrite (RefreshUserFeed_run env uid force user db H).
  pose proof (throttle_check_db env uid force db) as Ed.
  destruct ((if force then ret false else recently_refreshed (faults env) uid) db) as [[thr db0] e0] eqn:Et.
  cbn [fst snd] in Ed; subst db0.
  destruct thr.
  { exists 0, 0; split; [reflexivity|]; split; [left; reflexivity|].
    intros ->; cbn in Et; discriminate. }
  destruct (runs_log_clock env user uid db) as [L1 _]; unfold st in L1.
  destruct (runJSearch env user uid db) as [[[f1 n1] db1] e1]; cbn [fst snd] in *.
  destruct (runs_log_clock env user uid db1) as [_ [L2 _]]; unfold st in L2.
  destruct (runRemotive env user uid db1) as [[[f2 n2] db2] e2]; cbn [fst snd] in *.
  destruct (runs_log_clock env user uid db2) as [_ [_ L3]]; unfold st in L3.
  destruct (runAdzuna env user uid db2) as [[[f3 n3] db3] e3]; cbn [fst snd] in *.
  unfold log_clock_kept in *.
  assert (E : refresh_log (LogRefresh (faults env) db3 uid "multi-source" (f1 + f2 + f3) (n1 + n2 + n3)) =
              app (refresh_log db) [mkLogEntry uid "multi-source" (f1 + f2 + f3) (n1 + n2 + n3) (clock db)]).
  { unfold LogRefresh; rewrite Hl; cbn [refresh_log].
    destruct L1 as [A1 B1], L2 as [A2 B2], L3 as [A3 B3]; rewrite A3, A2, A1, B3, B2, B1; reflexivity. }
  exists (f1 + f2 + f3), (n1 + n2 + n3); split; [reflexivity|]; split; [right; exact E|intros; exact E].
Qed.

(** X16: with a working log, whenever [RefreshUserFeed] returns counts, it either leaves the database unchanged or appends exactly one multi-source log entry with those counts and the current time; with [force] it always appends it. *)
Theorem refresh_appends_log_entry (env : Env) (uid : nat) (force : bool) (db : DB) (f n : Z) :
  log_fails (faults env) = false ->
  res (RefreshUserFeed env uid force) db = Counts f n ->
  (st (RefreshUserFeed env uid force) db = db \/
   refresh_log (st (RefreshUserFeed env uid force) db) =
     app (refresh_log db) [mkLogEntry uid "multi-source" f n (clock db)]) /\
  (force = true ->
   refresh_log (st (RefreshUserFeed env uid force) db) =
     app (refresh_log db) [mkLogEntry uid "multi-source" f n (clock db)]).
Proof.
  intros Hl E; destruct (FindByID env uid) as [user|] eqn:U.
  - destruct (refresh_log_of_found env uid force user db U Hl) as (f' & n' & E' & P).
    rewrite E in E'; inversion E'; subst; exact P.
  - unfold res, RefreshUserFeed in E; rewrite U in E; discriminate.
Qed.

Lemma refresh_appends_log_entry_witness :
  log_fails (faults Samples.env_one_listing) = false /\
  res (RefreshUserFeed Samples.env_one_listing 1 true) StoreSamples.db_linked = Counts 2 2 /\
  refresh_log (st (RefreshUserFeed Samples.env_one_listing 1 true) StoreSamples.db_linked) =
    app (refresh_log StoreSamples.db_linked) [mkLogEntry 1 "multi-source" 2 2 (clock StoreSamples.db_linked)].
Proof.
  assert (Hl : log_fails (faults Samples.env_one_listing) = false) by reflexivity.
  assert (H : res (RefreshUserFeed Samples.env_one_listing 1 true) StoreSamples.db_linked = Counts 2 2)
    by (vm_compute; reflexivity).
  split; [exact Hl|split; [exact H|]].
  exact (proj2 (refresh_appends_log_entry _ _ _ _ _ _ Hl H) eq_refl).
Defined.


End RefreshFacts.

Module JobStoreFacts.
Import JobStore JobSearchCase.
Local Open Scope Z_scope.

Lemma lower_byte_not_upper (c : ascii) : is_upper (lower_byte c) = false.
Proof.
  unfold is_upper, lower_byte.
  destruct (Nat.leb 65 (nat_of_ascii c) && Nat.leb (nat_of_ascii c) 90) eqn:E; [|exact E].
  apply andb_true_iff in E as [E1 E2]; apply Nat.leb_le in E1, E2.
  rewrite nat_ascii_embedding by lia.
  destruct (Nat.leb 65 (nat_of_ascii c + 32)) eqn:E3; [|reflexivity]; cbn.
  apply Nat.leb_gt; lia.
Qed.

Lemma ToLower_no_upper (s : string) : has_upper (ToLower s) = false.
Proof. induction s as [|c s IH]; [reflexivity|]; cbn; rewrite lower_byte_not_upper, IH; reflexivity. Qed.

Lemma has_upper_app (a b : string) : has_upper (a ++ b) = has_upper a || has_upper b.
Proof. induction a as [|c a IH]; [reflexivity|]; cbn; rewrite IH, orb_assoc; reflexivity. Qed.

Lemma like_upper_n (n : nat) : forall p s, (String.length p <= n)%nat ->
  like p s = true -> has_upper p = true -> has_upper s = true.
Proof.
  induction n as [|n IHn]; intros p s Hlen Hl Hu.
  { destruct p; [discriminate|cbn in Hlen; lia]. }
  destruct p as [|c p']; [discriminate|]; cbn in Hlen.
  assert (IH' : forall s, like p' s = true -> has_upper p' = true -> has_upper s = true)
    by (intros; apply (IHn p'); [lia|assumption..]).
  cbn [like] in Hl; cbn [has_upper] in Hu.
  destruct (Ascii.eqb c "%"%char) eqn:E1.
  { apply Ascii.eqb_eq in E1; subst c; cbn in Hu.
    induction s as [|d s IHs]; cbn in Hl |- *.
    - apply orb_true_iff in Hl as [Hl|Hl]; [exact (IH' _ Hl Hu)|discriminate].
    - apply orb_true_iff in Hl as [Hl|Hl].
      + exact (IH' _ Hl Hu).
      + rewrite (IHs Hl); apply orb_true_r. }
  destruct (Ascii.eqb c "_"%char) eqn:E2.
  { apply Ascii.eqb_eq in E2; subst c; cbn in Hu.
    destruct s as [|d s]; [discriminate|]; cbn; rewrite (IH' _ Hl Hu); apply orb_true_r. }
  destruct (Ascii.eqb c backslash) eqn:E3.
  { apply Ascii.eqb_eq in E3; subst c.
    destruct p' as [|e p'']; [discriminate|]; destruct s as [|d s]; [discriminate|].
    apply andb_true_iff in Hl as [He Hl]; apply Ascii.eqb_eq in He; subst e.
    cbn [has_upper] in Hu |- *.
    replace (is_upper backslash) with false in Hu by reflexivity; cbn [orb] in Hu.
    apply orb_true_iff in Hu as [Hu|Hu]; [rewrite Hu; reflexivity|].
    cbn in Hlen; rewrite (IHn p'' s ltac:(lia) Hl Hu); apply orb_true_r. }
  destruct s as [|d s]; [discriminate|]; apply andb_true_iff in Hl as [He Hl].
  apply Ascii.eqb_eq in He; subst d; cbn.
  apply orb_true_iff in Hu as [Hu|Hu]; [rewrite Hu; reflexivity|].
  rewrite (IH' _ Hl Hu); apply orb_true_r.
Qed.

Lemma like_upper (p s : string) : like p s = true -> has_upper p = true -> has_upper s = true.
Proof. apply (like_upper_n (String.length p)); apply Nat.le_refl. Qed.

(** X17: [List] with a search text containing an upper-case letter returns no job, since the pattern is matched against lower-cased columns. *)
Theorem list_uppercase_search_matches_nothing (rows : list Job) (uid : nat) (f : JobFilter) :
  has_upper (jf_Search f) = true -> List rows uid f = Some [].
Proof.
  intros Hu; unfold List; cbn -[list_where]; f_equal.
  assert (Hf : filter (list_where uid f) rows = []).
  { induction rows as [|j rows IH]; [reflexivity|]; cbn [filter]; rewrite IH.
    assert (E : list_where uid f j = false); [|rewrite E; reflexivity].
    unfold list_where.
    destruct (String.eqb (jf_Search f) "") eqn:Es.
    { apply String.eqb_eq in Es; rewrite Es in Hu; discriminate. }
    assert (Hp : has_upper ("%" ++ jf_Search f ++ "%") = true)
      by (cbn; rewrite has_upper_app, Hu; reflexivity).
    destruct (like ("%" ++ jf_Search f ++ "%") (ToLower (j_Title j))) eqn:L1.
    { pose proof (like_upper _ _ L1 Hp); rewrite ToLower_no_upper in H; discriminate. }
    destruct (like ("%" ++ jf_Search f ++ "%") (ToLower (j_Company j))) eqn:L2.
    { pose proof (like_upper _ _ L2 Hp); rewrite ToLower_no_upper in H; discriminate. }
    cbn; rewrite !andb_false_r; reflexivity. }
  rewrite Hf; reflexivity.
Qed.

Lemma list_uppercase_search_matches_nothing_witness :
  has_upper (jf_Search (mkJobFilter "Backend" "" false)) = true /\
  List [StoreSamples.backend_job] 1 (mkJobFilter "Backend" "" false) = Some [].
Proof. split; [reflexivity|apply list_uppercase_search_matches_nothing; reflexivity]. Defined.


(** *** Ordering of [List] *)

Lemma ranks_before_total (a b : Job) : ranks_before a b = false -> ranks_before b a = true.
Proof.
  unfold ranks_before; intros E; apply orb_false_iff in E as [E1 E2].
  apply Z.ltb_ge in E1; apply orb_true_iff.
  destruct (Z.eq_dec (j_MatchScore a) (j_MatchScore b)) as [Eq|Ne].
  - right; rewrite Eq, Z.eqb_refl in E2 |- *; cbn in *; apply Z.leb_gt in E2; apply Z.leb_le; lia.
  - left; apply Z.ltb_lt; lia.
Qed.

Lemma insert_job_hd (a x : Job) (l : list Job) :
  HdRel rb a l -> rb a x -> HdRel rb a (insert_job x l).
Proof.
  intros H Hx; destruct l as [|y l]; cbn; [constructor; exact Hx|].
  destruct (ranks_before y x); constructor; [inversion H; assumption|exact Hx].
Qed.

Lemma insert_job_sorted (x : Job) (l : list Job) : Sorted rb l -> Sorted rb (insert_job x l).
Proof.
  induction l as [|y l IH]; intros H; cbn; [repeat constructor|].
  destruct (ranks_before y x) eqn:E.
  - apply Sorted_inv in H as [Hs Hh]; constructor; [exact (IH Hs)|apply insert_job_hd; assumption].
  - constructor; [exact H|constructor; apply ranks_before_total; exact E].
Qed.

Lemma insert_job_perm (x : Job) (l : list Job) : Permutation (insert_job x l) (x :: l).
Proof.
  induction l as [|y l IH]; cbn; [reflexivity|].
  destruct (ranks_before y x); [|reflexivity].
  etransitivity; [apply perm_skip, IH|apply perm_swap].
Qed.

Lemma order_jobs_sorted_perm (l : list Job) : Sorted rb (order_jobs l) /\ Permutation (order_jobs l) l.
Proof.
  induction l as [|x l [IHs IHp]]; cbn; [split; constructor|]; split.
  - apply insert_job_sorted, IHs.
  - etransitivity; [apply insert_job_perm|apply perm_skip, IHp].
Qed.

(** X18: [List] returns exactly the rows of the user matching the filter, ordered by match score then creation time, both descending; with [BookmarkedOnly] all are bookmarked. *)
Theorem list_sorted_filtered (rows : list Job) (uid : nat) (f : JobFilter) :
  exists l, List rows uid f = Some l /\
    Permutation l (filter (list_where uid f) rows) /\
    Sorted (fun a b => ranks_before a b = true) l /\
    (forall j, In j l -> j_UserID j = uid /\ (jf_BookmarkedOnly f = true -> j_Bookmarked j = true)).
Proof.
  destruct (order_jobs_sorted_perm (filter (list_where uid f) rows)) as [Hs Hp].
  exists (order_jobs (filter (list_where uid f) rows)); split; [reflexivity|]; split; [exact Hp|].
  split; [exact Hs|]; intros j Hj.
  apply (Permutation_in _ Hp), filter_In in Hj as [_ Hw]; unfold list_where in Hw.
  apply andb_true_iff in Hw as [Hw _]; apply andb_true_iff in Hw as [Hw _];
    apply andb_true_iff in Hw as [Hid Hb]; apply Nat.eqb_eq in Hid; split; [exact Hid|].
  intros Hf; rewrite Hf in Hb; exact Hb.
Qed.

(** *** Writes by id and owner *)

Lemma in_map_if (g : Job -> Job) (p : Job -> bool) (rows : list Job) (r : Job) :
  In r rows -> p r = false -> In r (map (fun x => if p x then g x else x) rows).
Proof. intros Hr Hp; apply in_map_iff; exists r; rewrite Hp; auto. Qed.

(** X20: [Delete], [ToggleBookmark] and [UpdateStatus] keep every row that does not have the given id and user. *)
Theorem job_writes_keep_other_rows (rows : list Job) (id uid : nat) (status : string) (now : Z) (r : Job) :
  In r rows -> owned id uid r = false ->
  In r (snd (Delete rows id uid)) /\ In r (snd (ToggleBookmark rows id uid now)) /\
  In r (snd (UpdateStatus rows id uid status now)).
Proof.
  intros Hr Ho; unfold Delete, ToggleBookmark, UpdateStatus; split; [|split].
  - destruct (existsb _ _); [apply filter_In; rewrite Ho; auto|exact Hr].
  - destruct (find _ _); [apply in_map_if|]; assumption.
  - destruct (existsb _ _); [apply in_map_if|]; assumption.
Qed.

Lemma job_writes_keep_other_rows_witness :
  In StoreSamples.other_user_job [StoreSamples.backend_job; StoreSamples.other_user_job] /\
  owned 1 1 StoreSamples.other_user_job = false /\
  In StoreSamples.other_user_job (snd (Delete [StoreSamples.backend_job; StoreSamples.other_user_job] 1 1)) /\
  In StoreSamples.other_user_job
     (snd (ToggleBookmark [StoreSamples.backend_job; StoreSamples.other_user_job] 1 1 300)) /\
  In StoreSamples.other_user_job
     (snd (UpdateStatus [StoreSamples.backend_job; StoreSamples.other_user_job] 1 1 "interview" 300)).
Proof.
  assert (Hi : In StoreSamples.other_user_job [StoreSamples.backend_job; StoreSamples.other_user_job])
    by (simpl; tauto).
  assert (Ho : owned 1 1 StoreSamples.other_user_job = false) by reflexivity.
  split; [exact Hi|split; [exact Ho|apply job_writes_keep_other_rows; assumption]].
Defined.


Lemma flip_bookmark_owned id uid r t : owned id uid (flip_bookmark r t) = owned id uid r.
Proof. reflexivity. Qed.

Lemma flip_bookmark_twice r t t' : flip_bookmark (flip_bookmark r t) t' = with_updated_at r t'.
Proof. destruct r; unfold flip_bookmark, with_updated_at; cbn; rewrite negb_involutive; reflexivity. Qed.

Lemma find_map_flip id uid rows t :
  find (owned id uid) (map (fun r => if owned id uid r then flip_bookmark r t else r) rows) =
  option_map (fun r => flip_bookmark r t) (find (owned id uid) rows).
Proof.
  induction rows as [|r rows IH]; [reflexivity|]; cbn.
  destruct (owned id uid r) eqn:E; [rewrite flip_bookmark_owned, E; reflexivity|rewrite E; exact IH].
Qed.

(** X21: toggling a bookmark twice returns the opposite flag the second time and restores every column of the rows but [updated_at], which both statements set: the toggled row ends with the time of the second toggle. *)
Theorem toggle_bookmark_twice (rows rows' : list Job) (id uid : nat) (now now' : Z) (b : bool) :
  ToggleBookmark rows id uid now = (Some b, rows') ->
  ToggleBookmark rows' id uid now' =
    (Some (negb b), map (fun r => if owned id uid r then with_updated_at r now' else r) rows).
Proof.
  unfold ToggleBookmark; destruct (find (owned id uid) rows) as [j|] eqn:F; [|discriminate].
  intros E; injection E as <- <-; rewrite find_map_flip, F; cbn [option_map]; f_equal.
  rewrite map_map; apply map_ext; intros r.
  destruct (owned id uid r) eqn:Eo; [rewrite flip_bookmark_owned, Eo, flip_bookmark_twice|rewrite Eo];
    reflexivity.
Qed.

Lemma toggle_bookmark_twice_witness :
  ToggleBookmark [StoreSamples.backend_job; StoreSamples.other_user_job] 1 1 300 =
    (Some true, [flip_bookmark StoreSamples.backend_job 300; StoreSamples.other_user_job]) /\
  ToggleBookmark [flip_bookmark StoreSamples.backend_job 300; StoreSamples.other_user_job] 1 1 400 =
    (Some false, [with_updated_at StoreSamples.backend_job 400; StoreSamples.other_user_job]).
Proof.
  assert (H : ToggleBookmark [StoreSamples.backend_job; StoreSamples.other_user_job] 1 1 300 =
                (Some true, [flip_bookmark StoreSamples.backend_job 300; StoreSamples.other_user_job]))
    by reflexivity.
  split; [exact H|exact (toggle_bookmark_twice _ _ _ _ _ _ _ H)].
Defined.


End JobStoreFacts.

Module StripeFacts.
Import Stripe.
Local Open Scope Z_scope.

(** X23: when the Pro+ price ids differ from the Pro ones, [planFromPriceID] maps the price id chosen by [ResolvePriceID] back to the plan. *)
Theorem resolve_price_then_plan (cfg : Config) (plan interval p : string) :
  ResolvePriceID cfg plan interval = Some p ->
  StripePriceProPlusMo cfg <> StripePriceProMo cfg -> StripePriceProPlusMo cfg <> StripePriceProAn cfg ->
  StripePriceProPlusAn cfg <> StripePriceProMo cfg -> StripePriceProPlusAn cfg <> StripePriceProAn cfg ->
  planFromPriceID cfg p = plan.
Proof.
  intros E D1 D2 D3 D4; unfold ResolvePriceID, planFromPriceID in *.
  destruct (String.eqb plan PlanPro) eqn:P1; destruct (String.eqb interval "month") eqn:I1; cbn in E;
    destruct (String.eqb interval "year") eqn:I2; cbn in E;
    destruct (String.eqb plan PlanProPlus) eqn:P2; cbn in E; try discriminate;
    injection E as <-; apply String.eqb_eq in P1 || apply String.eqb_eq in P2; subst plan;
    rewrite ?String.eqb_refl, ?orb_true_r; try reflexivity;
    repeat match goal with
    | |- context [String.eqb ?a ?b] =>
        let E := fresh in destruct (String.eqb a b) eqn:E; [apply String.eqb_eq in E; congruence|]
    end; reflexivity.
Qed.

Lemma resolve_price_then_plan_witness :
  ResolvePriceID StoreSamples.sample_config PlanProPlus "year" = Some "price_plus_an" /\
  planFromPriceID StoreSamples.sample_config "price_plus_an" = PlanProPlus.
Proof.
  assert (H : ResolvePriceID StoreSamples.sample_config PlanProPlus "year" = Some "price_plus_an")
    by reflexivity.
  split; [exact H|apply (resolve_price_then_plan _ _ "year"); [exact H|simpl; discriminate..]].
Defined.


Lemma substring_prefix (k : nat) (s : string) :
  (k <= String.length s)%nat ->
  exists rest, s = substring 0 k s ++ rest /\ String.length (substring 0 k s) = k.
Proof.
  revert s; induction k as [|k IH]; intros s Hk.
  - exists s; destruct s; split; reflexivity.
  - destruct s as [|c s]; cbn in Hk; [lia|].
    destruct (IH s ltac:(lia)) as (rest & E & L); exists rest; cbn; rewrite <- E, L; auto.
Qed.

Lemma string_length_app (a b : string) :
  String.length (a ++ b) = (String.length a + String.length b)%nat.
Proof. induction a as [|c a IH]; cbn; [reflexivity|rewrite IH; reflexivity]. Qed.

(** X24: [truncate s n] panics for a negative [n]; otherwise it returns [s] itself or the first [n] bytes of [s] followed by "...", at most [n + 3] bytes. *)
Theorem truncate_spec (s : string) (n : Z) :
  (n < 0 -> truncate s n = None) /\
  (0 <= n -> exists r, truncate s n = Some r /\ Z.of_nat (String.length r) <= n + 3 /\
     (r = s \/ exists pre rest, s = pre ++ rest /\ r = pre ++ "..." /\ Z.of_nat (String.length pre) = n)).
Proof.
  unfold truncate; split.
  - intros Hn; destruct (Z.of_nat (String.length s) <=? n) eqn:E; [apply Z.leb_le in E; lia|].
    replace (n <? 0) with true by (symmetry; apply Z.ltb_lt; exact Hn); reflexivity.
  - intros Hn; destruct (Z.of_nat (String.length s) <=? n) eqn:E.
    + apply Z.leb_le in E; exists s; split; [reflexivity|]; split; [lia|left; reflexivity].
    + apply Z.leb_gt in E; replace (n <? 0) with false by (symmetry; apply Z.ltb_ge; exact Hn).
      destruct (substring_prefix (Z.to_nat n) s ltac:(lia)) as (rest & Es & L).
      eexists; split; [reflexivity|]; split.
      * rewrite string_length_app, L; cbn; lia.
      * right; exists (substring 0 (Z.to_nat n) s), rest; repeat split; [exact Es|rewrite L; lia].
Qed.

End StripeFacts.

Module HtmlFacts.
Import Html HtmlText.

Lemma sappend_assoc (a b c : string) : a ++ (b ++ c) = (a ++ b) ++ c.
Proof. induction a as [|x a IH]; cbn; [reflexivity|rewrite IH; reflexivity]. Qed.

Lemma sappend_nil_r (a : string) : a ++ "" = a.
Proof. induction a as [|x a IH]; cbn; [reflexivity|rewrite IH; reflexivity]. Qed.

Lemma rev_string_acc (s acc : string) : rev_string s acc = rev_string s "" ++ acc.
Proof.
  revert acc; induction s as [|c s IH]; intros acc; [reflexivity|]; cbn.
  rewrite IH, (IH (String c "")), <- sappend_assoc; reflexivity.
Qed.

Lemma rev_string_twice (s : string) : rev_string (rev_string s "") "" = s.
Proof.
  assert (H : forall acc, rev_string (rev_string s acc) "" = rev_string acc "" ++ s).
  { induction s as [|c s IH]; intros acc; cbn; [rewrite sappend_nil_r; reflexivity|].
    rewrite IH; cbn; rewrite (rev_string_acc acc (String c "")), <- sappend_assoc; reflexivity. }
  apply H.
Qed.

Lemma drop_str_ToLower (i : nat) (s : string) : drop_str i (ToLower s) = ToLower (drop_str i s).
Proof.
  revert s; induction i as [|i IH]; intros s; [reflexivity|]; destruct s as [|c s]; [reflexivity|].
  apply IH.
Qed.

Lemma drop_str_cons (i : nat) (s : string) :
  (i < String.length s)%nat -> exists c rest, drop_str i s = String c rest /\ drop_str (S i) s = rest.
Proof.
  revert s; induction i as [|i IH]; intros s H; destruct s as [|c s]; cbn in H; try lia.
  - exists c, s; split; [reflexivity|destruct s; reflexivity].
  - apply IH; lia.
Qed.

Lemma drop_str_in (i : nat) (s : string) c :
  In c (list_ascii_of_string (drop_str i s)) -> In c (list_ascii_of_string s).
Proof.
  revert s; induction i as [|i IH]; intros s H; [exact H|]; destruct s as [|d s]; [exact H|].
  right; apply IH, H.
Qed.

Lemma drop_str_all (s : string) : drop_str (String.length s) s = "".
Proof. induction s; [reflexivity|exact IHs]. Qed.

Lemma lower_byte_lt (c : ascii) : c <> "<"%char -> lower_byte c <> "<"%char.
Proof.
  unfold lower_byte; intros Hc.
  destruct (Nat.leb 65 (nat_of_ascii c) && Nat.leb (nat_of_ascii c) 90) eqn:E; [|exact Hc].
  apply andb_true_iff in E as [E1 E2]; apply Nat.leb_le in E1, E2; intros Ec.
  apply (f_equal nat_of_ascii) in Ec; rewrite nat_ascii_embedding in Ec by lia; cbn in Ec; lia.
Qed.

Lemma at_pat_lt (html : string) (i : nat) (p : string) :
  plain_text html -> at_pat (ToLower html) i (String "<"%char p) = false.
Proof.
  intros Hp; unfold at_pat.
  destruct (Nat.ltb (i + String.length (String "<"%char p)) (String.length (ToLower html))) eqn:L;
    [|reflexivity]; cbn [andb].
  apply Nat.ltb_lt in L; cbn [String.length] in L.
  assert (Hlen : String.length (ToLower html) = String.length html)
    by (clear; induction html; cbn; [reflexivity|f_equal; exact IHhtml]).
  destruct (drop_str_cons i html ltac:(lia)) as (c & rest & E & _).
  rewrite drop_str_ToLower, E; cbn [ToLower HasPrefix].
  assert (Hc : c <> "<"%char).
  { apply (Hp c), (drop_str_in i); rewrite E; left; reflexivity. }
  destruct (Ascii.eqb "<" (lower_byte c)) eqn:Eb; [|reflexivity].
  apply Ascii.eqb_eq in Eb; exfalso; apply (lower_byte_lt c Hc); symmetry; exact Eb.
Qed.

Lemma strip_loop_plain (html : string) :
  plain_text html -> forall k i acc, (i + k = String.length html)%nat ->
  strip_loop k html (ToLower html) i false false false acc = rev_string (drop_str i html) acc.
Proof.
  intros Hp k; induction k as [|k IH]; intros i acc Hk.
  - rewrite Nat.add_0_r in Hk; subst i; cbn; rewrite drop_str_all; reflexivity.
  - cbn [strip_loop].
    replace (Nat.leb (String.length html) i) with false by (symmetry; apply Nat.leb_gt; lia).
    rewrite !at_pat_lt by exact Hp; cbn [orb].
    destruct (drop_str_cons i html ltac:(lia)) as (c & rest & E & E').
    assert (Hc : c <> "<"%char /\ c <> ">"%char /\ c <> "&"%char).
    { apply (Hp c), (drop_str_in i); rewrite E; left; reflexivity. }
    unfold byte_at; rewrite E.
    destruct (Ascii.eqb c "<") eqn:E1; [apply Ascii.eqb_eq in E1; tauto|].
    destruct (Ascii.eqb c ">") eqn:E2; [apply Ascii.eqb_eq in E2; tauto|]; cbn [negb].
    rewrite Nat.add_1_r, IH by lia; rewrite E'; reflexivity.
Qed.

Lemma replace_fuel_absent (f : nat) (s old new : string) (p : string) :
  (forall c, In c (list_ascii_of_string s) -> c <> "&"%char) ->
  replace_fuel f s (String "&"%char p) new = s.
Proof.
  revert s; induction f as [|f IH]; intros s Hs; [reflexivity|]; destruct s as [|c s]; [reflexivity|].
  cbn [replace_fuel HasPrefix].
  destruct (Ascii.eqb "&" c) eqn:Ec.
  { apply Ascii.eqb_eq in Ec; exfalso; apply (Hs c); [left; reflexivity|symmetry; exact Ec]. }
  cbn [andb]; rewrite IH; [reflexivity|intros d Hd; apply Hs; right; exact Hd].
Qed.

(** [stripHTML] returns a text without [<], [>] and [&] unchanged. *)
Theorem stripHTML_plain_text (html : string) : plain_text html -> stripHTML html = html.
Proof.
  intros Hp; unfold stripHTML.
  rewrite (strip_loop_plain html Hp (String.length html) 0 "" eq_refl); cbn [drop_str].
  rewrite rev_string_twice.
  assert (Ha : forall c, In c (list_ascii_of_string html) -> c <> "&"%char) by (intros c Hc; apply Hp, Hc).
  unfold ReplaceAll; rewrite !(replace_fuel_absent _ html html) by exact Ha; reflexivity.
Qed.

End HtmlFacts.


Module FeedReadFacts.
Import Store Feed Invariants JobStore FeedRead JobSearchCase RefreshRelations RefreshFacts JobStoreFacts PlannerShapeFacts.
Local Open Scope Z_scope.

Lemma feed_ranks_before_total pa (a b : Link * FeedJob) :
  feed_ranks_before pa a b = false -> feed_ranks_before pa b a = true.
Proof.
  unfold feed_ranks_before; intros E; apply orb_false_iff in E as [E1 E2].
  apply Z.ltb_ge in E1; apply orb_true_iff.
  destruct (Z.eq_dec (uf_MatchScore (fst a)) (uf_MatchScore (fst b))) as [Eq|Ne].
  - right; rewrite Eq, Z.eqb_refl in E2 |- *; cbn [andb] in *.
    destruct (pa (fj_ID (snd a))) as [x|], (pa (fj_ID (snd b))) as [y|]; try discriminate; try reflexivity.
    apply Z.leb_gt in E2; apply Z.leb_le; lia.
  - left; apply Z.ltb_lt; lia.
Qed.

Lemma insert_feed_row_sorted pa x l : Sorted (frb pa) l -> Sorted (frb pa) (insert_feed_row pa x l).
Proof.
  induction l as [|y l IH]; intros H; cbn; [repeat constructor|].
  destruct (feed_ranks_before pa y x) eqn:E.
  - apply Sorted_inv in H as [Hs Hh]; constructor; [exact (IH Hs)|].
    destruct l as [|z l]; cbn; [constructor; exact E|].
    destruct (feed_ranks_before pa z x); constructor; [inversion Hh; assumption|exact E].
  - constructor; [exact H|constructor; apply feed_ranks_before_total; exact E].
Qed.

Lemma insert_feed_row_perm pa x l : Permutation (insert_feed_row pa x l) (x :: l).
Proof.
  induction l as [|y l IH]; cbn; [reflexivity|].
  destruct (feed_ranks_before pa y x); [|reflexivity].
  etransitivity; [apply perm_skip, IH|apply perm_swap].
Qed.

Lemma order_feed_rows_sorted_perm pa l :
  Sorted (frb pa) (order_feed_rows pa l) /\ Permutation (order_feed_rows pa l) l.
Proof.
  induction l as [|x l [IHs IHp]]; cbn; [split; constructor|]; split.
  - apply insert_feed_row_sorted, IHs.
  - etransitivity; [apply insert_feed_row_perm|apply perm_skip, IHp].
Qed.

Lemma Sorted_firstn {A} (R : A -> A -> Prop) (n : nat) (l : list A) : Sorted R l -> Sorted R (firstn n l).
Proof.
  revert l; induction n as [|n IH]; intros l H; [constructor|]; destruct l as [|x l]; [constructor|].
  apply Sorted_inv in H as [Hs Hh]; cbn; constructor; [exact (IH l Hs)|].
  destruct l as [|y l], n; cbn; constructor; inversion Hh; assumption.
Qed.

(** X26: [GetUserFeed] fails for a negative limit; otherwise it returns at most the limit (30 for 0) rows, sorted by score then posting time, each an undismissed link of the user joined with its unexpired feed job. *)
Theorem get_user_feed_spec (posted_at expires_at : nat -> option Z) (db : DB) (uid : nat) (limit : Z) :
  (limit < 0 -> GetUserFeed posted_at expires_at db uid limit = None) /\
  (0 <= limit ->
   exists rows, GetUserFeed posted_at expires_at db uid limit = Some rows /\
     Z.of_nat (List.length rows) <= (if limit =? 0 then 30 else limit) /\
     Sorted (fun a b => feed_ranks_before posted_at a b = true) rows /\
     forall p, In p rows ->
       In (fst p) (user_feed db) /\ uf_UserID (fst p) = uid /\ uf_Dismissed (fst p) = false /\
       In (snd p) (feed_jobs db) /\ fj_ID (snd p) = uf_FeedJobID (fst p) /\
       not_expired expires_at (clock db) (snd p) = true).
Proof.
  unfold GetUserFeed; split.
  - intros Hn; replace (limit =? 0) with false by (symmetry; apply Z.eqb_neq; lia).
    replace (limit <? 0) with true by (symmetry; apply Z.ltb_lt; lia); reflexivity.
  - intros Hn.
    assert (Hl : 0 <= (if limit =? 0 then 30 else limit)) by (destruct (limit =? 0); lia).
    replace ((if limit =? 0 then 30 else limit) <? 0) with false by (symmetry; apply Z.ltb_ge; exact Hl).
    match goal with |- context [order_feed_rows posted_at ?rows] => set (all := rows) end.
    destruct (order_feed_rows_sorted_perm posted_at all) as [Hs Hp].
    eexists; split; [reflexivity|]; split; [|split].
    + rewrite length_firstn; lia.
    + apply Sorted_firstn, Hs.
    + intros p Hin; apply in_firstn_in, (Permutation_in _ Hp) in Hin.
      unfold all in Hin; apply in_flat_map in Hin as (l & Hl' & Hin).
      destruct (Nat.eqb (uf_UserID l) uid && negb (uf_Dismissed l)) eqn:E; [|destruct Hin].
      apply andb_true_iff in E as [E1 E2]; apply Nat.eqb_eq in E1; apply negb_true_iff in E2.
      apply in_map_iff in Hin as (r & <- & Hr); apply filter_In in Hr as [Hr Hk].
      apply andb_true_iff in Hk as [Hk1 Hk2]; apply Nat.eqb_eq in Hk1; cbn [fst snd].
      repeat split; assumption.
Qed.

(** X27: after [DismissFeedJob] on an existing link, the job stays out of the user's feed even after any [RefreshUserFeed]. *)
Theorem dismissed_job_hidden_after_refresh (env : Env) (uid' : nat) (force : bool) (db : DB)
    (uid fid : nat) (posted_at expires_at : nat -> option Z) (limit : Z) (rows : list (Link * FeedJob)) :
  (exists l, In l (user_feed db) /\ link_key uid fid l = true) ->
  GetUserFeed posted_at expires_at (st (RefreshUserFeed env uid' force) (DismissFeedJob db uid fid)) uid limit
    = Some rows ->
  forall p, In p rows -> uf_FeedJobID (fst p) <> fid.
Proof.
  intros Hl Hg p Hp Ef.
  pose proof (refresh_dismissals env uid' force _ uid fid (dismiss_dismissed db uid fid Hl)) as [_ Hall].
  destruct (Z_lt_le_dec limit 0) as [Hn|Hn].
  { destruct (get_user_feed_spec posted_at expires_at
                (st (RefreshUserFeed env uid' force) (DismissFeedJob db uid fid)) uid limit) as [H _].
    rewrite (H Hn) in Hg; discriminate. }
  destruct (get_user_feed_spec posted_at expires_at
              (st (RefreshUserFeed env uid' force) (DismissFeedJob db uid fid)) uid limit)
    as [_ (rows' & Hg' & _ & _ & Hin)]; [exact Hn|].
  rewrite Hg in Hg'; injection Hg' as <-.
  destruct (Hin p Hp) as (Hu & Eu & Ed & _).
  assert (link_key uid fid (fst p) = true) as Hk
    by (unfold link_key; rewrite Eu, Ef, !Nat.eqb_refl; reflexivity).
  rewrite (Hall _ Hu Hk) in Ed; discriminate.
Qed.

Lemma dismissed_job_hidden_after_refresh_witness :
  (exists l, In l (user_feed StoreSamples.db_linked) /\ link_key 1 0 l = true) /\
  exists rows,
    GetUserFeed (fun _ => None) (fun _ => None)
      (st (RefreshUserFeed Samples.env_one_listing 1 true) (DismissFeedJob StoreSamples.db_linked 1 0)) 1 30
      = Some rows /\
    rows <> [] /\ forall p, In p rows -> uf_FeedJobID (fst p) <> 0%nat.
Proof.
  assert (H : exists l, In l (user_feed StoreSamples.db_linked) /\ link_key 1 0 l = true).
  { exists (mkLink 1 0 50 false false); split; [simpl; tauto|reflexivity]. }
  split; [exact H|].
  eexists; split; [reflexivity|]; split; [discriminate|].
  apply (dismissed_job_hidden_after_refresh Samples.env_one_listing 1 true StoreSamples.db_linked 1 0
           (fun _ => None) (fun _ => None) 30 _ H).
  reflexivity.
Defined.


(** *** Saving a feed job into the CRM *)

(** X28: a successful [SaveFeedJobToCRM] appends a saved, unbookmarked job of the user, which [List] without filter then returns; it marks the user's link as saved and changes no feed job and no dismissed flag. *)
Theorem save_feed_job_then_list (db db' : DB) (rows rows' : list Job) (nid : nat) (now : Z)
    (uid fid : nat) (job : Job) :
  SaveFeedJobToCRM db rows nid now uid fid = (Some job, db', rows') ->
  rows' = app rows [job] /\ j_UserID job = uid /\ j_Status job = "saved" /\ j_Bookmarked job = false /\
  feed_jobs db' = feed_jobs db /\
  map uf_Dismissed (user_feed db') = map uf_Dismissed (user_feed db) /\
  (forall l, In l (user_feed db') -> link_key uid fid l = true -> uf_Saved l = true) /\
  exists listed, List rows' uid (mkJobFilter "" "" false) = Some listed /\ In job listed.
Proof.
  unfold SaveFeedJobToCRM; destruct (find_row db fid) as [fj|]; [|discriminate].
  intros E; injection E as <- <- <-; cbn [j_UserID j_Status j_Bookmarked user_feed feed_jobs set_user_feed].
  split; [reflexivity|]; do 4 (split; [reflexivity|]); split.
  { rewrite map_map; apply map_ext; intros l; destruct (link_key uid fid l); reflexivity. }
  split.
  { intros l Hl Hk; apply in_map_iff in Hl as (l0 & E0 & _); subst l.
    destruct (link_key uid fid l0) eqn:E1; [reflexivity|congruence]. }
  destruct (order_jobs_sorted_perm (filter (list_where uid (mkJobFilter "" "" false))
              (app rows [mkJob nid uid (fj_Title fj) (fj_Company fj) (fj_Location fj)
                 (match find (link_key uid fid) (user_feed db) with Some l => uf_MatchScore l | None => 0 end)
                 false "saved" now now]))) as [_ Hp].
  eexists; split; [reflexivity|].
  apply (Permutation_in _ (Permutation_sym Hp)), filter_In; split.
  - apply in_or_app; right; left; reflexivity.
  - unfold list_where; cbn; rewrite Nat.eqb_refl; reflexivity.
Qed.

Lemma save_feed_job_then_list_witness :
  exists job db' rows',
    SaveFeedJobToCRM StoreSamples.db_linked [StoreSamples.other_user_job] 2 100000 1 0 = (Some job, db', rows') /\
    rows' = app [StoreSamples.other_user_job] [job] /\ j_UserID job = 1%nat /\ j_Status job = "saved" /\
    j_Bookmarked job = false /\ feed_jobs db' = feed_jobs StoreSamples.db_linked /\
    map uf_Dismissed (user_feed db') = map uf_Dismissed (user_feed StoreSamples.db_linked) /\
    (forall l, In l (user_feed db') -> link_key 1 0 l = true -> uf_Saved l = true) /\
    exists listed, List rows' 1 (mkJobFilter "" "" false) = Some listed /\ In job listed.
Proof.
  do 3 eexists; split; [reflexivity|].
  eapply save_feed_job_then_list; reflexivity.
Defined.


(** X29: [SaveFeedJobToCRM] fails without change for a missing feed job, and saves a job with score 0 and the feed job's title, changing no link, when the user has no link to it. *)
Theorem save_feed_job_edges (db : DB) (rows : list Job) (nid : nat) (now : Z) (uid fid : nat) :
  (find_row db fid = None -> SaveFeedJobToCRM db rows nid now uid fid = (None, db, rows)) /\
  (forall fj, find_row db fid = Some fj -> existsb (link_key uid fid) (user_feed db) = false ->
   exists job, SaveFeedJobToCRM db rows nid now uid fid = (Some job, db, app rows [job]) /\
     j_MatchScore job = 0 /\ j_Title job = fj_Title fj).
Proof.
  unfold SaveFeedJobToCRM; split; [intros ->; reflexivity|].
  intros fj Hf Hx; rewrite Hf.
  assert (Hn : find (link_key uid fid) (user_feed db) = None).
  { destruct (find (link_key uid fid) (user_feed db)) as [l|] eqn:F; [|reflexivity].
    apply find_some in F as [Hl Hk].
    assert (existsb (link_key uid fid) (user_feed db) = true) by (apply existsb_exists; eauto); congruence. }
  rewrite Hn; exists (mkJob nid uid (fj_Title fj) (fj_Company fj) (fj_Location fj) 0 false "saved" now now).
  split; [|split; reflexivity].
  do 2 f_equal; destruct db as [fjs links log nid' clk]; unfold set_user_feed; cbn in *; f_equal.
  clear Hn; induction links as [|l links IH]; [reflexivity|]; cbn in *.
  apply orb_false_iff in Hx as [H1 H2]; rewrite H1, IH by exact H2; reflexivity.
Qed.

End FeedReadFacts.

Module RefreshLogFacts.
Import Store.
Local Open Scope Z_scope.

Lemma last_refresh_fold_bound (uid : nat) (c : Z) (log : list LogEntry) (acc : option Z) :
  (forall e, In e log -> rl_RefreshedAt e <= c) ->
  (forall t, acc = Some t -> t <= c) ->
  forall t, fold_left (fun acc e =>
          if Nat.eqb (rl_UserID e) uid then
            match acc with
            | Some t => Some (Z.max t (rl_RefreshedAt e))
            | None => Some (rl_RefreshedAt e)
            end
          else acc) log acc = Some t -> t <= c.
Proof.
  revert acc; induction log as [|e log IH]; intros acc He Ha; cbn; [exact Ha|].
  apply IH; [intros; apply He; right; assumption|].
  intros t Ht; specialize (He e (or_introl eq_refl)).
  destruct (Nat.eqb (rl_UserID e) uid); [|exact (Ha t Ht)].
  destruct acc as [t'|]; injection Ht as <-; [specialize (Ha t' eq_refl); lia|exact He].
Qed.

(** X30: when the log holds no time after the clock, [GetLastRefresh] right after [LogRefresh] returns the current time. *)
Theorem log_then_last_refresh (fl : Faults) (db : DB) (uid : nat) (query : string) (fetched new : Z) :
  (forall e, In e (refresh_log db) -> rl_RefreshedAt e <= clock db) ->
  log_fails fl = false -> last_refresh_fails fl uid = false ->
  GetLastRefresh fl (LogRefresh fl db uid query fetched new) uid = inl (Some (clock db)).
Proof.
  intros Hb Hl Hr; unfold GetLastRefresh, LogRefresh; rewrite Hl, Hr; cbn [refresh_log].
  rewrite fold_left_app; cbn [fold_left rl_UserID rl_RefreshedAt]; rewrite Nat.eqb_refl.
  pose proof (last_refresh_fold_bound uid (clock db) (refresh_log db) None Hb ltac:(discriminate)) as H.
  destruct (fold_left _ (refresh_log db) None) as [t|]; [|reflexivity].
  specialize (H t eq_refl); f_equal; f_equal; lia.
Qed.

Lemma log_then_last_refresh_witness :
  (forall e, In e (refresh_log Samples.db_recent) -> rl_RefreshedAt e <= clock Samples.db_recent) /\
  GetLastRefresh NoFaults (LogRefresh NoFaults Samples.db_recent 1 "multi-source" 3 1) 1 =
    inl (Some (clock Samples.db_recent)).
Proof.
  assert (H : forall e, In e (refresh_log Samples.db_recent) -> rl_RefreshedAt e <= clock Samples.db_recent)
    by (intros e [<-|[]]; simpl; lia).
  split; [exact H|apply log_then_last_refresh; [exact H|reflexivity|reflexivity]].
Defined.


End RefreshLogFacts.

Module HtmlUnicodeFacts.
Import Html GoToLower HtmlUnicode HtmlText HtmlFacts.
Local Open Scope Z_scope.

Lemma substring_HasPrefix (p s : string) (i : nat) :
  (i + String.length p <= String.length s)%nat ->
  String.eqb (substring i (String.length p) s) p = HasPrefix (drop_str i s) p.
Proof.
  revert s; induction i as [|i IH]; intros s Hl.
  - revert s Hl; induction p as [|c p IHp]; intros s Hl.
    + destruct s; reflexivity.
    + destruct s as [|d s]; cbn in Hl; [lia|].
      cbn [substring String.length drop_str HasPrefix].
      specialize (IHp s ltac:(lia)); cbn [drop_str] in IHp; rewrite <- IHp.
      change (String.eqb (String d (substring 0 (String.length p) s)) (String c p))
        with (Ascii.eqb d c && String.eqb (substring 0 (String.length p) s) p).
      rewrite Ascii.eqb_sym; reflexivity.
  - destruct s as [|d s]; cbn in Hl; [lia|].
    cbn [substring drop_str]; apply IH; lia.
Qed.

Lemma slice_is_at_pat (html lower : string) (i : nat) (pat : string) :
  String.length lower = String.length html ->
  slice_is html lower i pat = Some (at_pat lower i pat).
Proof.
  intros Hl; unfold slice_is, at_pat; rewrite Hl.
  destruct (Nat.ltb (i + String.length pat) (String.length html)) eqn:L; [|reflexivity].
  apply Nat.ltb_lt in L.
  replace (Nat.leb (i + String.length pat) (String.length html)) with true
    by (symmetry; apply Nat.leb_le; lia).
  rewrite substring_HasPrefix by lia; reflexivity.
Qed.

Lemma is_ascii_drop (s : string) (i : nat) : is_ascii_str s = true -> is_ascii_str (drop_str i s) = true.
Proof.
  revert s; induction i as [|i IH]; intros s H; [exact H|].
  destruct s as [|c s]; [reflexivity|]; cbn [drop_str].
  apply IH; unfold is_ascii_str in *; cbn in H; apply andb_true_iff in H as [_ H]; exact H.
Qed.

Lemma ToLowerGo_ascii (cl : Z -> Z) (s : string) : is_ascii_str s = true -> ToLowerGo cl s = ToLower s.
Proof. intros H; unfold ToLowerGo; rewrite H; reflexivity. Qed.

Lemma ToLowerGo_ext (cl cl' : Z -> Z) (s : string) :
  (forall r, In r (runes s) -> 127 < r -> cl r = cl' r) ->
  ToLowerGo cl s = ToLowerGo cl' s.
Proof.
  intros H; unfold ToLowerGo; destruct (is_ascii_str s); [reflexivity|].
  f_equal; apply map_ext_in; intros r Hr; unfold unicode_ToLower.
  destruct (r <=? 127) eqn:E; [reflexivity|].
  apply Z.leb_gt in E; rewrite (H r Hr E); reflexivity.
Qed.

Lemma ToLower_length (s : string) : String.length (ToLower s) = String.length s.
Proof. induction s as [|c s IH]; cbn; [reflexivity|rewrite IH; reflexivity]. Qed.

Lemma strip_loop_go_ascii (cl : Z -> Z) (html lower : string) :
  is_ascii_str html = true -> String.length lower = String.length html ->
  forall fuel i inTag inScript inStyle acc,
    strip_loop_go cl fuel html lower i inTag inScript inStyle acc =
    Some (strip_loop fuel html lower i inTag inScript inStyle acc).
Proof.
  intros Ha Hl fuel; induction fuel as [|f IH]; intros i inTag inScript inStyle acc; [reflexivity|].
  cbn [strip_loop_go strip_loop].
  destruct (Nat.leb (String.length html) i); [reflexivity|].
  rewrite !slice_is_at_pat by exact Hl.
  rewrite (ToLowerGo_ascii cl _ (is_ascii_drop html i Ha)).
  destruct (at_pat lower i "</script>"); [apply IH|].
  destruct (at_pat lower i "</style>"); [apply IH|].
  destruct (_ || _); [apply IH|].
  destruct (Ascii.eqb _ "<"%char); [apply IH|].
  destruct (Ascii.eqb _ ">"%char); [apply IH|].
  destruct (negb inTag); apply IH.
Qed.

Lemma strip_loop_go_some (cl : Z -> Z) (html lower : string) :
  (String.length html <= String.length lower)%nat ->
  forall fuel i inTag inScript inStyle acc,
    strip_loop_go cl fuel html lower i inTag inScript inStyle acc <> None.
Proof.
  intros Hl fuel; induction fuel as [|f IH]; intros i inTag inScript inStyle acc; [discriminate|].
  assert (Hs : forall pat, exists b, slice_is html lower i pat = Some b).
  { intros pat; unfold slice_is.
    destruct (Nat.ltb (i + String.length pat) (String.length html)) eqn:L; [|eauto].
    apply Nat.ltb_lt in L.
    replace (Nat.leb (i + String.length pat) (String.length lower)) with true
      by (symmetry; apply Nat.leb_le; lia); eauto. }
  cbn [strip_loop_go].
  destruct (Nat.leb (String.length html) i); [discriminate|].
  destruct (Hs "<script") as [b1 ->]; destruct (Hs "</script>") as [[|] ->]; [apply IH|].
  destruct (Hs "<style") as [b3 ->]; destruct (Hs "</style>") as [[|] ->]; [apply IH|].
  destruct (_ || _); [apply IH|].
  destruct (Ascii.eqb _ "<"%char); [apply IH|].
  destruct (Ascii.eqb _ ">"%char); [apply IH|].
  destruct (negb inTag); apply IH.
Qed.

(** X25: on ASCII text Go's [stripHTML] never panics and returns [Html.stripHTML]; ASCII text without [<], [>] and [&] comes back unchanged. *)
Theorem stripHTML_ascii (cl : Z -> Z) (html : string) :
  is_ascii_str html = true ->
  stripHTML_go cl html = Some (Html.stripHTML html) /\
  (plain_text html -> stripHTML_go cl html = Some html).
Proof.
  intros Ha.
  assert (E : stripHTML_go cl html = Some (Html.stripHTML html)).
  { unfold stripHTML_go; rewrite (ToLowerGo_ascii cl html Ha).
    rewrite (strip_loop_go_ascii cl html (ToLower html) Ha (ToLower_length html)); reflexivity. }
  split; [exact E|].
  intros Hp; rewrite E, (stripHTML_plain_text html Hp); reflexivity.
Qed.

Lemma stripHTML_ascii_witness :
  is_ascii_str "Build services in Go." = true /\
  stripHTML_go UnicodeSamples.sample_case_lower "Build services in Go." =
    Some (Html.stripHTML "Build services in Go.") /\
  (plain_text "Build services in Go." ->
   stripHTML_go UnicodeSamples.sample_case_lower "Build services in Go." = Some "Build services in Go.").
Proof.
  assert (H : is_ascii_str "Build services in Go." = true) by reflexivity.
  split; [exact H|apply stripHTML_ascii; exact H].
Defined.

(** X31: [stripHTML] can panic only on a text whose lower-case ([strings.ToLower]) is shorter in bytes than the text itself. *)
Theorem stripHTML_panics_only_when_lower_shrinks (cl : Z -> Z) (html : string) :
  (String.length html <= String.length (ToLowerGo cl html))%nat -> stripHTML_go cl html <> None.
Proof.
  intros Hl; unfold stripHTML_go.
  destruct (strip_loop_go cl _ _ _ _ _ _ _ _) eqn:E; [discriminate|].
  exfalso; exact (strip_loop_go_some cl html _ Hl _ _ _ _ _ _ E).
Qed.

Lemma stripHTML_panics_only_when_lower_shrinks_witness :
  (String.length "<p>Caf&eacute;</p>" <=
   String.length (ToLowerGo UnicodeSamples.sample_case_lower "<p>Caf&eacute;</p>"))%nat /\
  stripHTML_go UnicodeSamples.sample_case_lower "<p>Caf&eacute;</p>" <> None.
Proof.
  assert (H : (String.length "<p>Caf&eacute;</p>" <=
               String.length (ToLowerGo UnicodeSamples.sample_case_lower "<p>Caf&eacute;</p>"))%nat)
    by (vm_compute; lia).
  split; [exact H|exact (stripHTML_panics_only_when_lower_shrinks _ _ H)].
Defined.

(** Claim C2, failing input: with Go's lower-case mapping of U+0130 (capital I
    with dot above) to [i], [strings.ToLower] turns the 19 bytes of
    the Remotive description [turkish_text] (Istanbul ve Izmir, each
    capital I written as U+0130, bytes C4 B0) into the 17 bytes of
    "istanbul ve izmir", and
    [stripHTML] panics: at [i = 9] the guard [i < len(html)-9] holds and
    [lower[9:18]] is out of range. *)
Theorem stripHTML_panics_on_dotted_capital_I (cl : Z -> Z) :
  cl 304 = 105 ->
  String.length UnicodeSamples.turkish_text = 19%nat /\
  ToLowerGo cl UnicodeSamples.turkish_text = "istanbul ve izmir" /\
  slice_is UnicodeSamples.turkish_text "istanbul ve izmir" 9 "</script>" = None /\
  stripHTML_go cl UnicodeSamples.turkish_text = None.
Proof.
  intros H.
  assert (E : ToLowerGo cl UnicodeSamples.turkish_text = "istanbul ve izmir").
  { rewrite (ToLowerGo_ext cl UnicodeSamples.sample_case_lower); [vm_compute; reflexivity|].
    intros r Hr Hb; vm_compute in Hr.
    repeat destruct Hr as [<-|Hr]; try lia; try contradiction; rewrite H; reflexivity. }
  split; [reflexivity|split; [exact E|split; [reflexivity|]]].
  unfold stripHTML_go; rewrite E; vm_compute; reflexivity.
Qed.

Lemma stripHTML_panics_on_dotted_capital_I_witness :
  UnicodeSamples.sample_case_lower 304 = 105 /\ stripHTML_go UnicodeSamples.sample_case_lower UnicodeSamples.turkish_text = None.
Proof.
  assert (H : UnicodeSamples.sample_case_lower 304 = 105) by reflexivity.
  split; [exact H|apply (stripHTML_panics_on_dotted_capital_I _ H)].
Defined.

End HtmlUnicodeFacts.
